(** * Flood-control-projects explorer: filter state, aggregation, table view, export

    A shallow embedding of the logic of
    [src/pages/flood-control-projects/table.tsx] and
    [src/pages/flood-control-projects/index.tsx], and the properties the
    specification states about it.

    Layout: [JS] models the language built-ins the pages call;
    [ExportPipeline] the export pipeline and the effects of the export
    handlers; [Table] and [Dashboard] follow the two source files; [Spec]
    holds the vocabulary of the specification; the lemmas come last, one
    section per part of the specification. *)

From Stdlib Require Import ZArith QArith String Ascii List Lia Permutation.
From stdpp Require Import base gmap strings list sorting.

Local Open Scope Z_scope.

(* ===================================================================== *)
(** * The JavaScript built-ins used by the pages *)
(* ===================================================================== *)

(** Strings are byte strings: the model covers text whose characters are
    single code units below 256, compared by code unit as JavaScript does.
    Numbers are exact rationals extended with the infinities and NaN: a
    numeric text stands for the rational it denotes and the rounding of
    doubles is not modelled, so statements about numbers are about values
    that doubles represent exactly, as amounts in whole pesos are. *)
Module JS.

(** ** Strings *)

(** The double-quote character, for template literals that contain it. *)
Definition dquote : string := String "034"%char EmptyString.

(** The code units [String.prototype.trim] strips, below 256: the white
    space TAB, VT, FF, SPACE and NO-BREAK SPACE (U+00A0) and the line
    terminators LF and CR. [parseFloat] and [Number] skip the same. *)
Definition isWhiteSpace (c : ascii) : bool :=
  match N_of_ascii c with
  | 9 | 10 | 11 | 12 | 13 | 32 | 160 => true
  | _ => false
  end%N.

Fixpoint trimStart (s : string) : string :=
  match s with
  | String c s' => if isWhiteSpace c then trimStart s' else s
  | EmptyString => EmptyString
  end.

Fixpoint trimEnd (s : string) : string :=
  match s with
  | String c s' =>
      match trimEnd s' with
      | EmptyString => if isWhiteSpace c then EmptyString else String c EmptyString
      | t => String c t
      end
  | EmptyString => EmptyString
  end.

(** [s.trim()] *)
Definition trim (s : string) : string := trimEnd (trimStart s).

(** The lower-case mapping of a code unit below 256: the letters A to Z
    and the letters U+00C0 to U+00DE, of which U+00D7, the multiplication
    sign, is not one, have their lower-case form 32 places up; every
    other code unit is mapped to itself. *)
Definition lowerChar (c : ascii) : ascii :=
  let n := N_of_ascii c in
  if ((65 <=? n) && (n <=? 90))%N then ascii_of_N (n + 32)
  else if ((192 <=? n) && (n <=? 222) && negb (n =? 215))%N then ascii_of_N (n + 32)
  else c.

(** [s.toLowerCase()] *)
Fixpoint toLowerCase (s : string) : string :=
  match s with
  | String c s' => String (lowerChar c) (toLowerCase s')
  | EmptyString => EmptyString
  end.

(** [a < b] and [a > b] on strings: lexicographic on code units. *)
Definition strLt (a b : string) : bool := String.ltb a b.
Definition strGt (a b : string) : bool := String.ltb b a.

(** ToBoolean of a string: only the empty string is falsy. *)
Definition nonEmpty (s : string) : bool :=
  match s with EmptyString => false | String _ _ => true end.

(** ToBoolean of a possibly-undefined string property. *)
Definition truthy (v : option string) : bool :=
  match v with Some s => nonEmpty s | None => false end.

(** [v || d] on a possibly-undefined string. *)
Definition orElse (v : option string) (d : string) : string :=
  match v with
  | Some s => if nonEmpty s then s else d
  | None => d
  end.

(** [xs.join(sep)] *)
Definition join (sep : string) (xs : list string) : string :=
  String.concat sep xs.

(** ** Numbers *)

Inductive JSNum : Type :=
| NaN
| Inf (negative : bool)
| Fin (q : Q).

Definition ofZ (z : Z) : JSNum := Fin (inject_Z z).
Definition ofNat (n : nat) : JSNum := ofZ (Z.of_nat n).

Definition isNaN (v : JSNum) : bool :=
  match v with NaN => true | _ => false end.

(** [v > 0]; false on NaN. *)
Definition isPositive (v : JSNum) : bool :=
  match v with
  | NaN => false
  | Inf negative => negb negative
  | Fin q => 0 <? Qnum q
  end.

(** [a + b] *)
Definition numAdd (a b : JSNum) : JSNum :=
  match a, b with
  | NaN, _ | _, NaN => NaN
  | Inf s, Inf t => if Bool.eqb s t then Inf s else NaN
  | Inf s, Fin _ => Inf s
  | Fin _, Inf t => Inf t
  | Fin p, Fin q => Fin (Qred (p + q))
  end.

(** [a - b] *)
Definition numSub (a b : JSNum) : JSNum :=
  match a, b with
  | NaN, _ | _, NaN => NaN
  | Inf s, Inf t => if Bool.eqb s t then NaN else Inf s
  | Inf s, Fin _ => Inf s
  | Fin _, Inf t => Inf (negb t)
  | Fin p, Fin q => Fin (Qred (p - q))
  end.

(** [v || 0] on a number: zero and NaN are falsy. *)
Definition orZero (v : JSNum) : JSNum :=
  match v with
  | NaN => ofZ 0
  | Inf s => Inf s
  | Fin q => if Qnum q =? 0 then ofZ 0 else Fin q
  end.

(** ** Numeric literals *)

Definition digitOf (c : ascii) : option Z :=
  let n := Z.of_N (N_of_ascii c) in
  if (48 <=? n) && (n <=? 57) then Some (n - 48) else None.

(** Reads the longest run of decimal digits: its value on top of [acc],
    how many digits were read on top of [count], and the rest. *)
Fixpoint readDigits (s : string) (acc : Z) (count : nat) : Z * nat * string :=
  match s with
  | String c s' =>
      match digitOf c with
      | Some d => readDigits s' (10 * acc + d) (S count)
      | None => (acc, count, s)
      end
  | EmptyString => (acc, count, s)
  end.

Definition readSign (s : string) : Z * string :=
  match s with
  | String "+"%char s' => (1, s')
  | String "-"%char s' => (-1, s')
  | _ => (1, s)
  end.

(** ExponentPart, when present and complete; otherwise nothing is read. *)
Definition readExponent (s : string) : Z * string :=
  match s with
  | String c s1 =>
      if (Ascii.eqb c "e" || Ascii.eqb c "E")%char then
        let '(sg, s2) := readSign s1 in
        let '(v, n, rest) := readDigits s2 0 0%nat in
        match n with
        | O => (0, s)
        | S _ => (sg * v, rest)
        end
      else (0, s)
  | EmptyString => (0, s)
  end.

(** [m * 10^e] as a reduced fraction. *)
Definition scale10 (m e : Z) : Q :=
  if 0 <=? e then inject_Z (m * 10 ^ e)
  else Qred (Qmake m (Z.to_pos (10 ^ (- e)))).

Fixpoint dropPrefix (p s : string) : option string :=
  match p, s with
  | EmptyString, _ => Some s
  | String a p', String b s' => if Ascii.eqb a b then dropPrefix p' s' else None
  | String _ _, EmptyString => None
  end.

(** The longest prefix that is a StrUnsignedDecimalLiteral, as a
    magnitude ([None] for Infinity) and the rest of the text. *)
Definition readUnsignedDecimal (s : string) : option (option Q * string) :=
  match dropPrefix "Infinity" s with
  | Some rest => Some (None, rest)
  | None =>
      let '(ip, n1, r1) := readDigits s 0 0%nat in
      match n1 with
      | S _ =>
          match r1 with
          | String "."%char r2 =>
              let '(fp, n2, r3) := readDigits r2 0 0%nat in
              let '(e, r4) := readExponent r3 in
              Some (Some (scale10 (ip * 10 ^ Z.of_nat n2 + fp) (e - Z.of_nat n2)), r4)
          | _ =>
              let '(e, r4) := readExponent r1 in
              Some (Some (scale10 ip e), r4)
          end
      | O =>
          match s with
          | String "."%char r2 =>
              let '(fp, n2, r3) := readDigits r2 0 0%nat in
              match n2 with
              | S _ =>
                  let '(e, r4) := readExponent r3 in
                  Some (Some (scale10 fp (e - Z.of_nat n2)), r4)
              | O => None
              end
          | _ => None
          end
      end
  end.

(** The longest prefix that is a StrDecimalLiteral. *)
Definition readDecimal (s : string) : option (JSNum * string) :=
  let '(sg, s1) := readSign s in
  match readUnsignedDecimal s1 with
  | Some (None, rest) => Some (Inf (sg <? 0), rest)
  | Some (Some q, rest) => Some (Fin (Qred (inject_Z sg * q)), rest)
  | None => None
  end.

(** [parseFloat(s)]: leading white space is skipped, the longest numeric
    prefix is read, and anything after it is ignored; NaN when there is
    no such prefix. *)
Definition parseFloat (s : string) : JSNum :=
  match readDecimal (trimStart s) with
  | Some (v, _) => v
  | None => NaN
  end.

Definition radixDigit (radix : Z) (c : ascii) : option Z :=
  let n := Z.of_N (N_of_ascii c) in
  let d :=
    if (48 <=? n) && (n <=? 57) then n - 48
    else if (97 <=? n) && (n <=? 102) then n - 87
    else if (65 <=? n) && (n <=? 70) then n - 55
    else radix in
  if d <? radix then Some d else None.

(** All of [s] as digits of the given radix. *)
Fixpoint readRadix (radix : Z) (s : string) (acc : Z) : option Z :=
  match s with
  | String c s' =>
      match radixDigit radix c with
      | Some d => readRadix radix s' (radix * acc + d)
      | None => None
      end
  | EmptyString => Some acc
  end.

(** NonDecimalIntegerLiteral: 0x, 0o and 0b prefixes, either case. *)
Definition readNonDecimal (s : string) : option Z :=
  match s with
  | String "0"%char (String p (String c rest)) =>
      let body := String c rest in
      if (Ascii.eqb p "x" || Ascii.eqb p "X")%char then readRadix 16 body 0
      else if (Ascii.eqb p "o" || Ascii.eqb p "O")%char then readRadix 8 body 0
      else if (Ascii.eqb p "b" || Ascii.eqb p "B")%char then readRadix 2 body 0
      else None
  | _ => None
  end.

(** [Number(v)] on a possibly-undefined string: the whole trimmed text
    must be a numeric literal; the empty text is 0; undefined is NaN. *)
Definition Number (v : option string) : JSNum :=
  match v with
  | None => NaN
  | Some s =>
      let t := trim s in
      match t with
      | EmptyString => ofZ 0
      | _ =>
          match readDecimal t with
          | Some (n, EmptyString) => n
          | _ =>
              match readNonDecimal t with
              | Some z => ofZ z
              | None => NaN
              end
          end
      end
  end.

(** ** Arrays *)

(** [xs.slice(start, end)] with the clamping of relative indices. *)
Definition slice {A : Type} (start end_ : Z) (xs : list A) : list A :=
  let len := Z.of_nat (length xs) in
  let k := if start <? 0 then Z.max (len + start) 0 else Z.min start len in
  let final := if end_ <? 0 then Z.max (len + end_) 0 else Z.min end_ len in
  take (Z.to_nat (final - k)) (drop (Z.to_nat k) xs).

(** [Array.prototype.sort(comparefn)]. The language requires the sort to
    be stable and to treat a NaN result of [comparefn] as 0; with a
    consistent comparator that fixes the result. It is modelled as an
    insertion sort in which an element moves behind a later one only
    when [comparefn] of the pair is positive. *)
Section Sort.
Context {A : Type} (comparefn : A → A → JSNum).

Definition sortsAfter (x y : A) : bool := isPositive (comparefn x y).

Fixpoint sortInsert (x : A) (xs : list A) : list A :=
  match xs with
  | [] => [x]
  | y :: ys => if sortsAfter x y then y :: sortInsert x ys else x :: xs
  end.

Fixpoint sort (xs : list A) : list A :=
  match xs with
  | [] => []
  | x :: xs' => sortInsert x (sort xs')
  end.
End Sort.

(** [new Set(xs).size] *)
Definition setSize {A : Type} `{EqDecision A} (xs : list A) : nat :=
  length (remove_dups xs).

(** ** Objects used as dictionaries *)

(** An object literal [{}] that is only ever indexed by string keys: its
    own properties in creation order. Properties inherited from
    [Object.prototype] are not modelled: keys are taken not to be names
    such as constructor or toString. *)
Definition Dict (V : Type) : Type := list (string * V).

Fixpoint dictGet {V : Type} (k : string) (o : Dict V) : option V :=
  match o with
  | [] => None
  | (k', v) :: o' => if String.eqb k k' then Some v else dictGet k o'
  end.

(** [o[k] = v]: an existing property keeps its place. *)
Fixpoint dictSet {V : Type} (k : string) (v : V) (o : Dict V) : Dict V :=
  match o with
  | [] => [(k, v)]
  | (k', v') :: o' =>
      if String.eqb k k' then (k, v) :: o' else (k', v') :: dictSet k v o'
  end.

(** An array index: the canonical decimal text of an integer below
    [2^32 - 1]. *)
Definition arrayIndex (k : string) : option Z :=
  match k with
  | EmptyString => None
  | String c rest =>
      let '(v, n, r) := readDigits k 0 0%nat in
      match r with
      | EmptyString =>
          if (negb (Ascii.eqb c "0"%char) || (n =? 1)%nat) && (v <? 2 ^ 32 - 1)
          then Some v else None
      | _ => None
      end
  end.

Definition isArrayIndex {V : Type} (e : string * V) : bool :=
  match arrayIndex e.1 with Some _ => true | None => false end.

Definition indexOrder {V : Type} (a b : string * V) : JSNum :=
  match arrayIndex a.1, arrayIndex b.1 with
  | Some i, Some j => ofZ (i - j)
  | _, _ => ofZ 0
  end.

(** [Object.entries(o)]: array-index keys first, in ascending numeric
    order, then the other keys in creation order. *)
Definition entries {V : Type} (o : Dict V) : list (string * V) :=
  sort indexOrder (filter (λ e, isArrayIndex e = true) o)
    ++ filter (λ e, isArrayIndex e = false) o.

(** ** Searching in strings and arrays *)

(** [s.includes(search)]: [search] occurs in [s]; the empty text occurs
    in every text. *)
Fixpoint includes (s search : string) : bool :=
  match dropPrefix search s with
  | Some _ => true
  | None =>
      match s with
      | String _ s' => includes s' search
      | EmptyString => false
      end
  end.

(** [xs.find(p)]: the first element that satisfies [p], undefined when
    there is none. *)
Definition arrayFind {A : Type} (p : A → bool) (xs : list A) : option A :=
  List.find p xs.

End JS.

(* ===================================================================== *)
(** * Hit records *)
(* ===================================================================== *)

(** [type FloodControlHit] of table.tsx: every field is an optional
    string. index.tsx imports the type of the same name from
    ./shared-components and reads the same fields. *)
Record FloodControlHit : Type := {
  GlobalID : option string;
  objectID : option string;
  ProjectDescription : option string;
  InfraYear : option string;
  Region : option string;
  Province : option string;
  Municipality : option string;
  TypeofWork : option string;
  Contractor : option string;
  ContractCost : option string;
}.

(** [hit[field]] for a field name known only at run time. *)
Definition getField (field : string) (hit : FloodControlHit) : option string :=
  if String.eqb field "GlobalID" then GlobalID hit
  else if String.eqb field "objectID" then objectID hit
  else if String.eqb field "ProjectDescription" then ProjectDescription hit
  else if String.eqb field "InfraYear" then InfraYear hit
  else if String.eqb field "Region" then Region hit
  else if String.eqb field "Province" then Province hit
  else if String.eqb field "Municipality" then Municipality hit
  else if String.eqb field "TypeofWork" then TypeofWork hit
  else if String.eqb field "Contractor" then Contractor hit
  else if String.eqb field "ContractCost" then ContractCost hit
  else None.

(** The filter state is a JavaScript object indexed by facet name. *)
Abbreviation FilterState := (gmap string string).

(** The state both pages start from: every facet is the empty string. *)
Definition initialFilters : FilterState :=
  <["InfraYear" := ""]> (<["Region" := ""]> (<["Province" := ""]>
  (<["TypeofWork" := ""]> (<["DistrictEngineeringOffice" := ""]>
  (<["LegislativeDistrict" := ""]> ∅))))).

(* ===================================================================== *)
(** * Lookup data and the options of the dropdowns *)
(* ===================================================================== *)

(** An entry of a lookup file as the dropdowns read it: [{ value, count }],
    with the optional region code [regCode] that region and province
    entries carry. The files themselves are not among the sources. *)
Module LookupData.
Record Item : Type := {
  value : string;
  count : nat;
  regCode : option string;
}.
End LookupData.

(** [filteredOptions] of [FilterDropdown], in table.tsx and in the shared
    components alike: the options whose value contains the search term,
    letter case apart, when the dropdown is searchable and a term is
    typed; all options otherwise. *)
Definition filteredOptions (searchable : bool) (searchTerm : string)
    (options : list LookupData.Item) : list LookupData.Item :=
  if searchable && JS.nonEmpty searchTerm then
    filter (λ option,
              JS.includes (JS.toLowerCase (LookupData.value option))
                          (JS.toLowerCase searchTerm) = true) options
  else options.

(** [provinceOptions], the same in table.tsx and index.tsx: the provinces
    offered for the selected region. *)
Definition provinceOptions (regionData provinceData : list LookupData.Item)
    (filters : FilterState) : list LookupData.Item :=
  if bool_decide (filters !! "Region" = Some "National Capital Region") then
    let nationalCapitalRegion :=
      filter (λ item, LookupData.regCode item = Some "13") provinceData in
    let otherRegions :=
      filter (λ item, JS.truthy (LookupData.regCode item) = false) provinceData in
    nationalCapitalRegion ++ otherRegions
  else if JS.truthy (filters !! "Region") then
    let regionId :=
      match JS.arrayFind
              (λ item, bool_decide (Some (LookupData.value item) = filters !! "Region"))
              regionData with
      | Some item => LookupData.regCode item
      | None => None
      end in
    filter (λ item, LookupData.regCode item = regionId) provinceData
  else provinceData.

(* ===================================================================== *)
(** * Effects of the export handlers *)
(* ===================================================================== *)

Module ExportPipeline.
Section Effects.
Context {Row : Type}.

(** What an export can change: the page's exporting flag, the alerts
    shown to the user, the error console, the files handed to the
    browser, and the page requests sent to the search service. *)
Record World : Type := {
  isExporting : bool;
  alerts : list string;
  console : list string;
  downloads : list (string * list Row);
  requests : nat;
}.

Inductive Outcome (A : Type) : Type :=
| Returned (a : A)
| Thrown (error : string).
Global Arguments Returned {A} a.
Global Arguments Thrown {A} error.

(** A computation that may change the world and may throw. *)
Definition Eff (A : Type) : Type := World → World * Outcome A.

Definition ret {A : Type} (a : A) : Eff A := λ w, (w, Returned a).

Definition throw {A : Type} (error : string) : Eff A := λ w, (w, Thrown error).

Definition bind {A B : Type} (m : Eff A) (k : A → Eff B) : Eff B :=
  λ w,
    match m w with
    | (w', Returned a) => k a w'
    | (w', Thrown error) => (w', Thrown error)
    end.

(** [try { body } catch (error) { handler } finally { cleanup }] *)
Definition tryCatchFinally {A : Type}
    (body : Eff A) (handler : string → Eff A) (cleanup : Eff unit) : Eff A :=
  λ w,
    let '(w1, r1) :=
      match body w with
      | (w', Returned a) => (w', Returned a)
      | (w', Thrown error) => handler error w'
      end in
    match cleanup w1 with
    | (w2, Returned _) => (w2, r1)
    | (w2, Thrown error) => (w2, Thrown error)
    end.

Definition setIsExporting (b : bool) : Eff unit :=
  λ w, ({| isExporting := b; alerts := alerts w; console := console w;
           downloads := downloads w; requests := requests w |}, Returned tt).

Definition alert (message : string) : Eff unit :=
  λ w, ({| isExporting := isExporting w; alerts := alerts w ++ [message];
           console := console w; downloads := downloads w;
           requests := requests w |}, Returned tt).

Definition consoleError (message : string) : Eff unit :=
  λ w, ({| isExporting := isExporting w; alerts := alerts w;
           console := console w ++ [message]; downloads := downloads w;
           requests := requests w |}, Returned tt).

Definition download (filename : string) (rows : list Row) : Eff unit :=
  λ w, ({| isExporting := isExporting w; alerts := alerts w;
           console := console w; downloads := downloads w ++ [(filename, rows)];
           requests := requests w |}, Returned tt).

(** Modelled from the spec: the Query Facade as the export pipeline sees
    it, which lib/exportData reaches and which is not among the sources.
    For a predicate and a free-text query it gives the outcome of each
    successive page retrieval, [None] when the retrieval fails. *)
Definition QueryFacade : Type := string → string → list (option (list Row)).

(** Modelled from the spec: one page retrieval of the export pipeline
    (lib/exportData, not among the sources). It is counted, and a failed
    one throws. *)
Definition fetchPage (page : option (list Row)) : Eff (list Row) :=
  λ w,
    let w' := {| isExporting := isExporting w; alerts := alerts w;
                 console := console w; downloads := downloads w;
                 requests := S (requests w) |} in
    match page with
    | Some hits => (w', Returned hits)
    | None => (w', Thrown "retrieval failed")
    end.

(** Modelled from the spec: the multi-page fetch of the export pipeline
    (lib/exportData, not among the sources). Pages are retrieved strictly
    one after the other and accumulated in order; nothing is retried, and
    a single failed page aborts the whole fetch. *)
Fixpoint fetchAll (pages : list (option (list Row))) (acc : list Row)
    : Eff (list Row) :=
  match pages with
  | [] => ret acc
  | page :: rest => bind (fetchPage page) (λ hits, fetchAll rest (acc ++ hits))
  end.

(** Modelled from the spec: [exportMeilisearchData] of lib/exportData,
    which the page handlers call and which is not among the sources.
    The export pipeline retrieves all matching records across as many
    pages as needed, accumulates them into one ordered sequence and
    serializes them to one downloadable file; any retrieval error
    aborts the entire export and no file is produced. *)
Definition exportMeilisearchData (facade : QueryFacade)
    (filters searchTerm filename : string) : Eff unit :=
  bind (fetchAll (facade filters searchTerm) [])
       (λ rows, download filename rows).
End Effects.
Global Arguments World : clear implicits.
Global Arguments Eff : clear implicits.
Global Arguments QueryFacade : clear implicits.
End ExportPipeline.

(* ===================================================================== *)
(** * table.tsx: the table view *)
(* ===================================================================== *)

Module Table.
Import JS.

(** ** Filter state *)

(** [handleFilterChange]: the facet is overwritten, and Province is
    emptied when the facet is Region. *)
Definition handleFilterChange (filters : FilterState)
    (filterName value : string) : FilterState :=
  let newFilters := <[filterName := value]> filters in
  if String.eqb filterName "Region"
  then <["Province" := ""]> newFilters
  else newFilters.

(** [filterStrings.push(x)] *)
Definition push (filterStrings : list string) (x : string) : list string :=
  filterStrings ++ [x].

(** The guarded push of one facet: [if (v && v.trim()) push(clause(v.trim()))]. *)
Definition pushIfSet (filterStrings : list string) (v : option string)
    (clause : string → string) : list string :=
  match v with
  | Some s =>
      if nonEmpty s && nonEmpty (trim s)
      then push filterStrings (clause (trim s))
      else filterStrings
  | None => filterStrings
  end.

(** [buildFilterString]: the filter sent to the search service. The year
    facet is sent as the numeric attribute FundingYear. *)
Definition buildFilterString (filters : FilterState) : string :=
  let filterStrings := [] in
  let filterStrings :=
    push filterStrings ("type = " +:+ dquote +:+ "flood_control" +:+ dquote) in
  let filterStrings :=
    pushIfSet filterStrings (filters !! "InfraYear")
      (λ v, "FundingYear = " +:+ v) in
  let filterStrings :=
    pushIfSet filterStrings (filters !! "Region")
      (λ v, "Region = " +:+ dquote +:+ v +:+ dquote) in
  let filterStrings :=
    pushIfSet filterStrings (filters !! "Province")
      (λ v, "Province = " +:+ dquote +:+ v +:+ dquote) in
  let filterStrings :=
    pushIfSet filterStrings (filters !! "TypeofWork")
      (λ v, "TypeofWork = " +:+ dquote +:+ v +:+ dquote) in
  let filterStrings :=
    pushIfSet filterStrings (filters !! "DistrictEngineeringOffice")
      (λ v, "DistrictEngineeringOffice = " +:+ dquote +:+ v +:+ dquote) in
  let filterStrings :=
    pushIfSet filterStrings (filters !! "LegislativeDistrict")
      (λ v, "LegislativeDistrict = " +:+ dquote +:+ v +:+ dquote) in
  if (0 <? length filterStrings)%nat then join " AND " filterStrings
  else EmptyString.

Definition getEffectiveSearchTerm (searchTerm : string) : string := searchTerm.

(** ** ResultsStatistics *)

(** The unique-contractor count of [ResultsStatistics]. *)
Definition uniqueContractors (hits : list FloodControlHit) : nat :=
  setSize
    (map Contractor
       (filter (λ hit, match Contractor hit with
                       | Some c => nonEmpty c && nonEmpty (trim c)
                       | None => false
                       end = true) hits)).

(** ** TableHits: sorting *)

Inductive SortDirection : Type := asc | desc.

Record TableState : Type := {
  sortField : string;
  sortDirection : SortDirection;
  currentPage : Z;
}.

Definition initialState : TableState :=
  {| sortField := "ProjectDescription"; sortDirection := asc; currentPage := 0 |}.

(** The comparator handed to [sort]. *)
Definition compareHits (sortField : string) (sortDirection : SortDirection)
    (a b : FloodControlHit) : JSNum :=
  if String.eqb sortField "ContractCost" then
    let costA := parseFloat (orElse (getField sortField a) "0") in
    let costB := parseFloat (orElse (getField sortField b) "0") in
    match sortDirection with
    | asc => numSub costA costB
    | desc => numSub costB costA
    end
  else
    let valueA := orElse (toLowerCase <$> getField sortField a) EmptyString in
    let valueB := orElse (toLowerCase <$> getField sortField b) EmptyString in
    if strLt valueA valueB then
      match sortDirection with asc => ofZ (-1) | desc => ofZ 1 end
    else if strGt valueA valueB then
      match sortDirection with asc => ofZ 1 | desc => ofZ (-1) end
    else ofZ 0.

(** [sortedHits]: a sorted copy of the hits of the current batch. *)
Definition sortedHits (st : TableState) (hits : list FloodControlHit)
    : list FloodControlHit :=
  sort (compareHits (sortField st) (sortDirection st)) hits.

Definition handleSort (field : string) (st : TableState) : TableState :=
  if String.eqb (sortField st) field then
    {| sortField := sortField st;
       sortDirection := match sortDirection st with asc => desc | desc => asc end;
       currentPage := currentPage st |}
  else
    {| sortField := field; sortDirection := asc; currentPage := currentPage st |}.

(** ** TableHits: pagination *)

Definition hitsPerPage : Z := 20.

Definition handlePageChange (selectedPage : Z) (st : TableState) : TableState :=
  {| sortField := sortField st; sortDirection := sortDirection st;
     currentPage := selectedPage |}.

Definition startIndex (currentPage : Z) : Z := currentPage * hitsPerPage.

Definition endIndex {A : Type} (currentPage : Z) (sorted : list A) : Z :=
  Z.min (startIndex currentPage + hitsPerPage) (Z.of_nat (length sorted)).

Definition paginatedHits {A : Type} (currentPage : Z) (sorted : list A) : list A :=
  slice (startIndex currentPage) (endIndex currentPage sorted) sorted.

(** [Math.ceil(length / hitsPerPage)] *)
Definition totalPages (length : nat) : Z :=
  (Z.of_nat length + hitsPerPage - 1) / hitsPerPage.

(** The page a numbered button shows, for the button at position [i]. *)
Definition pageToShow (totalPages currentPage i : Z) : Z :=
  if totalPages <=? 5 then i
  else if currentPage <? 3 then i
  else if currentPage >? totalPages - 4 then totalPages - 5 + i
  else currentPage - 2 + i.

(** The numbered buttons that are rendered. *)
Definition pageButtons (totalPages currentPage : Z) : list Z :=
  filter (λ p, (p >=? totalPages) = false)
    (map (pageToShow totalPages currentPage) (seqZ 0 (Z.min 5 totalPages))).

(** The pages the enabled controls hand to [handlePageChange]: previous,
    the numbered buttons, next. The controls are rendered only when
    there is more than one page. *)
Definition paginationTargets (length : nat) (currentPage : Z) : list Z :=
  let totalPages := totalPages length in
  if totalPages >? 1 then
    (if currentPage =? 0 then [] else [Z.max 0 (currentPage - 1)])
      ++ pageButtons totalPages currentPage
      ++ (if currentPage >=? totalPages - 1 then []
          else [Z.min (totalPages - 1) (currentPage + 1)])
  else [].

(** The states a user can reach on a batch of the given length, from
    the initial state, by clicking enabled pagination controls and
    column headers. *)
Inductive reachable (length : nat) : TableState → Prop :=
| reach_initial : reachable length initialState
| reach_page (st : TableState) (q : Z) :
    reachable length st →
    q ∈ paginationTargets length (currentPage st) →
    reachable length (handlePageChange q st)
| reach_sort (st : TableState) (field : string) :
    reachable length st →
    reachable length (handleSort field st).

(** ** Export *)

Definition handleExportData {Row : Type}
    (facade : ExportPipeline.QueryFacade Row)
    (filters : FilterState) (searchTerm : string)
    : ExportPipeline.Eff Row unit :=
  ExportPipeline.bind (ExportPipeline.setIsExporting true) (λ _,
    let filterString := buildFilterString filters in
    let effectiveSearchTerm := getEffectiveSearchTerm searchTerm in
    ExportPipeline.tryCatchFinally
      (ExportPipeline.bind
         (ExportPipeline.exportMeilisearchData facade filterString
            effectiveSearchTerm "flood-control-projects-table")
         (λ _, ExportPipeline.alert "Data exported successfully!"))
      (λ error,
         ExportPipeline.bind
           (ExportPipeline.consoleError ("Error exporting data: " +:+ error))
           (λ _, ExportPipeline.alert "Failed to export data. Please try again."))
      (ExportPipeline.setIsExporting false)).

(** ** FilterTitle *)

(** One guarded push of [FilterTitle]: [if (v) activeFilters.push(label(v))]. *)
Definition pushIfTruthy (activeFilters : list string) (v : option string)
    (label : string → string) : list string :=
  match v with
  | Some s => if nonEmpty s then push activeFilters (label s) else activeFilters
  | None => activeFilters
  end.

(** The descriptions of the active filters, in the order of the badges. *)
Definition activeFilters (filters : FilterState) (searchTerm : string)
    : list string :=
  let activeFilters := [] in
  let activeFilters :=
    pushIfTruthy activeFilters (Some searchTerm)
      (λ v, "Search: " +:+ dquote +:+ v +:+ dquote) in
  let activeFilters :=
    pushIfTruthy activeFilters (filters !! "InfraYear") (λ v, "Year: " +:+ v) in
  let activeFilters :=
    pushIfTruthy activeFilters (filters !! "Region") (λ v, "Region: " +:+ v) in
  let activeFilters :=
    pushIfTruthy activeFilters (filters !! "Province") (λ v, "Province: " +:+ v) in
  let activeFilters :=
    pushIfTruthy activeFilters (filters !! "TypeofWork")
      (λ v, "Type of Work: " +:+ v) in
  let activeFilters :=
    pushIfTruthy activeFilters (filters !! "DistrictEngineeringOffice")
      (λ v, "District Engineering Office: " +:+ v) in
  let activeFilters :=
    pushIfTruthy activeFilters (filters !! "LegislativeDistrict")
      (λ v, "Legislative District: " +:+ v) in
  activeFilters.

(** The heading [FilterTitle] of table.tsx renders. *)
Definition filterTitle (filters : FilterState) (searchTerm : string) : string :=
  let title := "All Flood Control Projects" in
  if (0 <? length (activeFilters filters searchTerm))%nat
  then "Flood Control Projects | " +:+ join " | " (activeFilters filters searchTerm)
  else title.

(** ** The range line of the pagination *)

(** [Showing {startIndex + 1} to {endIndex} of {sortedHits.length}]. *)
Definition showingRange {A : Type} (currentPage : Z) (sorted : list A)
    : Z * Z * Z :=
  (startIndex currentPage + 1, endIndex currentPage sorted,
   Z.of_nat (length sorted)).

(** ** The sidebar *)

Section Sidebar.
(** The lookup files are not among the sources. *)
Variables infraYearData regionData provinceData : list LookupData.Item.
Variables typeOfWorkData deoData legislativeDistrictData : list LookupData.Item.

(** The six dropdowns of the sidebar, by the facet they change: whether
    the dropdown is searchable, and the options it is given. *)
Definition dropdown (filters : FilterState) (filterName : string)
    : option (bool * list LookupData.Item) :=
  if String.eqb filterName "InfraYear" then Some (false, infraYearData)
  else if String.eqb filterName "Region" then Some (true, regionData)
  else if String.eqb filterName "Province"
  then Some (true, provinceOptions regionData provinceData filters)
  else if String.eqb filterName "TypeofWork" then Some (true, typeOfWorkData)
  else if String.eqb filterName "DistrictEngineeringOffice" then Some (true, deoData)
  else if String.eqb filterName "LegislativeDistrict"
  then Some (true, legislativeDistrictData)
  else None.

(** What a click in an open dropdown hands to [onChange]: the empty
    string for the entry All, the value of the option for a listed
    option, whatever was typed in the search box of the dropdown. *)
Inductive dropdownChoice (searchable : bool) (options : list LookupData.Item)
    : string → Prop :=
| choose_all : dropdownChoice searchable options EmptyString
| choose_option (searchTerm : string) (option : LookupData.Item) :
    option ∈ filteredOptions searchable searchTerm options →
    dropdownChoice searchable options (LookupData.value option).

(** The filter states the sidebar can produce. *)
Inductive reachableFilters : FilterState → Prop :=
| filters_initial : reachableFilters initialFilters
| filters_choice (filters : FilterState) (filterName value : string)
      (searchable : bool) (options : list LookupData.Item) :
    reachableFilters filters →
    dropdown filters filterName = Some (searchable, options) →
    dropdownChoice searchable options value →
    reachableFilters (handleFilterChange filters filterName value).
End Sidebar.

End Table.

(* ===================================================================== *)
(** * index.tsx: the chart dashboard *)
(* ===================================================================== *)

Module Dashboard.
Import JS.

(** An entry of a lookup file: [{ value, count }]. The type-of-work
    chart uses the same shape for its data. *)
Record DataItem : Type := { value : string; count : nat }.

(** [{ name, Projects }] of the year and region charts. *)
Module Bar.
Record t : Type := { name : string; Projects : nat }.
End Bar.

(** [{ name, Projects, fullName }] of the contractor chart. *)
Module ContractorBar.
Record t : Type := { name : string; Projects : nat; fullName : string }.
End ContractorBar.

Record Stats : Type := {
  totalProjects : Z;
  totalCost : JSNum;
  uniqueContractors : nat;
}.

(** [results?.nbHits || 0], for [results] given as its hit count when
    it is there. *)
Definition totalHitsOf (results : option Z) : Z :=
  match results with
  | Some nbHits => nbHits
  | None => 0
  end.

(** ** DashboardStatistics *)

Definition defaultStats : Stats :=
  {| totalProjects := 9855;
     totalCost := ofZ 547603497105;
     uniqueContractors := 2409 |}.

Definition statsIsFiltered (totalHits : Z) : bool :=
  negb (totalHits =? 0) && negb (totalHits =? totalProjects defaultStats).

Definition DashboardStatistics (results : option Z)
    (hits : list FloodControlHit) : Stats :=
  let totalHits := totalHitsOf results in
  if statsIsFiltered totalHits then
    {| totalProjects := totalHits;
       totalCost :=
         fold_left (λ sum hit, numAdd sum (orZero (Number (ContractCost hit))))
                   hits (ofZ 0);
       uniqueContractors :=
         setSize (filter (λ c, truthy c = true) (map Contractor hits)) |}
  else defaultStats.

(** ** Charts *)

(** The test the four chart components share. *)
Definition isFiltered (totalHits : Z) : bool :=
  negb (totalHits =? 0) && negb (totalHits =? 9855).

(** [frequency[key] = (frequency[key] || 0) + 1] *)
Definition increment (frequency : Dict nat) (key : string) : Dict nat :=
  dictSet key (default 0%nat (dictGet key frequency) + 1)%nat frequency.

(** The counting pass of the region, type-of-work and contractor
    charts: [if (v && v.trim() !== '') frequency[v] = ...]. *)
Definition countNonBlank (field : FloodControlHit → option string)
    (typedHits : list FloodControlHit) : Dict nat :=
  fold_left
    (λ frequency hit,
       match field hit with
       | Some v =>
           if nonEmpty v && nonEmpty (trim v) then increment frequency v
           else frequency
       | None => frequency
       end)
    typedHits [].

(** The counting pass of the year chart: [if (year) frequency[year] = ...]. *)
Definition countTruthy (field : FloodControlHit → option string)
    (typedHits : list FloodControlHit) : Dict nat :=
  fold_left
    (λ frequency hit,
       match field hit with
       | Some v => if nonEmpty v then increment frequency v else frequency
       | None => frequency
       end)
    typedHits [].

(** [fullName.length > 30 ? fullName.substring(0, 30) + '...' : fullName] *)
Definition shortName (fullName : string) : string :=
  if (30 <? String.length fullName)%nat
  then String.substring 0 30 fullName +:+ "..."
  else fullName.

Section Charts.
(** The lookup files and the collation of the browser are not part of
    the sources; the charts take them as given. *)
Variable localeCompare : string → string → JSNum.
Variables infraYearData regionData typeOfWorkData contractorData : list DataItem.

Definition YearlyChart (results : option Z) (hits : list FloodControlHit)
    : list Bar.t :=
  let totalHits := totalHitsOf results in
  if isFiltered totalHits then
    let yearFrequency := countTruthy InfraYear hits in
    sort (λ a b, localeCompare (Bar.name a) (Bar.name b))
      (map (λ '(name, Projects), {| Bar.name := name; Bar.Projects := Projects |})
           (entries yearFrequency))
  else
    map (λ item, {| Bar.name := value item; Bar.Projects := count item |})
      (sort (λ a b, localeCompare (value a) (value b)) infraYearData).

Definition RegionChart (results : option Z) (hits : list FloodControlHit)
    : list Bar.t :=
  let totalHits := totalHitsOf results in
  if isFiltered totalHits then
    let regionFrequency := countNonBlank Region hits in
    slice 0 10
      (sort (λ a b, numSub (ofNat (Bar.Projects b)) (ofNat (Bar.Projects a)))
         (map (λ '(name, Projects), {| Bar.name := name; Bar.Projects := Projects |})
              (entries regionFrequency)))
  else
    map (λ item, {| Bar.name := value item; Bar.Projects := count item |})
      (slice 0 10
         (sort (λ a b, numSub (ofNat (count b)) (ofNat (count a))) regionData)).

Definition TypeOfWorkChart (results : option Z) (hits : list FloodControlHit)
    : list DataItem :=
  let totalHits := totalHitsOf results in
  if isFiltered totalHits then
    let typeFrequency := countNonBlank TypeofWork hits in
    slice 0 10
      (sort (λ a b, numSub (ofNat (count b)) (ofNat (count a)))
         (map (λ '(value, count), {| value := value; count := count |})
              (entries typeFrequency)))
  else
    slice 0 10
      (sort (λ a b, numSub (ofNat (count b)) (ofNat (count a))) typeOfWorkData).

Definition ContractorChart (results : option Z) (hits : list FloodControlHit)
    : list ContractorBar.t :=
  let totalHits := totalHitsOf results in
  if isFiltered totalHits then
    let contractorFrequency := countNonBlank Contractor hits in
    slice 0 10
      (sort (λ a b, numSub (ofNat (ContractorBar.Projects b))
                           (ofNat (ContractorBar.Projects a)))
         (map (λ '(fullName, Projects),
                 {| ContractorBar.name := shortName fullName;
                    ContractorBar.Projects := Projects;
                    ContractorBar.fullName := fullName |})
              (entries contractorFrequency)))
  else
    map (λ item, {| ContractorBar.name := shortName (value item);
                    ContractorBar.Projects := count item;
                    ContractorBar.fullName := value item |})
      (slice 0 10
         (sort (λ a b, numSub (ofNat (count b)) (ofNat (count a))) contractorData)).
End Charts.

(** ** FloodControlProjects: page state *)

Record PageState : Type := {
  filters : FilterState;
  searchTerm : string;
  filtersApplied : bool;
}.

Definition initialState : PageState :=
  {| filters := initialFilters; searchTerm := EmptyString; filtersApplied := false |}.

Definition checkIfFiltersApplied (filters : FilterState) (searchTerm : string)
    : bool :=
  if nonEmpty searchTerm && nonEmpty (trim searchTerm) then true
  else existsb (λ value, nonEmpty value && nonEmpty (trim value))
               (map snd (map_to_list filters)).

Definition handleFilterChange (filterName value : string) (st : PageState)
    : PageState :=
  let newFilters := <[filterName := value]> (filters st) in
  let newFilters :=
    if String.eqb filterName "Region"
    then <["Province" := ""]> newFilters
    else newFilters in
  {| filters := newFilters;
     searchTerm := searchTerm st;
     filtersApplied := checkIfFiltersApplied newFilters (searchTerm st) |}.

Definition handleSearchChange (value : string) (st : PageState) : PageState :=
  {| filters := filters st;
     searchTerm := value;
     filtersApplied := checkIfFiltersApplied (filters st) value |}.

Inductive Event : Type :=
| FilterChange (filterName value : string)
| SearchChange (value : string).

Definition step (st : PageState) (e : Event) : PageState :=
  match e with
  | FilterChange filterName value => handleFilterChange filterName value st
  | SearchChange value => handleSearchChange value st
  end.

(** The page after a sequence of user interactions. *)
Definition run (events : list Event) : PageState := fold_left step events initialState.

(** The statistics panel of the page: the live component is mounted
    only while [filtersApplied] holds; otherwise the markup shows the
    literal figures 9,855, 547,603,497,105 and 2,409. *)
Definition statisticsPanel (st : PageState) (results : option Z)
    (hits : list FloodControlHit) : Stats :=
  if filtersApplied st then DashboardStatistics results hits
  else {| totalProjects := 9855;
          totalCost := ofZ 547603497105;
          uniqueContractors := 2409 |}.

Definition getEffectiveSearchTerm (searchTerm : string) : string := searchTerm.

(** ** Export *)

Section ExportHandler.
(** [buildFilterString] of ./utils and the translation function [t]
    are not part of the sources. *)
Variable buildFilterString : FilterState → string.
Variable t : string → string.

Definition handleExportData {Row : Type}
    (facade : ExportPipeline.QueryFacade Row) (st : PageState)
    : ExportPipeline.Eff Row unit :=
  ExportPipeline.bind (ExportPipeline.setIsExporting true) (λ _,
    let filterString := buildFilterString (filters st) in
    let effectiveSearchTerm := getEffectiveSearchTerm (searchTerm st) in
    ExportPipeline.tryCatchFinally
      (ExportPipeline.bind
         (ExportPipeline.exportMeilisearchData facade filterString
            effectiveSearchTerm "flood-control-projects-visual")
         (λ _, ExportPipeline.alert (t "alerts.exportSuccess")))
      (λ error,
         ExportPipeline.bind
           (ExportPipeline.consoleError ("Error exporting data: " +:+ error))
           (λ _, ExportPipeline.alert (t "alerts.exportError")))
      (ExportPipeline.setIsExporting false)).
End ExportHandler.

(** ** Dropdowns and tooltips *)

(** [handleDropdownToggle]: the dropdown that is open, if any. *)
Definition handleDropdownToggle (openDropdown : option string)
    (dropdownName : string) : option string :=
  if bool_decide (openDropdown = Some dropdownName) then None
  else Some dropdownName.

(** [labelFormatter] of the contractor chart: the full name shown in the
    tooltip of the bar with the given label. *)
Definition labelFormatter (chartData : list ContractorBar.t) (label : string)
    : string :=
  match arrayFind (λ item, String.eqb (ContractorBar.name item) label) chartData with
  | Some item => ContractorBar.fullName item
  | None => label
  end.

End Dashboard.

(* ===================================================================== *)
(** * The specification's vocabulary *)
(* ===================================================================== *)

Module Spec.
Import JS.

(** ** Filter predicate and filter state *)

(** The six facets, in the order the predicate lists them. *)
Definition facets : list string :=
  ["InfraYear"; "Region"; "Province"; "TypeofWork";
   "DistrictEngineeringOffice"; "LegislativeDistrict"].

(** A facet is set when it holds a value that is not blank, which is how
    the pages test it ([value && value.trim()]); the unset value is the
    empty string. *)
Definition facetIsSet (filters : FilterState) (facet : string) : bool :=
  match filters !! facet with
  | Some v => nonEmpty (trim v)
  | None => false
  end.

(** The value a set facet contributes to the predicate. *)
Definition facetValue (filters : FilterState) (facet : string) : string :=
  trim (default EmptyString (filters !! facet)).

(** The fixed record-type clause. *)
Definition typeClause : string :=
  "type = " +:+ dquote +:+ "flood_control" +:+ dquote.

(** [field = "value"] for the string facets; [FundingYear = value],
    without quotes, for the numeric year facet. *)
Definition equalityClause (facet v : string) : string :=
  if String.eqb facet "InfraYear" then "FundingYear = " +:+ v
  else facet +:+ " = " +:+ dquote +:+ v +:+ dquote.

(** One equality clause per set facet. *)
Definition facetClauses (filters : FilterState) : list string :=
  map (λ facet, equalityClause facet (facetValue filters facet))
      (filter (λ facet, facetIsSet filters facet = true) facets).

(** The predicate as the specification words it. *)
Definition predicate (filters : FilterState) : string :=
  join " AND " (typeClause :: facetClauses filters).

(** The facets with the text their badge in the heading starts with. *)
Definition badgeLabels : list (string * string) :=
  [("InfraYear", "Year: "); ("Region", "Region: "); ("Province", "Province: ");
   ("TypeofWork", "Type of Work: ");
   ("DistrictEngineeringOffice", "District Engineering Office: ");
   ("LegislativeDistrict", "Legislative District: ")].

(** The badge of a facet: its label and the value as it is stored. *)
Definition badgeOf (filters : FilterState) (badge : string * string) : string :=
  badge.2 +:+ default EmptyString (filters !! badge.1).

(** The badges of the heading: the search term in double quotes when it
    is not empty, then the badge of every facet that is not the empty
    string, in the order of the sidebar. *)
Definition badges (filters : FilterState) (searchTerm : string) : list string :=
  (if nonEmpty searchTerm
   then ["Search: " +:+ dquote +:+ searchTerm +:+ dquote] else [])
  ++ map (badgeOf filters)
         (filter (λ badge, truthy (filters !! badge.1) = true) badgeLabels).

(** A sequence of [set(facet, value)] operations on the table page. *)
Definition tableUpdates (updates : list (string * string))
    (filters : FilterState) : FilterState :=
  fold_left (λ fs u, Table.handleFilterChange fs u.1 u.2) updates filters.

(** No filter is active: empty search string and every facet unset. *)
Definition noFilterActive (st : Dashboard.PageState) : Prop :=
  Dashboard.searchTerm st = EmptyString
  ∧ ∀ facet v, Dashboard.filters st !! facet = Some v → v = EmptyString.

(** ** Snapshot, pages and samples *)

(** The static snapshot of the summary statistics. *)
Definition snapshot : Dashboard.Stats :=
  {| Dashboard.totalProjects := 9855;
     Dashboard.totalCost := ofZ 547603497105;
     Dashboard.uniqueContractors := 2409 |}.

(** The pre-computed series of the year chart: the lookup entries in the
    order of the browser's collation. *)
Definition yearSnapshot (localeCompare : string → string → JSNum)
    (infraYearData : list Dashboard.DataItem) : list Dashboard.Bar.t :=
  map (λ item, {| Dashboard.Bar.name := Dashboard.value item;
                  Dashboard.Bar.Projects := Dashboard.count item |})
      (sort (λ a b, localeCompare (Dashboard.value a) (Dashboard.value b))
            infraYearData).

(** The ten most frequent entries of a lookup table. *)
Definition topTenSnapshot (data : list Dashboard.DataItem)
    : list Dashboard.DataItem :=
  slice 0 10
    (sort (λ a b, numSub (ofNat (Dashboard.count b)) (ofNat (Dashboard.count a)))
          data).

(** The summary statistics computed from a query: the count the query
    reports, the sum of the contract costs of the retrieved hits, a cost
    that is not a number counting as 0, and the number of distinct
    contractor values that are not empty. *)
Definition liveStats (totalHits : Z) (hits : list FloodControlHit)
    : Dashboard.Stats :=
  {| Dashboard.totalProjects := totalHits;
     Dashboard.totalCost :=
       fold_left (λ sum hit, numAdd sum (orZero (Number (ContractCost hit))))
                 hits (ofZ 0);
     Dashboard.uniqueContractors :=
       setSize (filter (λ c, truthy c = true) (map Contractor hits)) |}.

(** The series of the year chart computed from the hits: one bar per
    year with its frequency, in the order of the browser's collation,
    not truncated. *)
Definition yearLive (localeCompare : string → string → JSNum)
    (hits : list FloodControlHit) : list Dashboard.Bar.t :=
  sort (λ a b, localeCompare (Dashboard.Bar.name a) (Dashboard.Bar.name b))
    (map (λ e, {| Dashboard.Bar.name := e.1; Dashboard.Bar.Projects := e.2 |})
         (entries (Dashboard.countTruthy InfraYear hits))).

(** The top-10 aggregation computed from the hits: the frequency of
    every non-blank value of the facet, as the entries [item value count]
    of a chart, sorted by descending count, cut to ten. *)
Definition topTenLive {B : Type} (item : string → nat → B) (cnt : B → nat)
    (field : FloodControlHit → option string) (hits : list FloodControlHit)
    : list B :=
  slice 0 10
    (sort (λ a b, numSub (ofNat (cnt b)) (ofNat (cnt a)))
       (map (λ e, item e.1 e.2) (entries (Dashboard.countNonBlank field hits)))).

(** [sorted[i : j]] in the specification's slice notation. *)
Definition sliceOf {A : Type} (i j : nat) (sorted : list A) : list A :=
  take (j - i) (drop i sorted).

Definition hitWithContractor (c : string) : FloodControlHit :=
  {| GlobalID := None; objectID := None; ProjectDescription := None;
     InfraYear := None; Region := None; Province := None;
     Municipality := None; TypeofWork := None;
     Contractor := Some c; ContractCost := None |}.

(** The sample ["A", "", " ", "B", "A"] of contractor values. *)
Definition contractorSample : list FloodControlHit :=
  map hitWithContractor ["A"; EmptyString; " "; "B"; "A"].

(** ** Costs and sort keys *)

(** [a === b] on numbers: NaN equals nothing. *)
Definition numEq (a b : JSNum) : bool :=
  match a, b with
  | Inf s, Inf t => Bool.eqb s t
  | Fin p, Fin q => Qeq_bool p q
  | _, _ => false
  end.

(** [a > b] on numbers; false as soon as one side is NaN. *)
Definition numGt (a b : JSNum) : Prop :=
  match a, b with
  | NaN, _ | _, NaN => False
  | Inf s, Inf t => s = false ∧ t = true
  | Inf s, Fin _ => s = false
  | Fin _, Inf t => t = true
  | Fin p, Fin q => (q < p)%Q
  end.

(** The cost the table sorts a record by. *)
Definition costOf (hit : FloodControlHit) : JSNum :=
  parseFloat (orElse (ContractCost hit) "0").

(** The cost of the specification: an unparsable cost counts as zero. *)
Definition costOrZero (hit : FloodControlHit) : JSNum :=
  if isNaN (costOf hit) then ofZ 0 else costOf hit.

(** The cost comparator of the specification. *)
Definition compareCostOrZero (sortDirection : Table.SortDirection)
    (a b : FloodControlHit) : JSNum :=
  match sortDirection with
  | Table.asc => numSub (costOrZero a) (costOrZero b)
  | Table.desc => numSub (costOrZero b) (costOrZero a)
  end.

(** The text the table sorts a record by, for the other fields. *)
Definition textKey (field : string) (hit : FloodControlHit) : string :=
  orElse (toLowerCase <$> getField field hit) EmptyString.

(** No two records of the batch have the same cost. *)
Definition distinctCosts (hits : list FloodControlHit) : Prop :=
  ∀ (i j : nat) (a b : FloodControlHit),
    (i < j)%nat → hits !! i = Some a → hits !! j = Some b →
    numEq (costOf a) (costOf b) = false.

(** Every cost of the batch parses as a number. *)
Definition parsableCosts (hits : list FloodControlHit) : Prop :=
  ∀ hit, hit ∈ hits → isNaN (costOf hit) = false.

(** The table sorted by cost, ascending. *)
Definition byCostAscending : Table.TableState :=
  Table.handleSort "ContractCost" Table.initialState.

Definition hitWithCost (id cost : string) : FloodControlHit :=
  {| GlobalID := Some id; objectID := None; ProjectDescription := None;
     InfraYear := None; Region := None; Province := None;
     Municipality := None; TypeofWork := None;
     Contractor := None; ContractCost := Some cost |}.

(** ** Export *)

(** What a failed or a completed run of page retrievals leaves of the
    world: only the request counter moves. *)
Definition sameButRequests {Row : Type} (w w' : ExportPipeline.World Row)
    : Prop :=
  ExportPipeline.isExporting w' = ExportPipeline.isExporting w
  ∧ ExportPipeline.alerts w' = ExportPipeline.alerts w
  ∧ ExportPipeline.console w' = ExportPipeline.console w
  ∧ ExportPipeline.downloads w' = ExportPipeline.downloads w.

(** The shape both page handlers share. *)
Definition exportHandler {Row : Type} (facade : ExportPipeline.QueryFacade Row)
    (filterString term filename success failure : string)
    : ExportPipeline.Eff Row unit :=
  ExportPipeline.bind (ExportPipeline.setIsExporting true) (λ _,
    ExportPipeline.tryCatchFinally
      (ExportPipeline.bind
         (ExportPipeline.exportMeilisearchData facade filterString term filename)
         (λ _, ExportPipeline.alert success))
      (λ error,
         ExportPipeline.bind
           (ExportPipeline.consoleError ("Error exporting data: " +:+ error))
           (λ _, ExportPipeline.alert failure))
      (ExportPipeline.setIsExporting false)).

(** ** Pagination and sorting *)

(** What every reachable page index satisfies. *)
Definition pageInRange (length : nat) (p : Z) : Prop :=
  0 ≤ p ∧ (p = 0 ∨ p < Table.totalPages length).

(** Two elements one of which sorts after the other. *)
Definition comparable {A : Type} (comparefn : A → A → JSNum) (a b : A) : Prop :=
  sortsAfter comparefn a b = true ∨ sortsAfter comparefn b a = true.

(** The first page of the window of numbered buttons: two pages before
    the current page, kept within the pages there are. *)
Definition windowStart (totalPages currentPage : Z) : Z :=
  if totalPages <=? 5 then 0
  else Z.max 0 (Z.min (currentPage - 2) (totalPages - 5)).

(** No two records of the batch have the same text in the field, letter
    case apart. *)
Definition distinctKeys (field : string) (hits : list FloodControlHit) : Prop :=
  NoDup (map (textKey field) hits).

(** ** Frequencies *)

(** The non-blank values of a facet across a sample, with repetitions. *)
Definition facetValues (field : FloodControlHit → option string)
    (hits : list FloodControlHit) : list string :=
  omap (λ hit, match field hit with
               | Some v => if nonEmpty (trim v) then Some v else None
               | None => None
               end) hits.

(** The values of a facet across a sample that are not the empty string,
    with repetitions. *)
Definition truthyValues (field : FloodControlHit → option string)
    (hits : list FloodControlHit) : list string :=
  omap (λ hit, match field hit with
               | Some v => if nonEmpty v then Some v else None
               | None => None
               end) hits.

(** The contractor names of a sample that are not blank. *)
Definition nonBlankContractors (hits : list FloodControlHit) : list string :=
  facetValues Contractor hits.

(** How often a value occurs in a list of values. *)
Definition occurrences (v : string) (values : list string) : nat :=
  length (filter (λ w, w = v) values).

(** The frequency of a facet value in a sample. *)
Definition frequency (field : FloodControlHit → option string)
    (hits : list FloodControlHit) (v : string) : nat :=
  occurrences v (facetValues field hits).

(** The facet values of the sample have pairwise distinct frequencies. *)
Definition distinctFrequencies (field : FloodControlHit → option string)
    (hits : list FloodControlHit) : Prop :=
  ∀ v w, v ∈ facetValues field hits → w ∈ facetValues field hits →
         v ≠ w → frequency field hits v ≠ frequency field hits w.

(** What a chart shows of the live aggregation: the facet values with
    their frequencies, most frequent first, at most ten of them. *)
Definition topTenOf {B : Type} (key : B → string) (cnt : B → nat)
    (field : FloodControlHit → option string) (hits : list FloodControlHit)
    (chart : list B) : Prop :=
  length chart = Nat.min 10 (length (remove_dups (facetValues field hits)))
  ∧ StronglySorted (λ a b, (cnt b < cnt a)%nat) chart
  ∧ Forall (λ x, key x ∈ facetValues field hits
                 ∧ cnt x = frequency field hits (key x)) chart.

(** The same without a condition on the frequencies: the chart has one
    entry for each of at most ten distinct values, each with its
    frequency, in an order in which the counts never increase, and no
    value that is left out is more frequent than one that is shown. *)
Definition mostFrequentOf {B : Type} (key : B → string) (cnt : B → nat)
    (field : FloodControlHit → option string) (hits : list FloodControlHit)
    (chart : list B) : Prop :=
  length chart = Nat.min 10 (length (remove_dups (facetValues field hits)))
  ∧ NoDup (map key chart)
  ∧ Forall (λ x, key x ∈ facetValues field hits
                 ∧ cnt x = frequency field hits (key x)) chart
  ∧ StronglySorted (λ a b, (cnt b ≤ cnt a)%nat) chart
  ∧ ∀ v, v ∈ facetValues field hits → v ∉ map key chart →
         Forall (λ x, (frequency field hits v ≤ cnt x)%nat) chart.

(** What a chart shows of a lookup table: at most ten of its entries,
    in an order in which the counts never increase, and no entry that is
    left out has a greater count than one that is shown. *)
Definition greatestOf {B : Type} (key : B → string) (cnt : B → nat)
    (data : list Dashboard.DataItem) (chart : list B) : Prop :=
  length chart = Nat.min 10 (length data)
  ∧ map (λ x, (key x, cnt x)) chart
    ⊆+ map (λ item, (Dashboard.value item, Dashboard.count item)) data
  ∧ StronglySorted (λ a b, (cnt b ≤ cnt a)%nat) chart
  ∧ ∀ item, item ∈ data →
      (Dashboard.value item, Dashboard.count item) ∉ map (λ x, (key x, cnt x)) chart →
      Forall (λ x, (Dashboard.count item ≤ cnt x)%nat) chart.

Definition hitInRegion (region : string) : FloodControlHit :=
  {| GlobalID := None; objectID := None; ProjectDescription := None;
     InfraYear := None; Region := Some region; Province := None;
     Municipality := None; TypeofWork := None;
     Contractor := None; ContractCost := None |}.

(** Eleven regions, the n-th of them seen n times. *)
Definition elevenRegions : list FloodControlHit :=
  flat_map (λ '(n, region), replicate n (hitInRegion region))
    [(1%nat, "Region I"); (2%nat, "Region II"); (3%nat, "Region III");
     (4%nat, "Region IV"); (5%nat, "Region V"); (6%nat, "Region VI");
     (7%nat, "Region VII"); (8%nat, "Region VIII"); (9%nat, "Region IX");
     (10%nat, "Region X"); (11%nat, "Region XI")].

(** What the counting pass has in the dictionary after the values seen so
    far: each value once, with the number of its occurrences. *)
Definition counted (frequency : Dict nat) (seen : list string) : Prop :=
  NoDup (map fst frequency)
  ∧ ∀ k, dictGet k frequency
         = if decide (k ∈ seen) then Some (occurrences k seen) else None.

End Spec.

(** Case analysis on every conditional of the goal. *)
Ltac case_conditionals :=
  repeat match goal with
         | |- context [if ?b then _ else _] => destruct b eqn:?
         end.

(* ===================================================================== *)
(** * Filter state *)
(* ===================================================================== *)

Section FilterState.
Import JS.

Lemma nonEmpty_trim_guard (s : string) :
  nonEmpty s && nonEmpty (trim s) = nonEmpty (trim s).
Proof. destruct s; reflexivity. Qed.

Lemma pushIfSet_spec (filters : FilterState) (facet : string)
    (clause : string → string) (filterStrings : list string) :
  Table.pushIfSet filterStrings (filters !! facet) clause
  = filterStrings
      ++ (if Spec.facetIsSet filters facet
          then [clause (Spec.facetValue filters facet)] else []).
Proof.
  unfold Table.pushIfSet, Spec.facetIsSet, Spec.facetValue.
  destruct (filters !! facet) as [v|]; simpl.
  - rewrite nonEmpty_trim_guard.
    destruct (nonEmpty (trim v)); [reflexivity | by rewrite app_nil_r].
  - by rewrite app_nil_r.
Qed.

(** C1. For every filter state, [buildFilterString] is the conjunction
    the specification describes: the fixed record-type clause followed
    by exactly one equality clause for each set facet and none for an
    unset one, joined with AND, the value of a string facet in double
    quotes and the value of the numeric year facet without them. *)
Theorem buildFilterString_predicate (filters : FilterState) :
  Table.buildFilterString filters = Spec.predicate filters
  ∧ length (Spec.facetClauses filters)
    = length (filter (λ facet, Spec.facetIsSet filters facet = true) Spec.facets).
Proof.
  split; [| apply length_map].
  unfold Table.buildFilterString, Spec.predicate, Spec.facetClauses.
  rewrite !pushIfSet_spec. unfold Table.push, Spec.facets.
  cbn [filter list_filter].
  repeat match goal with
         | |- context [Spec.facetIsSet filters ?f] =>
             destruct (Spec.facetIsSet filters f)
         end; reflexivity.
Qed.

(** When the values carry no surrounding white space, as the values of
    the lookup tables, a facet is set exactly when it is not the empty
    string, and its clause holds the value as it is. *)
Lemma facetIsSet_clean_value (filters : FilterState) (facet v : string) :
  filters !! facet = Some v → trim v = v →
  Spec.facetIsSet filters facet = nonEmpty v
  ∧ Spec.facetValue filters facet = v.
Proof.
  intros Hv Htrim. unfold Spec.facetIsSet, Spec.facetValue.
  rewrite Hv. simpl. by rewrite Htrim.
Qed.

(** The predicate for year 2023 in the National Capital Region. *)
Lemma buildFilterString_example :
  Table.buildFilterString
    (Table.handleFilterChange
       (Table.handleFilterChange initialFilters "Region" "National Capital Region")
       "InfraYear" "2023")
  = "type = " +:+ dquote +:+ "flood_control" +:+ dquote
    +:+ " AND FundingYear = 2023 AND Region = "
    +:+ dquote +:+ "National Capital Region" +:+ dquote.
Proof. vm_compute. reflexivity. Qed.

Lemma table_handleFilterChange_region (filters : FilterState) (R : string) :
  Table.handleFilterChange filters "Region" R !! "Province" = Some EmptyString
  ∧ Table.handleFilterChange filters "Region" R !! "Region" = Some R.
Proof.
  unfold Table.handleFilterChange. simpl. split.
  - apply lookup_insert_eq.
  - rewrite lookup_insert_ne by done. apply lookup_insert_eq.
Qed.

Lemma table_handleFilterChange_other (filters : FilterState)
    (facet value other : string) :
  facet ≠ "Region" →
  Table.handleFilterChange filters facet value !! facet = Some value
  ∧ (other ≠ facet →
     Table.handleFilterChange filters facet value !! other = filters !! other).
Proof.
  intros Hne. unfold Table.handleFilterChange.
  destruct (String.eqb_spec facet "Region") as [->|_]; [done|].
  split; [apply lookup_insert_eq|].
  intros Hother. by rewrite lookup_insert_ne.
Qed.

Lemma dashboard_handleFilterChange_region (st : Dashboard.PageState) (R : string) :
  Dashboard.filters (Dashboard.handleFilterChange "Region" R st) !! "Province"
    = Some EmptyString
  ∧ Dashboard.filters (Dashboard.handleFilterChange "Region" R st) !! "Region"
    = Some R.
Proof.
  unfold Dashboard.handleFilterChange. simpl. split.
  - apply lookup_insert_eq.
  - rewrite lookup_insert_ne by done. apply lookup_insert_eq.
Qed.

Lemma dashboard_handleFilterChange_other (st : Dashboard.PageState)
    (facet value other : string) :
  facet ≠ "Region" →
  Dashboard.filters (Dashboard.handleFilterChange facet value st) !! facet
    = Some value
  ∧ (other ≠ facet →
     Dashboard.filters (Dashboard.handleFilterChange facet value st) !! other
     = Dashboard.filters st !! other).
Proof.
  intros Hne. unfold Dashboard.handleFilterChange.
  destruct (String.eqb_spec facet "Region") as [->|_]; [done|]. simpl.
  split; [apply lookup_insert_eq|].
  intros Hother. by rewrite lookup_insert_ne.
Qed.

(** C2. On both pages, after any sequence of filter-state updates,
    setting the Region facet to any value leaves the Province facet
    unset whatever it held before; setting any other facet stores the
    value and leaves every remaining facet unchanged. *)
Theorem region_change_resets_province :
  (∀ (updates : list (string * string)) (start : FilterState) (R : string),
      Spec.tableUpdates (updates ++ [("Region", R)]) start !! "Province"
      = Some EmptyString)
  ∧ (∀ (events : list Dashboard.Event) (R : string),
      Dashboard.filters
        (Dashboard.run (events ++ [Dashboard.FilterChange "Region" R]))
        !! "Province" = Some EmptyString)
  ∧ (∀ (filters : FilterState) (facet value other : string),
      facet ≠ "Region" → other ≠ facet →
      Table.handleFilterChange filters facet value !! facet = Some value
      ∧ Table.handleFilterChange filters facet value !! other = filters !! other)
  ∧ (∀ (st : Dashboard.PageState) (facet value other : string),
      facet ≠ "Region" → other ≠ facet →
      Dashboard.filters (Dashboard.handleFilterChange facet value st) !! facet
      = Some value
      ∧ Dashboard.filters (Dashboard.handleFilterChange facet value st) !! other
        = Dashboard.filters st !! other).
Proof.
  repeat split.
  - intros updates start R. unfold Spec.tableUpdates.
    rewrite fold_left_app. simpl. apply table_handleFilterChange_region.
  - intros events R. unfold Dashboard.run.
    rewrite fold_left_app. simpl. apply dashboard_handleFilterChange_region.
  - by apply table_handleFilterChange_other.
  - by apply table_handleFilterChange_other.
  - by apply dashboard_handleFilterChange_other.
  - by apply dashboard_handleFilterChange_other.
Qed.

(** The rule at work: Province is Cebu, then Region is set; and a
    TypeofWork update that leaves Region alone. *)
Lemma region_change_resets_province_witness :
  Spec.tableUpdates ([("Province", "Cebu")] ++ [("Region", "Region VII")])
                    initialFilters !! "Province" = Some EmptyString
  ∧ Table.handleFilterChange initialFilters "TypeofWork" "Dredging" !! "Region"
    = initialFilters !! "Region".
Proof.
  split.
  - apply (proj1 region_change_resets_province).
  - apply (proj1 (proj2 (proj2 region_change_resets_province))); done.
Defined.
End FilterState.

(* ===================================================================== *)
(** * Export *)
(* ===================================================================== *)

Section ExportProps.
Import ExportPipeline Spec.
Context {Row : Type}.

Lemma fetchAll_fails (pages : list (option (list Row))) :
  None ∈ pages →
  ∀ (acc : list Row) (w : World Row),
    ∃ w' error, fetchAll pages acc w = (w', Thrown error) ∧ sameButRequests w w'.
Proof.
  induction pages as [|page rest IH]; intros Hin acc w.
  - by apply not_elem_of_nil in Hin.
  - destruct page as [hits|].
    + assert (None ∈ rest) as Hrest.
      { apply elem_of_cons in Hin as [Heq|?]; [discriminate | done]. }
      simpl. unfold bind, fetchPage.
      destruct (IH Hrest (acc ++ hits)
                  {| isExporting := isExporting w; alerts := alerts w;
                     console := console w; downloads := downloads w;
                     requests := S (requests w) |})
        as (w' & error & Heq & Hsame).
      exists w', error. split; [exact Heq | exact Hsame].
    + simpl. unfold bind, fetchPage. eexists _, _. split; [reflexivity|].
      repeat split.
Qed.

Lemma fetchAll_succeeds (pages : list (list Row)) :
  ∀ (acc : list Row) (w : World Row),
    ∃ w', fetchAll (map Some pages) acc w = (w', Returned (acc ++ concat pages))
          ∧ sameButRequests w w'
          ∧ requests w' = (requests w + length pages)%nat.
Proof.
  induction pages as [|hits rest IH]; intros acc w.
  - exists w. simpl. rewrite app_nil_r. repeat split. lia.
  - simpl. unfold bind, fetchPage.
    destruct (IH (acc ++ hits)
                {| isExporting := isExporting w; alerts := alerts w;
                   console := console w; downloads := downloads w;
                   requests := S (requests w) |})
      as (w' & Heq & Hsame & Hreq).
    exists w'. rewrite Heq, <- app_assoc. simpl in Hreq.
    repeat split; try apply Hsame. lia.
Qed.

Lemma exportHandler_flag_reset (facade : QueryFacade Row)
    (filterString term filename success failure : string) (w : World Row) :
  isExporting (exportHandler facade filterString term filename success failure w).1
  = false.
Proof.
  unfold exportHandler, bind, tryCatchFinally, setIsExporting. simpl.
  repeat match goal with
         | |- context [match ?x with _ => _ end] => destruct x; simpl
         end; reflexivity.
Qed.

Lemma exportHandler_failure (facade : QueryFacade Row)
    (filterString term filename success failure : string) (w : World Row) :
  None ∈ facade filterString term →
  downloads (exportHandler facade filterString term filename success failure w).1
    = downloads w
  ∧ alerts (exportHandler facade filterString term filename success failure w).1
    = alerts w ++ [failure].
Proof.
  intros Hfail.
  unfold exportHandler, bind, tryCatchFinally, setIsExporting,
    exportMeilisearchData, bind. simpl.
  destruct (fetchAll_fails _ Hfail []
              {| isExporting := true; alerts := alerts w; console := console w;
                 downloads := downloads w; requests := requests w |})
    as (w' & error & -> & (_ & Ha & _ & Hd)).
  simpl in *. by rewrite Ha, Hd.
Qed.

Lemma exportHandler_success (facade : QueryFacade Row)
    (filterString term filename success failure : string) (w : World Row)
    (pages : list (list Row)) :
  facade filterString term = map Some pages →
  downloads (exportHandler facade filterString term filename success failure w).1
    = downloads w ++ [(filename, concat pages)]
  ∧ alerts (exportHandler facade filterString term filename success failure w).1
    = alerts w ++ [success].
Proof.
  intros Hpages.
  unfold exportHandler, bind, tryCatchFinally, setIsExporting,
    exportMeilisearchData, bind. simpl. rewrite Hpages.
  destruct (fetchAll_succeeds pages []
              {| isExporting := true; alerts := alerts w; console := console w;
                 downloads := downloads w; requests := requests w |})
    as (w' & -> & (_ & Ha & _ & Hd) & _).
  simpl in *. by rewrite Ha, Hd.
Qed.

(** A completed export hands the browser one file with every record of
    every page, in order, and shows the success notice. *)
Lemma table_export_success (facade : QueryFacade Row) (filters : FilterState)
    (term : string) (w : World Row) (pages : list (list Row)) :
  facade (Table.buildFilterString filters) term = map Some pages →
  downloads (Table.handleExportData facade filters term w).1
    = downloads w ++ [("flood-control-projects-table", concat pages)]
  ∧ alerts (Table.handleExportData facade filters term w).1
    = alerts w ++ ["Data exported successfully!"].
Proof. apply exportHandler_success. Qed.

(** C3. On both pages, for every export invocation in which some page
    retrieval fails, no file is produced (what was retrieved is
    discarded) and exactly one notice, the failure notice, is shown; and
    in every execution the exporting flag is false once the handler has
    run. *)
Theorem export_aborts_on_failure_and_resets_flag
    (facade : QueryFacade Row) (filters : FilterState) (term : string)
    (buildFilterString : FilterState → string) (t : string → string)
    (st : Dashboard.PageState) (w : World Row) :
  (isExporting (Table.handleExportData facade filters term w).1 = false
   ∧ isExporting
       (Dashboard.handleExportData buildFilterString t facade st w).1 = false)
  ∧ (None ∈ facade (Table.buildFilterString filters) term →
     downloads (Table.handleExportData facade filters term w).1 = downloads w
     ∧ alerts (Table.handleExportData facade filters term w).1
       = alerts w ++ ["Failed to export data. Please try again."])
  ∧ (None ∈ facade (buildFilterString (Dashboard.filters st))
                   (Dashboard.searchTerm st) →
     downloads (Dashboard.handleExportData buildFilterString t facade st w).1
       = downloads w
     ∧ alerts (Dashboard.handleExportData buildFilterString t facade st w).1
       = alerts w ++ [t "alerts.exportError"]).
Proof.
  split; [split; apply exportHandler_flag_reset|].
  split; apply exportHandler_failure.
Qed.
End ExportProps.

(** The scenario of the specification: the first page arrives, the
    retrieval of the second page fails. *)
Lemma export_aborts_on_failure_and_resets_flag_witness :
  let facade : ExportPipeline.QueryFacade nat := λ _ _, [Some [1; 2; 3]%nat; None] in
  let w := {| ExportPipeline.isExporting := false; ExportPipeline.alerts := [];
              ExportPipeline.console := []; ExportPipeline.downloads := [];
              ExportPipeline.requests := 0 |} in
  ExportPipeline.downloads (Table.handleExportData facade initialFilters "dike" w).1 = []
  ∧ ExportPipeline.alerts (Table.handleExportData facade initialFilters "dike" w).1
    = ["Failed to export data. Please try again."]
  ∧ ExportPipeline.isExporting
      (Table.handleExportData facade initialFilters "dike" w).1 = false.
Proof.
  intros facade w.
  pose proof (export_aborts_on_failure_and_resets_flag facade initialFilters "dike"
                Table.buildFilterString id Dashboard.initialState w)
    as ((Hflag & _) & Htable & _).
  assert (None ∈ facade (Table.buildFilterString initialFilters) "dike") as Hfail.
  { unfold facade. repeat constructor. }
  destruct (Htable Hfail) as (Hd & Ha).
  split; [exact Hd | split; [exact Ha | exact Hflag]].
Defined.

(* ===================================================================== *)
(** * Dashboard statistics: snapshot or live *)
(* ===================================================================== *)

Section Snapshot.
Import JS.

Lemma run_snoc (events : list Dashboard.Event) (e : Dashboard.Event) :
  Dashboard.run (events ++ [e]) = Dashboard.step (Dashboard.run events) e.
Proof. unfold Dashboard.run. by rewrite fold_left_app. Qed.

(** [filtersApplied] always is what [checkIfFiltersApplied] says of the
    current filters and search term. *)
Lemma filtersApplied_invariant (events : list Dashboard.Event) :
  Dashboard.filtersApplied (Dashboard.run events)
  = Dashboard.checkIfFiltersApplied (Dashboard.filters (Dashboard.run events))
                                    (Dashboard.searchTerm (Dashboard.run events)).
Proof.
  induction events as [|e events _] using rev_ind.
  - vm_compute. reflexivity.
  - rewrite run_snoc. destruct e; reflexivity.
Qed.

Lemma checkIfFiltersApplied_no_filter (st : Dashboard.PageState) :
  Spec.noFilterActive st →
  Dashboard.checkIfFiltersApplied (Dashboard.filters st) (Dashboard.searchTerm st)
  = false.
Proof.
  intros [Hterm Hfacets]. unfold Dashboard.checkIfFiltersApplied.
  rewrite Hterm. simpl.
  destruct (existsb _ _) eqn:Hex; [|reflexivity].
  apply existsb_exists in Hex as (v & Hin & Hv).
  apply in_map_iff in Hin as ([facet v'] & Heq & Hin). simpl in Heq. subst v'.
  apply list_elem_of_In, elem_of_map_to_list in Hin.
  rewrite (Hfacets _ _ Hin) in Hv. discriminate.
Qed.

(** C4. In every state the page can reach in which no filter is active
    (empty search string, every facet unset), the three summary statistics
    shown are the static snapshot: 9,855 projects, a total contract cost
    of 547,603,497,105 and 2,409 contractors, whatever a query returns. *)
Theorem no_filter_shows_snapshot (events : list Dashboard.Event)
    (results : option Z) (hits : list FloodControlHit) :
  Spec.noFilterActive (Dashboard.run events) →
  Dashboard.statisticsPanel (Dashboard.run events) results hits = Spec.snapshot
  ∧ Dashboard.totalProjects
      (Dashboard.statisticsPanel (Dashboard.run events) results hits) = 9855
  ∧ Dashboard.totalCost
      (Dashboard.statisticsPanel (Dashboard.run events) results hits)
    = ofZ 547603497105
  ∧ Dashboard.uniqueContractors
      (Dashboard.statisticsPanel (Dashboard.run events) results hits) = 2409%nat.
Proof.
  intros Hnone.
  assert (Dashboard.statisticsPanel (Dashboard.run events) results hits
          = Spec.snapshot) as ->.
  { unfold Dashboard.statisticsPanel.
    by rewrite filtersApplied_invariant, checkIfFiltersApplied_no_filter. }
  repeat split.
Qed.

Lemma initialFilters_unset (facet v : string) :
  initialFilters !! facet = Some v → v = EmptyString.
Proof.
  unfold initialFilters. intros H.
  repeat (apply lookup_insert_Some in H as [[_ <-]|[_ H]]; [reflexivity|]).
  by rewrite lookup_empty in H.
Qed.

(** A region is chosen, a search term typed, and both are cleared again:
    the panel is back on the snapshot although the query of the moment
    reports 42 hits. *)
Lemma no_filter_shows_snapshot_witness :
  Dashboard.totalProjects
    (Dashboard.statisticsPanel
       (Dashboard.run [Dashboard.SearchChange "dike"; Dashboard.SearchChange EmptyString])
       (Some 42) []) = 9855.
Proof.
  refine (proj1 (proj2 (no_filter_shows_snapshot
    [Dashboard.SearchChange "dike"; Dashboard.SearchChange EmptyString]
    (Some 42) [] _))).
  split; [reflexivity|]. intros facet v. apply initialFilters_unset.
Defined.

(** C10. The statistics and chart components choose between snapshot and
    live data from the total hit count alone: when it is 0 or exactly
    9,855 they show the pre-computed aggregates whatever the hits are,
    also while a facet filter or a search term is applied (the only time
    the page mounts them); with any other count the statistics and each
    of the four charts are computed from the hits, whatever the lookup
    tables hold. *)
Theorem snapshot_chosen_by_total_hits
    (localeCompare : string → string → JSNum)
    (infraYearData regionData typeOfWorkData contractorData : list Dashboard.DataItem)
    (st : Dashboard.PageState) (results : option Z) (hits : list FloodControlHit) :
  (Dashboard.totalHitsOf results = 0 ∨ Dashboard.totalHitsOf results = 9855 →
     Dashboard.DashboardStatistics results hits = Dashboard.defaultStats
     ∧ (Dashboard.filtersApplied st = true →
        Dashboard.statisticsPanel st results hits = Spec.snapshot)
     ∧ Dashboard.YearlyChart localeCompare infraYearData results hits
       = Spec.yearSnapshot localeCompare infraYearData
     ∧ Dashboard.RegionChart regionData results hits
       = map (λ item, {| Dashboard.Bar.name := Dashboard.value item;
                         Dashboard.Bar.Projects := Dashboard.count item |})
             (Spec.topTenSnapshot regionData)
     ∧ Dashboard.TypeOfWorkChart typeOfWorkData results hits
       = Spec.topTenSnapshot typeOfWorkData
     ∧ Dashboard.ContractorChart contractorData results hits
       = map (λ item,
                {| Dashboard.ContractorBar.name :=
                     Dashboard.shortName (Dashboard.value item);
                   Dashboard.ContractorBar.Projects := Dashboard.count item;
                   Dashboard.ContractorBar.fullName := Dashboard.value item |})
             (Spec.topTenSnapshot contractorData))
  ∧ (Dashboard.totalHitsOf results ≠ 0 → Dashboard.totalHitsOf results ≠ 9855 →
     Dashboard.totalProjects (Dashboard.DashboardStatistics results hits)
     = Dashboard.totalHitsOf results
     ∧ Dashboard.uniqueContractors (Dashboard.DashboardStatistics results hits)
       = setSize (filter (λ c, truthy c = true) (map Contractor hits))
     ∧ Dashboard.DashboardStatistics results hits
       = Spec.liveStats (Dashboard.totalHitsOf results) hits
     ∧ (Dashboard.filtersApplied st = true →
        Dashboard.statisticsPanel st results hits
        = Spec.liveStats (Dashboard.totalHitsOf results) hits)
     ∧ Dashboard.YearlyChart localeCompare infraYearData results hits
       = Spec.yearLive localeCompare hits
     ∧ Dashboard.RegionChart regionData results hits
       = Spec.topTenLive
           (λ name Projects,
              {| Dashboard.Bar.name := name; Dashboard.Bar.Projects := Projects |})
           Dashboard.Bar.Projects Region hits
     ∧ Dashboard.TypeOfWorkChart typeOfWorkData results hits
       = Spec.topTenLive
           (λ value count, {| Dashboard.value := value; Dashboard.count := count |})
           Dashboard.count TypeofWork hits
     ∧ Dashboard.ContractorChart contractorData results hits
       = Spec.topTenLive
           (λ fullName Projects,
              {| Dashboard.ContractorBar.name := Dashboard.shortName fullName;
                 Dashboard.ContractorBar.Projects := Projects;
                 Dashboard.ContractorBar.fullName := fullName |})
           Dashboard.ContractorBar.Projects Contractor hits).
Proof.
  split.
  - intros Htotal.
    assert (Dashboard.statsIsFiltered (Dashboard.totalHitsOf results) = false
            ∧ Dashboard.isFiltered (Dashboard.totalHitsOf results) = false)
      as [Hstats Hcharts].
    { unfold Dashboard.statsIsFiltered, Dashboard.isFiltered.
      destruct Htotal as [-> | ->]; split; reflexivity. }
    assert (Dashboard.DashboardStatistics results hits = Dashboard.defaultStats)
      as Hdefault.
    { unfold Dashboard.DashboardStatistics. by rewrite Hstats. }
    split; [exact Hdefault|].
    split.
    { intros Happlied. unfold Dashboard.statisticsPanel.
      rewrite Happlied. exact Hdefault. }
    unfold Dashboard.YearlyChart, Dashboard.RegionChart,
      Dashboard.TypeOfWorkChart, Dashboard.ContractorChart.
    rewrite Hcharts. repeat split.
  - intros H0 H9855.
    assert (Dashboard.statsIsFiltered (Dashboard.totalHitsOf results) = true)
      as Hstats.
    { unfold Dashboard.statsIsFiltered. simpl.
      apply andb_true_intro. split; apply negb_true_iff, Z.eqb_neq; assumption. }
    assert (Dashboard.isFiltered (Dashboard.totalHitsOf results) = true)
      as Hcharts by exact Hstats.
    assert (Dashboard.DashboardStatistics results hits
            = Spec.liveStats (Dashboard.totalHitsOf results) hits) as Hlive.
    { unfold Dashboard.DashboardStatistics. by rewrite Hstats. }
    split; [by rewrite Hlive|]. split; [by rewrite Hlive|].
    split; [exact Hlive|]. split.
    { intros Happlied. unfold Dashboard.statisticsPanel.
      rewrite Happlied. exact Hlive. }
    unfold Dashboard.YearlyChart, Dashboard.RegionChart,
      Dashboard.TypeOfWorkChart, Dashboard.ContractorChart,
      Spec.yearLive, Spec.topTenLive.
    rewrite Hcharts.
    repeat split;
      first [ f_equal; apply map_ext; by intros [key frequency]
            | do 2 f_equal; apply map_ext; by intros [key frequency] ].
Qed.

(** A region filter that matches nothing: the query reports 0 hits, the
    live component is mounted, and it shows the full-dataset snapshot. *)
Lemma snapshot_chosen_by_total_hits_witness :
  Dashboard.statisticsPanel
    (Dashboard.run [Dashboard.FilterChange "Region" "Region XIII"]) (Some 0) []
  = Spec.snapshot.
Proof.
  refine (proj1 (proj2 (proj1 (snapshot_chosen_by_total_hits
    (λ _ _, NaN) [] [] [] []
    (Dashboard.run [Dashboard.FilterChange "Region" "Region XIII"])
    (Some 0) []) _)) _).
  - left. reflexivity.
  - vm_compute. reflexivity.
Defined.
End Snapshot.

(* ===================================================================== *)
(** * Unique contractors *)
(* ===================================================================== *)

Section UniqueContractors.
Import JS.

Lemma setSize_gset (names : list string) :
  setSize names = size (list_to_set names : gset string).
Proof.
  unfold setSize.
  rewrite <- (size_list_to_set (C := gset string)) by apply NoDup_remove_dups.
  f_equal. apply set_eq. intros x.
  rewrite !elem_of_list_to_set. apply elem_of_remove_dups.
Qed.

Lemma remove_dups_Some (names : list string) :
  remove_dups (map Some names) = map Some (remove_dups names).
Proof.
  induction names as [|c names IH]; [reflexivity|]. simpl.
  destruct (decide_rel elem_of (Some c) (map Some names)) as [Hin|Hnin];
    destruct (decide_rel elem_of c names) as [Hin'|Hnin']; simpl.
  - exact IH.
  - exfalso. apply Hnin'.
    apply list_elem_of_In, in_map_iff in Hin as (c' & [= ->] & Hin).
    by apply list_elem_of_In.
  - exfalso. apply Hnin. apply list_elem_of_In, in_map_iff.
    exists c. split; [reflexivity | by apply list_elem_of_In].
  - by rewrite IH.
Qed.

(** The table view counts the set of non-blank contractor names. *)
Lemma table_uniqueContractors_spec (hits : list FloodControlHit) :
  Table.uniqueContractors hits
  = size (list_to_set (Spec.nonBlankContractors hits) : gset string).
Proof.
  rewrite <- setSize_gset. unfold Table.uniqueContractors, setSize.
  assert (map Contractor
            (filter (λ hit, match Contractor hit with
                            | Some c => nonEmpty c && nonEmpty (trim c)
                            | None => false
                            end = true) hits)
          = map Some (Spec.nonBlankContractors hits)) as ->.
  { induction hits as [|hit hits IH]; [reflexivity|].
    rewrite filter_cons. simpl.
    destruct (decide _) as [Hkeep|Hdrop]; destruct (Contractor hit) as [c|] eqn:Hc;
      try discriminate; try rewrite nonEmpty_trim_guard in *.
    - simpl. by rewrite Hkeep, Hc, IH.
    - destruct (nonEmpty (trim c)); [done | exact IH].
    - exact IH. }
  by rewrite remove_dups_Some, length_map.
Qed.

(** C5, evaluated on the sample of the specification with a query that
    reports five hits: the table view counts 2 contractors, the dashboard
    counts 3, because its filter keeps the whitespace-only name. *)
Lemma dashboard_counts_blank_contractor :
  Table.uniqueContractors Spec.contractorSample = 2%nat
  ∧ size (list_to_set (Spec.nonBlankContractors Spec.contractorSample) : gset string)
    = 2%nat
  ∧ Dashboard.uniqueContractors
      (Dashboard.DashboardStatistics (Some 5) Spec.contractorSample) = 3%nat.
Proof.
  split; [reflexivity|]. split; [|reflexivity].
  rewrite <- table_uniqueContractors_spec. reflexivity.
Qed.
End UniqueContractors.

(* ===================================================================== *)
(** * Pagination *)
(* ===================================================================== *)

Section Pagination.
Import JS Spec.

Lemma paginatedHits_sliceOf {A : Type} (sorted : list A) (p : nat) :
  Table.paginatedHits (Z.of_nat p) sorted
  = Spec.sliceOf (p * 20) (p * 20 + 20) sorted.
Proof.
  unfold Table.paginatedHits, Table.endIndex, Table.startIndex,
    Table.hitsPerPage, slice, Spec.sliceOf.
  replace (p * 20 + 20 - p * 20)%nat with 20%nat by lia.
  destruct (Z.ltb_spec (Z.of_nat p * 20) 0) as [?|_]; [lia|].
  destruct (Z.ltb_spec (Z.min (Z.of_nat p * 20 + 20) (Z.of_nat (length sorted))) 0)
    as [?|_]; [lia|].
  destruct (decide (p * 20 ≤ length sorted)%nat) as [Hle|Hgt].
  - replace (Z.to_nat (Z.min (Z.of_nat p * 20) (Z.of_nat (length sorted))))
      with (p * 20)%nat by lia.
    destruct (decide (p * 20 + 20 ≤ length sorted)%nat) as [Hfull|Hpart].
    + f_equal. lia.
    + rewrite !take_ge; [reflexivity | |]; rewrite length_drop; lia.
  - replace (Z.to_nat (Z.min (Z.of_nat p * 20) (Z.of_nat (length sorted))))
      with (length sorted) by lia.
    rewrite !drop_ge by lia. by rewrite !take_nil.
Qed.

Lemma pageButtons_in_range (total current q : Z) :
  0 ≤ current → q ∈ Table.pageButtons total current → 0 ≤ q < total.
Proof.
  intros Hcur Hq. unfold Table.pageButtons in Hq.
  apply list_elem_of_filter in Hq as [Hlt Hq].
  apply list_elem_of_In, in_map_iff in Hq as (i & <- & Hi).
  apply list_elem_of_In, elem_of_seqZ in Hi.
  split; [|lia].
  unfold Table.pageToShow. case_conditionals; lia.
Qed.

Lemma paginationTargets_in_range (length : nat) (p q : Z) :
  pageInRange length p → q ∈ Table.paginationTargets length p →
  pageInRange length q.
Proof.
  intros [Hp0 Hp] Hq. unfold Table.paginationTargets in Hq.
  destruct (Z.gtb_spec (Table.totalPages length) 1) as [Htotal|_];
    [|by apply not_elem_of_nil in Hq].
  apply elem_of_app in Hq as [Hq|Hq]; [|apply elem_of_app in Hq as [Hq|Hq]].
  - destruct (p =? 0); [by apply not_elem_of_nil in Hq|].
    apply list_elem_of_singleton in Hq as ->. unfold pageInRange. lia.
  - apply pageButtons_in_range in Hq; [|exact Hp0]. unfold pageInRange. lia.
  - destruct (p >=? Table.totalPages length - 1);
      [by apply not_elem_of_nil in Hq|].
    apply list_elem_of_singleton in Hq as ->. unfold pageInRange. lia.
Qed.

Lemma reachable_in_range (length : nat) (st : Table.TableState) :
  Table.reachable length st → pageInRange length (Table.currentPage st).
Proof.
  induction 1 as [|st q _ IH Hq|st field _ IH].
  - unfold pageInRange. simpl. lia.
  - simpl. by eapply paginationTargets_in_range.
  - unfold Table.handleSort. by destruct (String.eqb _ _).
Qed.

(** C8. For every sorted batch the page shown for a page index [p] is
    the slice [sorted[p*20 : p*20+20]], and in every state reachable
    through the pagination controls the page index is such a [p], below
    the number of pages (or the initial page 0). With 45 sorted records
    page 0 shows records 1 to 20, page 2 shows records 41 to 45, pages 0,
    1 and 2 can be reached and no page index beyond ceil(45/20) - 1 = 2
    can. *)
Theorem pagination_shows_slice :
  (∀ (A : Type) (sorted : list A) (p : nat),
      Table.paginatedHits (Z.of_nat p) sorted
      = Spec.sliceOf (p * 20) (p * 20 + 20) sorted)
  ∧ (∀ (A : Type) (sorted : list A) (st : Table.TableState),
      Table.reachable (length sorted) st →
      ∃ p : nat,
        Table.currentPage st = Z.of_nat p
        ∧ Table.paginatedHits (Table.currentPage st) sorted
          = Spec.sliceOf (p * 20) (p * 20 + 20) sorted
        ∧ (p = 0%nat ∨ Z.of_nat p < Table.totalPages (length sorted)))
  ∧ (∀ (A : Type) (sorted : list A),
      length sorted = 45%nat →
      Table.paginatedHits 0 sorted = take 20 sorted
      ∧ Table.paginatedHits 2 sorted = drop 40 sorted
      ∧ length (Table.paginatedHits 2 sorted) = 5%nat
      ∧ Table.totalPages (length sorted) - 1 = 2
      ∧ (∀ st, Table.reachable (length sorted) st →
               0 ≤ Table.currentPage st ≤ 2)
      ∧ (∀ p, 0 ≤ p ≤ 2 →
              ∃ st, Table.reachable (length sorted) st ∧ Table.currentPage st = p)).
Proof.
  split; [intros A sorted p; apply paginatedHits_sliceOf|].
  split.
  - intros A sorted st Hreach.
    destruct (reachable_in_range _ _ Hreach) as [Hp0 Hp].
    exists (Z.to_nat (Table.currentPage st)).
    rewrite Z2Nat.id by exact Hp0. split; [reflexivity|].
    split; [|lia].
    rewrite <- (Z2Nat.id (Table.currentPage st)) at 1 by exact Hp0.
    apply paginatedHits_sliceOf.
  - intros A sorted Hlen.
    assert (Table.paginatedHits 0 sorted = take 20 sorted) as H0.
    { change 0 with (Z.of_nat 0). rewrite paginatedHits_sliceOf. reflexivity. }
    assert (Table.paginatedHits 2 sorted = drop 40 sorted) as H2.
    { change 2 with (Z.of_nat 2). rewrite paginatedHits_sliceOf.
      unfold Spec.sliceOf. simpl.
      apply take_ge. rewrite length_drop. lia. }
    split; [exact H0|]. split; [exact H2|].
    split; [rewrite H2, length_drop; lia|].
    rewrite Hlen. split; [reflexivity|].
    split.
    + intros st Hreach.
      destruct (reachable_in_range _ _ Hreach) as [Hp0 Hp].
      change (Table.totalPages 45) with 3 in Hp. lia.
    + intros p Hp.
      assert (Table.reachable 45 (Table.handlePageChange 1 Table.initialState))
        as H1.
      { apply Table.reach_page; [apply Table.reach_initial|].
        vm_compute. repeat constructor. }
      assert (p = 0 ∨ p = 1 ∨ p = 2) as [->|[->| ->]] by lia.
      * exists Table.initialState. split; [apply Table.reach_initial | reflexivity].
      * eexists. split; [exact H1 | reflexivity].
      * exists (Table.handlePageChange 2 (Table.handlePageChange 1 Table.initialState)).
        split; [|reflexivity].
        apply Table.reach_page; [exact H1|]. vm_compute. repeat constructor.
Qed.

(** Forty-five records: after a click on page button 3 the table shows
    records 41 to 45. *)
Lemma pagination_shows_slice_witness :
  Table.paginatedHits 2 (seq 1 45) = [41; 42; 43; 44; 45]%nat
  ∧ ∃ p : nat,
      Table.currentPage (Table.handlePageChange 2 Table.initialState) = Z.of_nat p
      ∧ Table.paginatedHits
          (Table.currentPage (Table.handlePageChange 2 Table.initialState))
          (seq 1 45)
        = Spec.sliceOf (p * 20) (p * 20 + 20) (seq 1 45)
      ∧ (p = 0%nat ∨ Z.of_nat p < Table.totalPages (length (seq 1 45))).
Proof.
  split.
  - exact (proj1 (proj2 (proj2 (proj2 pagination_shows_slice) nat (seq 1 45) eq_refl))).
  - apply (proj1 (proj2 pagination_shows_slice) nat (seq 1 45)).
    apply Table.reach_page; [apply Table.reach_initial|].
    vm_compute. repeat constructor.
Defined.
End Pagination.

(* ===================================================================== *)
(** * Numbers: the order behind the sign of a difference *)
(* ===================================================================== *)

Section Numbers.
Import JS Spec.

Lemma Qnum_pos (x : Q) : (0 <? Qnum x) = true ↔ (0 < x)%Q.
Proof. rewrite Z.ltb_lt. unfold Qlt. simpl. lia. Qed.

Lemma isPositive_numSub (a b : JSNum) :
  isPositive (numSub a b) = true ↔ numGt a b.
Proof.
  destruct a as [|s|p], b as [|t|q]; simpl; try (split; [discriminate | tauto]).
  - destruct s, t; simpl; split; try discriminate; try tauto; intros []; congruence.
  - destruct s; simpl; split; congruence.
  - destruct t; simpl; split; congruence.
  - rewrite Qnum_pos, Qred_correct. unfold Qminus. symmetry. apply Qlt_minus_iff.
Qed.

Lemma numGt_asym (a b : JSNum) : numGt a b → numGt b a → False.
Proof.
  destruct a as [|s|p], b as [|t|q]; simpl; try (intuition congruence).
  intros H1 H2. exact (Qlt_irrefl _ (Qlt_trans _ _ _ H1 H2)).
Qed.

Lemma numGt_trans (a b c : JSNum) : numGt a b → numGt b c → numGt a c.
Proof.
  destruct a as [|s|p], b as [|t|q], c as [|u|r]; simpl;
    try (intuition congruence).
  intros H1 H2. exact (Qlt_trans _ _ _ H2 H1).
Qed.

(** Among numbers that are not NaN, "not greater" is transitive. *)
Lemma numGt_neg_trans (a b c : JSNum) :
  isNaN b = false → ¬ numGt a b → ¬ numGt b c → ¬ numGt a c.
Proof.
  destruct a as [|s|p], b as [|t|q], c as [|u|r]; simpl;
    try (intuition congruence);
    try (intros _; repeat match goal with x : bool |- _ => destruct x end;
         intuition congruence).
  intros _ H1 H2 H3. apply Qnot_lt_le in H1, H2.
  exact (Qlt_irrefl _ (Qle_lt_trans _ _ _ (Qle_trans _ _ _ H1 H2) H3)).
Qed.
End Numbers.

(* ===================================================================== *)
(** * The sort: permutation, stability, order *)
(* ===================================================================== *)

Section SortTheory.
Import JS Spec.
Context {A : Type} (comparefn : A → A → JSNum).

Local Abbreviation after := (sortsAfter comparefn).

Lemma sortInsert_perm (x : A) (xs : list A) : sortInsert comparefn x xs ≡ₚ x :: xs.
Proof.
  induction xs as [|y ys IH]; simpl; [reflexivity|].
  destruct (after x y); [|reflexivity].
  rewrite IH. apply perm_swap.
Qed.

Lemma sort_perm (xs : list A) : sort comparefn xs ≡ₚ xs.
Proof.
  induction xs as [|x xs IH]; simpl; [reflexivity|].
  by rewrite sortInsert_perm, IH.
Qed.

Lemma sort_length (xs : list A) : length (sort comparefn xs) = length xs.
Proof. apply Permutation_length, sort_perm. Qed.

(** Stability. Elements of a class whose members never sort after one
    another keep their relative order. *)
Lemma sortInsert_filter (P : A → bool) (x : A) (xs : list A) :
  (∀ a b, P a = true → P b = true → after a b = false) →
  filter (λ a, P a = true) (sortInsert comparefn x xs)
  = filter (λ a, P a = true) (x :: xs).
Proof.
  intros Hclass. induction xs as [|y ys IH]; simpl; [reflexivity|].
  destruct (after x y) eqn:Hxy; [|reflexivity].
  rewrite (filter_cons _ y), IH, !filter_cons.
  destruct (decide (P x = true)) as [Hx|Hx], (decide (P y = true)) as [Hy|Hy];
    try reflexivity.
  rewrite (Hclass _ _ Hx Hy) in Hxy. discriminate.
Qed.

Lemma sort_stable (P : A → bool) (xs : list A) :
  (∀ a b, P a = true → P b = true → after a b = false) →
  filter (λ a, P a = true) (sort comparefn xs) = filter (λ a, P a = true) xs.
Proof.
  intros Hclass. induction xs as [|x xs IH]; simpl; [reflexivity|].
  rewrite sortInsert_filter by exact Hclass.
  by rewrite !filter_cons, IH.
Qed.

(** Order. On elements for which the comparator is consistent, no
    element of the result sorts after a later one. *)
Section Consistent.
Variable ok : A → Prop.
Hypothesis after_asym : ∀ a b, ok a → ok b → after a b = true → after b a = false.
Hypothesis after_neg_trans :
  ∀ a b c, ok a → ok b → ok c →
           after a b = false → after b c = false → after a c = false.

Lemma sortInsert_sorted (x : A) (xs : list A) :
  ok x → Forall ok xs →
  StronglySorted (λ a b, after a b = false) xs →
  StronglySorted (λ a b, after a b = false) (sortInsert comparefn x xs).
Proof.
  intros Hx Hok Hsorted. induction Hsorted as [|y ys Hys IH Hy]; simpl.
  - repeat constructor.
  - apply Forall_cons in Hok as [Hoky Hok].
    destruct (after x y) eqn:Hxy.
    + constructor; [by apply IH|].
      rewrite sortInsert_perm. constructor; [by apply after_asym | exact Hy].
    + constructor; [by constructor|].
      constructor; [exact Hxy|].
      rewrite Forall_forall in Hy, Hok |- *. intros z Hz.
      apply (after_neg_trans x y z); auto.
Qed.

Lemma sort_sorted (xs : list A) :
  Forall ok xs → StronglySorted (λ a b, after a b = false) (sort comparefn xs).
Proof.
  induction 1 as [|x xs Hx Hok IH]; simpl; [constructor|].
  apply sortInsert_sorted; [exact Hx | by rewrite sort_perm | exact IH].
Qed.
End Consistent.

(** Strict order. When sorting after is transitive and no two
    elements of the input compare equal, the result is strictly sorted. *)
Section Strict.
Hypothesis after_trans : ∀ a b c, after a b = true → after b c = true → after a c = true.


Lemma sortInsert_strict (x : A) (xs : list A) :
  Forall (comparable comparefn x) xs →
  StronglySorted (λ a b, after b a = true) xs →
  StronglySorted (λ a b, after b a = true) (sortInsert comparefn x xs).
Proof.
  intros Hcmp Hsorted. induction Hsorted as [|y ys Hys IH Hy]; simpl.
  - repeat constructor.
  - apply Forall_cons in Hcmp as [Hxy Hcmp].
    destruct (after x y) eqn:Hafter.
    + constructor; [by apply IH|].
      rewrite sortInsert_perm. by constructor.
    + destruct Hxy as [Hxy|Hyx]; [congruence|].
      constructor; [by constructor|].
      constructor; [exact Hyx|].
      rewrite Forall_forall in Hy |- *. intros z Hz.
      apply (after_trans z y x); auto.
Qed.

Lemma sort_strict (xs : list A) :
  StronglySorted (comparable comparefn) xs →
  StronglySorted (λ a b, after b a = true) (sort comparefn xs).
Proof.
  induction 1 as [|x xs Hxs IH Hx]; simpl; [constructor|].
  apply sortInsert_strict; [by rewrite sort_perm | exact IH].
Qed.
End Strict.
End SortTheory.

Lemma StronglySorted_mono {A : Type} (R R' : relation A) (xs : list A) :
  (∀ a b, R a b → R' a b) → StronglySorted R xs → StronglySorted R' xs.
Proof.
  intros Himpl. induction 1 as [|x xs Hxs IH Hx]; constructor; [exact IH|].
  eapply Forall_impl; [exact Hx | apply Himpl].
Qed.

Lemma StronglySorted_rev {A : Type} (R : relation A) (xs : list A) :
  StronglySorted R xs → StronglySorted (flip R) (rev xs).
Proof.
  induction 1 as [|x xs Hxs IH Hx]; simpl; [constructor|].
  apply StronglySorted_app_2; [|exact IH|repeat constructor].
  intros a b Ha Hb. apply list_elem_of_singleton in Hb as ->.
  rewrite Forall_forall in Hx. apply Hx.
  apply list_elem_of_In, in_rev. by apply list_elem_of_In.
Qed.

(** Toggling the direction of a strict comparator reverses the result
    when no two elements compare equal. *)
Lemma sort_flip_reverse {A : Type} (up down : A → A → JS.JSNum) (xs : list A) :
  (∀ a b, JS.sortsAfter down a b = JS.sortsAfter up b a) →
  (∀ a b, JS.sortsAfter up a b = true → JS.sortsAfter up b a = false) →
  (∀ a b c, JS.sortsAfter up a b = true → JS.sortsAfter up b c = true →
            JS.sortsAfter up a c = true) →
  StronglySorted (Spec.comparable up) xs →
  JS.sort down xs = rev (JS.sort up xs).
Proof.
  intros Hflip Hasym Htrans Hcmp.
  apply (StronglySorted_unique_strong (λ a b, JS.sortsAfter down b a = true)).
  - intros a b _ _ Hab Hba. rewrite !Hflip in *.
    rewrite (Hasym _ _ Hab) in Hba. discriminate.
  - apply (sort_strict down).
    + intros a b c. rewrite !Hflip. intros H1 H2. exact (Htrans c b a H2 H1).
    + eapply StronglySorted_mono; [|exact Hcmp].
      intros a b [H|H]; [right | left]; by rewrite Hflip.
  - pose proof (StronglySorted_rev _ _ (sort_strict up Htrans xs Hcmp)) as H.
    eapply StronglySorted_mono; [|exact H].
    intros a b Hab. unfold flip in Hab. by rewrite Hflip.
  - etransitivity; [apply sort_perm|].
    etransitivity; [|apply Permutation_rev]. symmetry. apply sort_perm.
Qed.

(* ===================================================================== *)
(** * Sorting the table *)
(* ===================================================================== *)

Section TableSort.
Import JS Spec.

Lemma numEq_not_gt (a b c : JSNum) :
  numEq a c = true → numEq b c = true → ¬ numGt a b.
Proof.
  destruct a as [|s|p], b as [|t|q], c as [|u|r]; simpl; try discriminate.
  - intros Hs Ht. apply Bool.eqb_prop in Hs, Ht. subst. intros [? ?]. congruence.
  - intros Hp Hq. apply Qeq_bool_iff in Hp, Hq.
    rewrite Hp, Hq. apply Qlt_irrefl.
Qed.

Lemma numGt_total (a b : JSNum) :
  isNaN a = false → isNaN b = false → numEq a b = false →
  numGt a b ∨ numGt b a.
Proof.
  destruct a as [|s|p], b as [|t|q]; simpl; try discriminate; intros _ _ Hne.
  - destruct s, t; simpl in Hne; try discriminate; tauto.
  - destruct s; tauto.
  - destruct t; tauto.
  - apply Qeq_bool_neq in Hne.
    destruct (Q_dec p q) as [[?|?]|?]; tauto.
Qed.

Lemma not_true_iff_false' (b : bool) : b = false ↔ ¬ b = true.
Proof. destruct b; split; congruence. Qed.

(** The cost comparator in terms of the order on numbers. *)
Lemma cost_after_asc (a b : FloodControlHit) :
  sortsAfter (Table.compareHits "ContractCost" Table.asc) a b = true
  ↔ numGt (costOf a) (costOf b).
Proof. unfold sortsAfter. simpl. apply isPositive_numSub. Qed.

Lemma cost_after_desc (a b : FloodControlHit) :
  sortsAfter (Table.compareHits "ContractCost" Table.desc) a b
  = sortsAfter (Table.compareHits "ContractCost" Table.asc) b a.
Proof. reflexivity. Qed.

Lemma cost_after_asym (a b : FloodControlHit) :
  sortsAfter (Table.compareHits "ContractCost" Table.asc) a b = true →
  sortsAfter (Table.compareHits "ContractCost" Table.asc) b a = false.
Proof.
  rewrite not_true_iff_false', !cost_after_asc.
  intros H1 H2. exact (numGt_asym _ _ H1 H2).
Qed.

Lemma cost_after_trans (a b c : FloodControlHit) :
  sortsAfter (Table.compareHits "ContractCost" Table.asc) a b = true →
  sortsAfter (Table.compareHits "ContractCost" Table.asc) b c = true →
  sortsAfter (Table.compareHits "ContractCost" Table.asc) a c = true.
Proof. rewrite !cost_after_asc. apply numGt_trans. Qed.

Lemma cost_after_neg_trans (d : Table.SortDirection) (a b c : FloodControlHit) :
  isNaN (costOf a) = false → isNaN (costOf b) = false → isNaN (costOf c) = false →
  sortsAfter (Table.compareHits "ContractCost" d) a b = false →
  sortsAfter (Table.compareHits "ContractCost" d) b c = false →
  sortsAfter (Table.compareHits "ContractCost" d) a c = false.
Proof.
  intros _ Hb _. destruct d; rewrite ?cost_after_desc;
    rewrite !not_true_iff_false', !cost_after_asc.
  - by apply numGt_neg_trans.
  - intros H1 H2. by apply (numGt_neg_trans (costOf c) (costOf b) (costOf a)).
Qed.

Lemma cost_class_not_after (d : Table.SortDirection) (c : JSNum)
    (a b : FloodControlHit) :
  numEq (costOf a) c = true → numEq (costOf b) c = true →
  sortsAfter (Table.compareHits "ContractCost" d) a b = false.
Proof.
  intros Ha Hb. destruct d; rewrite ?cost_after_desc;
    rewrite not_true_iff_false', cost_after_asc.
  - by apply (numEq_not_gt _ _ c).
  - by apply (numEq_not_gt _ _ c).
Qed.

Lemma distinctCosts_comparable (hits : list FloodControlHit) :
  parsableCosts hits → distinctCosts hits →
  StronglySorted (comparable (Table.compareHits "ContractCost" Table.asc)) hits.
Proof.
  induction hits as [|x hits IH]; intros Hok Hdistinct; constructor.
  - apply IH.
    + intros hit Hin. apply Hok. by right.
    + intros i j a b Hij Ha Hb. by apply (Hdistinct (S i) (S j)); [lia|..].
  - apply Forall_forall. intros y Hy.
    apply list_elem_of_lookup in Hy as [j Hj].
    unfold comparable. rewrite !cost_after_asc. apply numGt_total.
    + apply Hok. by left.
    + apply Hok. right. by apply list_elem_of_lookup_2 in Hj.
    + by apply (Hdistinct 0%nat (S j)); [lia|..].
Qed.

(** C6, as the code has it. For every batch whose costs all parse as
    numbers, with the table sorted by cost ascending, a click on the cost
    header sorts the batch by non-increasing cost; in both directions
    records of equal cost keep their relative input order; and the
    descending order is exactly the reverse of the ascending order when no
    two records have the same cost. *)
Theorem cost_toggle_descending (st : Table.TableState)
    (hits : list FloodControlHit) :
  Table.sortField st = "ContractCost" → Table.sortDirection st = Table.asc →
  parsableCosts hits →
  Table.sortedHits (Table.handleSort "ContractCost" st) hits ≡ₚ hits
  ∧ StronglySorted (λ a b, ¬ numGt (costOf b) (costOf a))
      (Table.sortedHits (Table.handleSort "ContractCost" st) hits)
  ∧ StronglySorted (λ a b, ¬ numGt (costOf a) (costOf b))
      (Table.sortedHits st hits)
  ∧ (∀ c, filter (λ hit, numEq (costOf hit) c = true)
                 (Table.sortedHits (Table.handleSort "ContractCost" st) hits)
          = filter (λ hit, numEq (costOf hit) c = true) hits)
  ∧ (∀ c, filter (λ hit, numEq (costOf hit) c = true) (Table.sortedHits st hits)
          = filter (λ hit, numEq (costOf hit) c = true) hits)
  ∧ (distinctCosts hits →
     Table.sortedHits (Table.handleSort "ContractCost" st) hits
     = rev (Table.sortedHits st hits)).
Proof.
  intros Hfield Hdir Hok.
  unfold Table.sortedHits, Table.handleSort. rewrite Hfield, Hdir. simpl.
  assert (Forall (λ hit, isNaN (costOf hit) = false) hits) as Hall.
  { by apply Forall_forall. }
  split; [apply sort_perm|].
  split.
  { eapply StronglySorted_mono;
      [| apply (sort_sorted _ (λ hit, isNaN (costOf hit) = false))].
    - intros a b Hab. simpl in Hab. rewrite cost_after_desc in Hab.
      by rewrite not_true_iff_false', cost_after_asc in Hab.
    - intros a b _ _. rewrite !cost_after_desc. apply cost_after_asym.
    - intros a b c. apply cost_after_neg_trans.
    - exact Hall. }
  split.
  { eapply StronglySorted_mono;
      [| apply (sort_sorted _ (λ hit, isNaN (costOf hit) = false))].
    - intros a b Hab. simpl in Hab.
      by rewrite not_true_iff_false', cost_after_asc in Hab.
    - intros a b _ _. apply cost_after_asym.
    - intros a b c. apply cost_after_neg_trans.
    - exact Hall. }
  split; [intros c; apply (sort_stable _ (λ hit, numEq (costOf hit) c));
          intros a b; apply cost_class_not_after|].
  split; [intros c; apply (sort_stable _ (λ hit, numEq (costOf hit) c));
          intros a b; apply cost_class_not_after|].
  intros Hdistinct. apply sort_flip_reverse.
  - apply cost_after_desc.
  - apply cost_after_asym.
  - apply cost_after_trans.
  - by apply distinctCosts_comparable.
Qed.

(** Three records with costs 300, 100 and 200. *)
Lemma cost_toggle_descending_witness :
  Table.sortedHits (Table.handleSort "ContractCost" byCostAscending)
    [hitWithCost "a" "300"; hitWithCost "b" "100"; hitWithCost "c" "200"]
  = rev (Table.sortedHits byCostAscending
           [hitWithCost "a" "300"; hitWithCost "b" "100"; hitWithCost "c" "200"]).
Proof.
  refine (proj2 (proj2 (proj2 (proj2 (proj2
    (cost_toggle_descending byCostAscending
       [hitWithCost "a" "300"; hitWithCost "b" "100"; hitWithCost "c" "200"]
       eq_refl eq_refl _))))) _).
  - intros hit Hin.
    repeat (apply elem_of_cons in Hin as [->|Hin]; [reflexivity|]).
    by apply not_elem_of_nil in Hin.
  - intros i j a b Hij Ha Hb.
    destruct i as [|[|[|i]]], j as [|[|[|j]]]; simpl in Ha, Hb;
      try lia; try discriminate;
      injection Ha as <-; injection Hb as <-; reflexivity.
Defined.

(** C6 as stated fails on two records of equal cost: both directions
    keep them in input order, so the descending order is not the reverse
    of the ascending one. *)
Lemma cost_toggle_not_reverse :
  Table.sortedHits byCostAscending
    [hitWithCost "a" "100"; hitWithCost "b" "100"]
  = [hitWithCost "a" "100"; hitWithCost "b" "100"]
  ∧ Table.sortedHits (Table.handleSort "ContractCost" byCostAscending)
      [hitWithCost "a" "100"; hitWithCost "b" "100"]
    = [hitWithCost "a" "100"; hitWithCost "b" "100"]
  ∧ Table.sortedHits (Table.handleSort "ContractCost" byCostAscending)
      [hitWithCost "a" "100"; hitWithCost "b" "100"]
    ≠ rev (Table.sortedHits byCostAscending
             [hitWithCost "a" "100"; hitWithCost "b" "100"]).
Proof.
  split; [reflexivity|]. split; [reflexivity|].
  vm_compute. discriminate.
Qed.

(** C7, evaluated on a record of cost 5 followed by a record whose cost
    is the text abc. The comparator yields NaN for the pair, the sort
    takes that for a tie and leaves the records as they came; with the
    unparsable cost counted as zero the second record would come first. *)
Lemma unparsable_cost_is_a_tie :
  costOf (hitWithCost "b" "abc") = NaN
  ∧ Table.compareHits "ContractCost" Table.asc
      (hitWithCost "a" "5") (hitWithCost "b" "abc") = NaN
  ∧ Table.sortedHits byCostAscending [hitWithCost "a" "5"; hitWithCost "b" "abc"]
    = [hitWithCost "a" "5"; hitWithCost "b" "abc"]
  ∧ sort (compareCostOrZero Table.asc) [hitWithCost "a" "5"; hitWithCost "b" "abc"]
    = [hitWithCost "b" "abc"; hitWithCost "a" "5"].
Proof. repeat split. Qed.

(** ** The other fields *)

Lemma ltb_irrefl (s : string) : String.ltb s s = false.
Proof.
  unfold String.ltb. pose proof (String.compare_antisym s s) as H.
  destruct (String.compare s s); simpl in H; congruence.
Qed.

Lemma ltb_asym (s t : string) : String.ltb s t = true → String.ltb t s = false.
Proof.
  unfold String.ltb. rewrite (String.compare_antisym t s).
  destruct (String.compare s t); simpl; congruence.
Qed.

(** For a field other than the cost, a record sorts after another exactly
    when its lower-cased text is the greater one, by code units. *)
Lemma text_after (field : string) (a b : FloodControlHit) :
  field ≠ "ContractCost" →
  sortsAfter (Table.compareHits field Table.asc) a b
  = String.ltb (textKey field b) (textKey field a)
  ∧ sortsAfter (Table.compareHits field Table.desc) a b
    = String.ltb (textKey field a) (textKey field b).
Proof.
  intros Hfield. unfold sortsAfter, Table.compareHits.
  apply String.eqb_neq in Hfield. rewrite Hfield.
  fold (textKey field a) (textKey field b). unfold strLt, strGt.
  destruct (String.ltb (textKey field a) (textKey field b)) eqn:Hab.
  - rewrite (ltb_asym _ _ Hab). split; reflexivity.
  - destruct (String.ltb (textKey field b) (textKey field a)); split; reflexivity.
Qed.

(** In every sort, by any field and in either direction, records with
    equal keys keep their relative input order. *)
Lemma sortedHits_stable_text (st : Table.TableState) (hits : list FloodControlHit)
    (key : string) :
  Table.sortField st ≠ "ContractCost" →
  filter (λ hit, String.eqb (textKey (Table.sortField st) hit) key = true)
         (Table.sortedHits st hits)
  = filter (λ hit, String.eqb (textKey (Table.sortField st) hit) key = true) hits.
Proof.
  intros Hfield. unfold Table.sortedHits.
  apply (sort_stable _ (λ hit, String.eqb (textKey (Table.sortField st) hit) key)).
  intros a b Ha Hb. apply String.eqb_eq in Ha, Hb.
  destruct (text_after _ a b Hfield) as [Hasc Hdesc].
  destruct (Table.sortDirection st); [rewrite Hasc | rewrite Hdesc];
    rewrite Ha, Hb; apply ltb_irrefl.
Qed.

Lemma ascii_compare_lt_trans (a b c : ascii) :
  Ascii.compare a b = Lt → Ascii.compare b c = Lt → Ascii.compare a c = Lt.
Proof.
  unfold Ascii.compare. rewrite !N.compare_lt_iff. apply N.lt_trans.
Qed.

Lemma ascii_compare_eq (a b : ascii) : Ascii.compare a b = Eq → a = b.
Proof.
  unfold Ascii.compare. rewrite N.compare_eq_iff. intros H.
  by rewrite <- (ascii_N_embedding a), <- (ascii_N_embedding b), H.
Qed.

Lemma compare_lt_trans (s t u : string) :
  String.compare s t = Lt → String.compare t u = Lt → String.compare s u = Lt.
Proof.
  revert t u. induction s as [|a s IH]; intros [|b t] [|c u]; simpl;
    try congruence.
  destruct (Ascii.compare a b) eqn:Hab; try discriminate;
    destruct (Ascii.compare b c) eqn:Hbc; try discriminate.
  - apply ascii_compare_eq in Hab, Hbc. subst.
    assert (Ascii.compare c c = Eq) as ->
      by (unfold Ascii.compare; apply N.compare_refl).
    apply IH.
  - apply ascii_compare_eq in Hab. subst. by rewrite Hbc.
  - apply ascii_compare_eq in Hbc. subst. by rewrite Hab.
  - by rewrite (ascii_compare_lt_trans _ _ _ Hab Hbc).
Qed.

Lemma ltb_trans (s t u : string) :
  String.ltb s t = true → String.ltb t u = true → String.ltb s u = true.
Proof.
  unfold String.ltb. intros Hst Htu.
  destruct (String.compare s t) eqn:H1; try discriminate.
  destruct (String.compare t u) eqn:H2; try discriminate.
  by rewrite (compare_lt_trans _ _ _ H1 H2).
Qed.

Lemma ltb_total (s t : string) :
  String.ltb s t = false → String.ltb t s = false → s = t.
Proof.
  unfold String.ltb. rewrite (String.compare_antisym t s).
  destruct (String.compare s t) eqn:H; simpl; try discriminate.
  intros _ _. by apply String.compare_eq_iff.
Qed.

Lemma ltb_neg_trans (s t u : string) :
  String.ltb s t = false → String.ltb t u = false → String.ltb s u = false.
Proof.
  intros Hst Htu. destruct (String.ltb s u) eqn:Hsu; [|reflexivity].
  destruct (String.ltb t s) eqn:Hts.
  - by rewrite (ltb_trans _ _ _ Hts Hsu) in Htu.
  - rewrite (ltb_total _ _ Hst Hts) in Hsu. congruence.
Qed.

(** For a field other than the cost, the ascending sort puts the records
    in non-decreasing order of their lower-cased text, the descending
    sort in non-increasing order. *)
Lemma sortedHits_text_order (st : Table.TableState) (hits : list FloodControlHit) :
  Table.sortField st ≠ "ContractCost" →
  StronglySorted
    (λ a b, match Table.sortDirection st with
            | Table.asc => String.ltb (textKey (Table.sortField st) b)
                                      (textKey (Table.sortField st) a) = false
            | Table.desc => String.ltb (textKey (Table.sortField st) a)
                                       (textKey (Table.sortField st) b) = false
            end)
    (Table.sortedHits st hits).
Proof.
  intros Hfield. unfold Table.sortedHits.
  eapply StronglySorted_mono; [| apply (sort_sorted _ (λ _, True))].
  - intros a b Hab. simpl in Hab.
    destruct (text_after _ a b Hfield) as [Hasc Hdesc].
    destruct (Table.sortDirection st); congruence.
  - intros a b _ _.
    destruct (text_after _ a b Hfield) as [Hasc Hdesc].
    destruct (text_after _ b a Hfield) as [Hasc' Hdesc'].
    destruct (Table.sortDirection st);
      [rewrite Hasc, Hasc' | rewrite Hdesc, Hdesc']; apply ltb_asym.
  - intros a b c _ _ _.
    destruct (text_after _ a b Hfield) as [Hab Hab'].
    destruct (text_after _ b c Hfield) as [Hbc Hbc'].
    destruct (text_after _ a c Hfield) as [Hac Hac'].
    destruct (Table.sortDirection st).
    + rewrite Hab, Hbc, Hac. intros H1 H2. exact (ltb_neg_trans _ _ _ H2 H1).
    + rewrite Hab', Hbc', Hac'. apply ltb_neg_trans.
  - by apply Forall_forall.
Qed.
End TableSort.

(* ===================================================================== *)
(** * Dictionaries and frequency counts *)
(* ===================================================================== *)

Section Dictionaries.
Import JS Spec.
Context {V : Type}.

Lemma dictGet_dictSet (k k' : string) (v : V) (o : Dict V) :
  dictGet k' (dictSet k v o) = if decide (k' = k) then Some v else dictGet k' o.
Proof.
  induction o as [|[k0 v0] o IH]; simpl.
  - destruct (String.eqb_spec k' k); by case_decide.
  - destruct (String.eqb_spec k k0) as [->|Hne]; simpl.
    + destruct (String.eqb_spec k' k0); by case_decide.
    + destruct (String.eqb_spec k' k0) as [->|Hne'].
      * by rewrite decide_False by congruence.
      * exact IH.
Qed.

Lemma dictGet_None (k : string) (o : Dict V) :
  dictGet k o = None ↔ k ∉ map fst o.
Proof.
  induction o as [|[k0 v0] o IH]; simpl.
  - split; [intros _; apply not_elem_of_nil | done].
  - rewrite not_elem_of_cons.
    destruct (String.eqb_spec k k0) as [->|Hne]; [split; [done | tauto]|].
    rewrite IH. tauto.
Qed.

Lemma dictSet_keys (k : string) (v : V) (o : Dict V) :
  map fst (dictSet k v o)
  = if decide (k ∈ map fst o) then map fst o else map fst o ++ [k].
Proof.
  induction o as [|[k0 v0] o IH]; cbn [map dictSet fst].
  - by rewrite decide_False by apply not_elem_of_nil.
  - destruct (String.eqb_spec k k0) as [->|Hne]; cbn [map fst].
    + by rewrite decide_True by (by left).
    + rewrite IH. destruct (decide (k ∈ map fst o)) as [Hin|Hnin].
      * by rewrite decide_True by (by right).
      * rewrite decide_False; [done|]. rewrite not_elem_of_cons. tauto.
Qed.

Lemma dictSet_NoDup (k : string) (v : V) (o : Dict V) :
  NoDup (map fst o) → NoDup (map fst (dictSet k v o)).
Proof.
  intros Hnodup. rewrite dictSet_keys. case_decide; [done|].
  apply NoDup_app. split; [done|]. split; [|apply NoDup_singleton].
  intros x Hx Hx'. apply list_elem_of_singleton in Hx' as ->. done.
Qed.

Lemma dictGet_elem_of (k : string) (v : V) (o : Dict V) :
  NoDup (map fst o) → (k, v) ∈ o ↔ dictGet k o = Some v.
Proof.
  induction o as [|[k0 v0] o IH]; simpl; intros Hnodup.
  - split; [intros H; by apply not_elem_of_nil in H | done].
  - apply NoDup_cons in Hnodup as [Hk0 Hnodup].
    rewrite elem_of_cons, (IH Hnodup).
    destruct (String.eqb_spec k k0) as [->|Hne].
    + split; [intros [[= ->]|Hget]; [done|] | intros [= ->]; by left].
      exfalso. apply Hk0.
      destruct (decide (k0 ∈ map fst o)) as [?|Hnin]; [done|].
      apply dictGet_None in Hnin. congruence.
    + split; [intros [[= -> _]|Hget]; [done | exact Hget] | by right].
Qed.
End Dictionaries.

Section Counting.
Import JS Spec.

Lemma occurrences_snoc (k v : string) (values : list string) :
  occurrences k (values ++ [v])
  = (occurrences k values + if decide (v = k) then 1 else 0)%nat.
Proof.
  unfold occurrences. rewrite filter_app, length_app, filter_cons, filter_nil.
  by case_decide.
Qed.

Lemma occurrences_pos (k : string) (values : list string) :
  k ∈ values ↔ (0 < occurrences k values)%nat.
Proof.
  unfold occurrences. induction values as [|v values IH].
  - simpl. split; [intros H; by apply not_elem_of_nil in H | lia].
  - rewrite filter_cons, elem_of_cons. case_decide; simpl.
    + subst. split; [lia | by left].
    + rewrite IH. split; [intros [?|?]; [congruence | done] | by right].
Qed.

Lemma increment_counted (frequency : Dict nat) (seen : list string) (v : string) :
  counted frequency seen →
  counted (Dashboard.increment frequency v) (seen ++ [v]).
Proof.
  intros [Hnodup Hget]. unfold Dashboard.increment. split.
  - by apply dictSet_NoDup.
  - intros k. rewrite dictGet_dictSet, occurrences_snoc.
    destruct (decide (k = v)) as [->|Hne].
    + rewrite (decide_True (P := v ∈ seen ++ [v]))
        by (apply elem_of_app; right; by left).
      rewrite (decide_True (P := v = v)) by reflexivity. rewrite Hget.
      destruct (decide (v ∈ seen)) as [Hin|Hnin]; simpl; [done|].
      destruct (occurrences v seen) eqn:Hocc; [done|].
      exfalso. apply Hnin, occurrences_pos. lia.
    + rewrite (decide_False (P := v = k)) by congruence. rewrite Hget.
      destruct (decide (k ∈ seen)) as [Hin|Hnin].
      * rewrite decide_True by (apply elem_of_app; by left). f_equal. lia.
      * rewrite decide_False; [done|].
        rewrite elem_of_app, list_elem_of_singleton. tauto.
Qed.

Lemma fold_increment_counted (values seen : list string) (frequency : Dict nat) :
  counted frequency seen →
  counted (fold_left Dashboard.increment values frequency) (seen ++ values).
Proof.
  revert seen frequency. induction values as [|v values IH]; intros seen frequency H.
  - by rewrite app_nil_r.
  - simpl. rewrite (cons_middle v), app_assoc. apply IH.
    by apply increment_counted.
Qed.

Lemma countNonBlank_fold (field : FloodControlHit → option string)
    (hits : list FloodControlHit) :
  Dashboard.countNonBlank field hits
  = fold_left Dashboard.increment (facetValues field hits) [].
Proof.
  unfold Dashboard.countNonBlank. generalize (@nil (string * nat)).
  induction hits as [|hit hits IH]; intros frequency; [reflexivity|].
  simpl. rewrite IH. unfold facetValues. simpl.
  destruct (field hit) as [v|]; [|reflexivity].
  rewrite nonEmpty_trim_guard. by destruct (nonEmpty (trim v)).
Qed.

Lemma countNonBlank_counted (field : FloodControlHit → option string)
    (hits : list FloodControlHit) :
  counted (Dashboard.countNonBlank field hits) (facetValues field hits).
Proof.
  rewrite countNonBlank_fold.
  apply (fold_increment_counted _ [] []). split; [constructor|].
  intros k. by rewrite decide_False by apply not_elem_of_nil.
Qed.

Lemma counted_elem_of (frequency : Dict nat) (seen : list string)
    (k : string) (c : nat) :
  counted frequency seen →
  (k, c) ∈ frequency ↔ k ∈ seen ∧ c = occurrences k seen.
Proof.
  intros [Hnodup Hget]. rewrite (dictGet_elem_of _ _ _ Hnodup), Hget.
  case_decide; split; try intros [= <-]; try tauto; try congruence.
  intros [_ ->]. done.
Qed.

Lemma counted_length (frequency : Dict nat) (seen : list string) :
  counted frequency seen → length frequency = length (remove_dups seen).
Proof.
  intros Hcounted. pose proof Hcounted as [Hnodup Hget].
  rewrite <- (length_map fst frequency). apply Permutation_length.
  apply NoDup_Permutation; [exact Hnodup | apply NoDup_remove_dups|].
  intros k. rewrite elem_of_remove_dups.
  split.
  - intros Hk. apply list_elem_of_In, in_map_iff in Hk as ([k' c] & <- & Hin).
    apply list_elem_of_In in Hin. by apply (counted_elem_of _ _ _ _ Hcounted) in Hin as [? _].
  - intros Hk. apply list_elem_of_In, in_map_iff.
    exists (k, occurrences k seen). split; [done|].
    apply list_elem_of_In. by apply (counted_elem_of _ _ _ _ Hcounted).
Qed.

Lemma entries_perm {V : Type} (o : Dict V) : entries o ≡ₚ o.
Proof.
  unfold entries. rewrite sort_perm.
  induction o as [|e o IH]; [reflexivity|].
  cbn [filter list_filter].
  destruct (isArrayIndex e); simpl.
  - by constructor.
  - rewrite <- Permutation_middle. by constructor.
Qed.
End Counting.

(* ===================================================================== *)
(** * Top-10 aggregation *)
(* ===================================================================== *)

Section TopTen.
Import JS Spec.

Lemma slice_0_10 {B : Type} (xs : list B) : slice 0 10 xs = take 10 xs.
Proof.
  unfold slice. simpl.
  replace (Z.to_nat (Z.min 10 (Z.of_nat (length xs)) - Z.min 0 (Z.of_nat (length xs))))
    with (Nat.min 10 (length xs)) by lia.
  replace (Z.to_nat (Z.min 0 (Z.of_nat (length xs)))) with 0%nat by lia.
  rewrite drop_0. destruct (decide (10 ≤ length xs)%nat).
  - f_equal. lia.
  - rewrite !take_ge by lia. reflexivity.
Qed.

Lemma count_after {B : Type} (cnt : B → nat) (a b : B) :
  sortsAfter (λ a b, numSub (ofNat (cnt b)) (ofNat (cnt a))) a b = true
  ↔ (cnt a < cnt b)%nat.
Proof.
  unfold sortsAfter. rewrite isPositive_numSub. unfold ofNat, ofZ. simpl.
  rewrite <- Zlt_Qlt. lia.
Qed.

Lemma NoDup_counts_comparable {B : Type} (cnt : B → nat) (xs : list B) :
  NoDup (map cnt xs) →
  StronglySorted
    (comparable (λ a b, numSub (ofNat (cnt b)) (ofNat (cnt a)))) xs.
Proof.
  induction xs as [|x xs IH]; simpl; intros Hnodup; constructor.
  - apply IH. by apply NoDup_cons in Hnodup as [_ ?].
  - apply NoDup_cons in Hnodup as [Hx _]. apply Forall_forall. intros y Hy.
    unfold comparable. rewrite !(count_after cnt).
    assert (cnt x ≠ cnt y) as Hne.
    { intros Heq. apply Hx. rewrite Heq.
      apply list_elem_of_In, in_map, list_elem_of_In, Hy. }
    lia.
Qed.

(** The aggregation the three charts share: entries of the counting
    dictionary, turned into chart items, sorted by descending count and
    cut to ten. *)
Lemma top10_of_counts {B : Type} (item : string * nat → B)
    (key : B → string) (cnt : B → nat)
    (field : FloodControlHit → option string) (hits : list FloodControlHit) :
  (∀ e, key (item e) = e.1) → (∀ e, cnt (item e) = e.2) →
  distinctFrequencies field hits →
  length (slice 0 10
            (sort (λ a b, numSub (ofNat (cnt b)) (ofNat (cnt a)))
               (map item (entries (Dashboard.countNonBlank field hits)))))
  = Nat.min 10 (length (remove_dups (facetValues field hits)))
  ∧ StronglySorted (λ a b, (cnt b < cnt a)%nat)
      (slice 0 10
         (sort (λ a b, numSub (ofNat (cnt b)) (ofNat (cnt a)))
            (map item (entries (Dashboard.countNonBlank field hits)))))
  ∧ Forall (λ x, key x ∈ facetValues field hits
                 ∧ cnt x = frequency field hits (key x))
      (slice 0 10
         (sort (λ a b, numSub (ofNat (cnt b)) (ofNat (cnt a)))
            (map item (entries (Dashboard.countNonBlank field hits))))).
Proof.
  intros Hkey Hcnt Hdistinct.
  pose proof (countNonBlank_counted field hits) as Hcounted.
  set (dict := Dashboard.countNonBlank field hits) in *.
  set (order := λ a b : B, numSub (ofNat (cnt b)) (ofNat (cnt a))).
  assert (∀ x, x ∈ map item (entries dict) →
               key x ∈ facetValues field hits
               ∧ cnt x = frequency field hits (key x)) as Hitems.
  { intros x Hx. apply list_elem_of_In, in_map_iff in Hx as ([k c] & <- & Hin).
    apply list_elem_of_In in Hin. rewrite entries_perm in Hin.
    apply (counted_elem_of _ _ _ _ Hcounted) in Hin as [Hk ->].
    by rewrite Hkey, Hcnt. }
  assert (NoDup (map cnt (map item (entries dict)))) as Hnodup.
  { rewrite map_map. erewrite map_ext; [|intros e; apply Hcnt].
    rewrite entries_perm.
    apply (NoDup_fmap_2_strong snd).
    - intros [k1 c1] [k2 c2] H1 H2 Heq. simpl in Heq. subst c2.
      apply (counted_elem_of _ _ _ _ Hcounted) in H1 as [Hk1 Hc1].
      apply (counted_elem_of _ _ _ _ Hcounted) in H2 as [Hk2 Hc2].
      destruct (decide (k1 = k2)) as [->|Hne]; [done|].
      exfalso. apply (Hdistinct k1 k2 Hk1 Hk2 Hne).
      unfold frequency. congruence.
    - destruct Hcounted as [Hkeys _]. by apply NoDup_fmap_1 in Hkeys. }
  rewrite slice_0_10.
  split; [|split].
  - rewrite length_take, sort_length, length_map.
    rewrite (Permutation_length (entries_perm dict)).
    by rewrite (counted_length _ _ Hcounted).
  - apply (StronglySorted_app_1_l _ _ (drop 10 (sort order (map item (entries dict))))).
    rewrite take_drop.
    eapply StronglySorted_mono;
      [| apply (sort_strict order); [| by apply NoDup_counts_comparable]].
    + intros a b Hab. simpl in Hab. by apply (count_after cnt) in Hab.
    + intros a b c. unfold order. rewrite !(count_after cnt). lia.
  - apply Forall_take. apply Forall_forall. intros x Hx.
    apply Hitems. by rewrite sort_perm in Hx.
Qed.

(** C9, as the code has it. Whenever the charts use live data and the
    values of the facet have pairwise distinct frequencies in the sample,
    the region, type-of-work and contractor charts each show the values
    with their frequencies in strictly descending order of count, as many
    as there are distinct non-blank values but at most ten; so exactly
    ten when the sample has at least ten distinct non-blank values. *)
Theorem top10_by_descending_count
    (regionData typeOfWorkData contractorData : list Dashboard.DataItem)
    (results : option Z) (hits : list FloodControlHit) :
  Dashboard.isFiltered (Dashboard.totalHitsOf results) = true →
  (distinctFrequencies Region hits →
     topTenOf Dashboard.Bar.name Dashboard.Bar.Projects Region hits
       (Dashboard.RegionChart regionData results hits))
  ∧ (distinctFrequencies TypeofWork hits →
     topTenOf Dashboard.value Dashboard.count TypeofWork hits
       (Dashboard.TypeOfWorkChart typeOfWorkData results hits))
  ∧ (distinctFrequencies Contractor hits →
     topTenOf Dashboard.ContractorBar.fullName Dashboard.ContractorBar.Projects
       Contractor hits
       (Dashboard.ContractorChart contractorData results hits))
  ∧ (distinctFrequencies Region hits →
     (10 ≤ length (remove_dups (facetValues Region hits)))%nat →
     length (Dashboard.RegionChart regionData results hits) = 10%nat).
Proof.
  intros Hlive.
  unfold Dashboard.RegionChart, Dashboard.TypeOfWorkChart,
    Dashboard.ContractorChart, topTenOf.
  rewrite Hlive.
  split; [|split; [|split]].
  - intros Hdistinct.
    apply (top10_of_counts
             (λ '(name, Projects),
                {| Dashboard.Bar.name := name; Dashboard.Bar.Projects := Projects |})
             Dashboard.Bar.name Dashboard.Bar.Projects);
      [by intros [] | by intros [] | exact Hdistinct].
  - intros Hdistinct.
    apply (top10_of_counts
             (λ '(value, count),
                {| Dashboard.value := value; Dashboard.count := count |})
             Dashboard.value Dashboard.count);
      [by intros [] | by intros [] | exact Hdistinct].
  - intros Hdistinct.
    apply (top10_of_counts
             (λ '(fullName, Projects),
                {| Dashboard.ContractorBar.name := Dashboard.shortName fullName;
                   Dashboard.ContractorBar.Projects := Projects;
                   Dashboard.ContractorBar.fullName := fullName |})
             Dashboard.ContractorBar.fullName Dashboard.ContractorBar.Projects);
      [by intros [] | by intros [] | exact Hdistinct].
  - intros Hdistinct Hten.
    destruct (top10_of_counts
             (λ '(name, Projects),
                {| Dashboard.Bar.name := name; Dashboard.Bar.Projects := Projects |})
             Dashboard.Bar.name Dashboard.Bar.Projects Region hits)
      as [Hlen _]; [by intros [] | by intros [] | exact Hdistinct |].
    rewrite Hlen. lia.
Qed.

(** Three regions seen three times, twice and once. *)
Lemma top10_by_descending_count_witness :
  topTenOf Dashboard.Bar.name Dashboard.Bar.Projects Region
    (map hitInRegion ["NCR"; "Region I"; "NCR"; "Region II"; "Region I"; "NCR"])
    (Dashboard.RegionChart [] (Some 6)
       (map hitInRegion ["NCR"; "Region I"; "NCR"; "Region II"; "Region I"; "NCR"])).
Proof.
  refine (proj1 (top10_by_descending_count [] [] [] (Some 6)
    (map hitInRegion ["NCR"; "Region I"; "NCR"; "Region II"; "Region I"; "NCR"])
    eq_refl) _).
  intros v w Hv Hw Hne.
  change (facetValues Region
            (map hitInRegion ["NCR"; "Region I"; "NCR"; "Region II"; "Region I"; "NCR"]))
    with ["NCR"; "Region I"; "NCR"; "Region II"; "Region I"; "NCR"] in Hv, Hw.
  repeat (apply elem_of_cons in Hv as [->|Hv]);
    try (by apply not_elem_of_nil in Hv);
    repeat (apply elem_of_cons in Hw as [->|Hw]);
    try (by apply not_elem_of_nil in Hw);
    try done; vm_compute; lia.
Defined.

(** With eleven regions of frequencies 1 to 11 the chart shows the ten
    most frequent, from 11 projects down to 2. *)
Lemma top10_eleven_regions :
  map Dashboard.Bar.Projects (Dashboard.RegionChart [] (Some 66) elevenRegions)
  = [11; 10; 9; 8; 7; 6; 5; 4; 3; 2]%nat
  ∧ map Dashboard.Bar.name
        (take 2 (Dashboard.RegionChart [] (Some 66) elevenRegions))
    = ["Region XI"; "Region X"].
Proof. split; vm_compute; reflexivity. Qed.

(** C9 as stated fails on ten hits of one region: the sample has size
    ten, its single facet value has a frequency distinct from every
    other, and the chart has one entry. *)
Lemma top10_single_value :
  length (map hitInRegion (replicate 10 "NCR")) = 10%nat
  ∧ distinctFrequencies Region (map hitInRegion (replicate 10 "NCR"))
  ∧ Dashboard.RegionChart [] (Some 10) (map hitInRegion (replicate 10 "NCR"))
    = [{| Dashboard.Bar.name := "NCR"; Dashboard.Bar.Projects := 10 |}]
  ∧ length (Dashboard.RegionChart [] (Some 10)
              (map hitInRegion (replicate 10 "NCR"))) ≠ 10%nat.
Proof.
  split; [reflexivity|]. split; [|split; [reflexivity | vm_compute; lia]].
  intros v w Hv Hw Hne.
  change (facetValues Region (map hitInRegion (replicate 10 "NCR")))
    with (replicate 10 "NCR") in Hv, Hw.
  apply elem_of_replicate in Hv as [-> _], Hw as [-> _]. done.
Qed.
End TopTen.

(* ===================================================================== *)
(** * Dropdown options *)
(* ===================================================================== *)

Section DropdownOptions.
Import JS.

Lemma dropPrefix_refl (s : string) : dropPrefix s s = Some EmptyString.
Proof.
  induction s as [|c s IH]; simpl; [reflexivity|].
  by rewrite Ascii.eqb_refl.
Qed.

Lemma includes_refl (s : string) : includes s s = true.
Proof. destruct s; simpl; [reflexivity|]. by rewrite Ascii.eqb_refl, dropPrefix_refl. Qed.

Lemma nonEmpty_toLowerCase (s : string) : nonEmpty (toLowerCase s) = nonEmpty s.
Proof. by destruct s. Qed.

Lemma filteredOptions_sublist (searchable : bool) (searchTerm : string)
    (options : list LookupData.Item) :
  sublist (filteredOptions searchable searchTerm options) options.
Proof.
  unfold filteredOptions.
  destruct (searchable && nonEmpty searchTerm); [apply sublist_filter | reflexivity].
Qed.

(** X1. The options a dropdown lists are always a sublist of the options
    it was given; all of them when the dropdown is not searchable or no
    term is typed; two terms that differ only in letter case list the
    same options; and an option whose value is the term, letter case
    apart, is always listed. *)
Theorem filteredOptions_narrows (searchable : bool) (searchTerm : string)
    (options : list LookupData.Item) :
  sublist (filteredOptions searchable searchTerm options) options
  ∧ (searchable = false ∨ searchTerm = EmptyString →
     filteredOptions searchable searchTerm options = options)
  ∧ (∀ other, toLowerCase other = toLowerCase searchTerm →
     filteredOptions searchable other options
     = filteredOptions searchable searchTerm options)
  ∧ (∀ option, option ∈ options →
     toLowerCase (LookupData.value option) = toLowerCase searchTerm →
     option ∈ filteredOptions searchable searchTerm options).
Proof.
  split; [apply filteredOptions_sublist|].
  unfold filteredOptions. repeat split.
  - intros [-> | ->]; [reflexivity | by rewrite andb_false_r].
  - intros other Hcase.
    by rewrite <- (nonEmpty_toLowerCase other), Hcase, nonEmpty_toLowerCase.
  - intros option Hin Hvalue.
    destruct (searchable && nonEmpty searchTerm); [|exact Hin].
    apply list_elem_of_filter. split; [|exact Hin].
    rewrite Hvalue. apply includes_refl.
Qed.

(** Typing CEBU in a searchable dropdown lists the option Cebu. *)
Lemma filteredOptions_narrows_witness :
  {| LookupData.value := "Cebu"; LookupData.count := 5;
     LookupData.regCode := Some "07" |}
  ∈ filteredOptions true "CEBU"
      [{| LookupData.value := "Bohol"; LookupData.count := 2;
          LookupData.regCode := Some "07" |};
       {| LookupData.value := "Cebu"; LookupData.count := 5;
          LookupData.regCode := Some "07" |}].
Proof.
  apply (proj2 (proj2 (proj2 (filteredOptions_narrows true "CEBU" _)))).
  - repeat constructor.
  - reflexivity.
Defined.

Lemma provinceOptions_region (regionData provinceData : list LookupData.Item)
    (filters filters' : FilterState) :
  filters !! "Region" = filters' !! "Region" →
  provinceOptions regionData provinceData filters
  = provinceOptions regionData provinceData filters'.
Proof. intros H. unfold provinceOptions. by rewrite H. Qed.

Lemma ncr_filters_disjoint (item : LookupData.Item) :
  LookupData.regCode item = Some "13" →
  truthy (LookupData.regCode item) = false → False.
Proof. intros ->. discriminate. Qed.

Lemma filter_app_submseteq {A : Type} (P Q : A → Prop)
    `{∀ x, Decision (P x)} `{∀ x, Decision (Q x)} (xs : list A) :
  (∀ x, P x → Q x → False) → filter P xs ++ filter Q xs ⊆+ xs.
Proof.
  intros Hdisjoint. induction xs as [|x xs IH]; [reflexivity|].
  rewrite !filter_cons.
  destruct (decide (P x)) as [HP|HP], (decide (Q x)) as [HQ|HQ].
  - destruct (Hdisjoint _ HP HQ).
  - simpl. by apply submseteq_skip.
  - rewrite <- Permutation_middle. by apply submseteq_skip.
  - by apply submseteq_cons.
Qed.

(** X2. Whatever the region, the provinces offered are entries of the
    province lookup, none offered more often than it occurs there; they
    depend on the Region facet alone; with no region selected all
    provinces are offered; and for the National Capital Region the
    provinces offered are exactly the entries whose region code is 13 and
    the entries without a region code. *)
Theorem provinceOptions_offers (regionData provinceData : list LookupData.Item)
    (filters : FilterState) :
  provinceOptions regionData provinceData filters ⊆+ provinceData
  ∧ (∀ filters', filters' !! "Region" = filters !! "Region" →
     provinceOptions regionData provinceData filters'
     = provinceOptions regionData provinceData filters)
  ∧ (truthy (filters !! "Region") = false →
     provinceOptions regionData provinceData filters = provinceData)
  ∧ (filters !! "Region" = Some "National Capital Region" →
     ∀ item, item ∈ provinceOptions regionData provinceData filters
             ↔ item ∈ provinceData
               ∧ (LookupData.regCode item = Some "13"
                  ∨ truthy (LookupData.regCode item) = false)).
Proof.
  split; [|split; [|split]].
  - unfold provinceOptions.
    destruct (bool_decide _).
    + apply filter_app_submseteq. intros item. apply ncr_filters_disjoint.
    + destruct (truthy _); [|reflexivity].
      apply sublist_submseteq, sublist_filter.
  - intros filters' H. by apply provinceOptions_region.
  - intros Hnone. unfold provinceOptions. rewrite Hnone.
    rewrite bool_decide_eq_false_2; [reflexivity|].
    intros Heq. by rewrite Heq in Hnone.
  - intros Hncr item. unfold provinceOptions.
    rewrite bool_decide_eq_true_2 by exact Hncr.
    rewrite elem_of_app, !list_elem_of_filter. tauto.
Qed.

(** For the National Capital Region, Metro Manila (code 13) is offered
    out of a lookup that also holds Cebu (code 07). *)
Lemma provinceOptions_offers_witness :
  {| LookupData.value := "Metro Manila"; LookupData.count := 3;
     LookupData.regCode := Some "13" |}
  ∈ provinceOptions []
      [{| LookupData.value := "Metro Manila"; LookupData.count := 3;
          LookupData.regCode := Some "13" |};
       {| LookupData.value := "Cebu"; LookupData.count := 5;
          LookupData.regCode := Some "07" |}]
      (Table.handleFilterChange initialFilters "Region" "National Capital Region").
Proof.
  apply (proj2 (proj2 (proj2 (provinceOptions_offers [] _ _))));
    [reflexivity|].
  split; [repeat constructor | by left].
Defined.

Lemma NoDup_map_inj {A B : Type} (f : A → B) (xs : list A) (x y : A) :
  NoDup (map f xs) → x ∈ xs → y ∈ xs → f x = f y → x = y.
Proof.
  induction xs as [|z xs IH]; simpl; intros Hnodup Hx Hy Heq.
  - by apply not_elem_of_nil in Hx.
  - apply NoDup_cons in Hnodup as [Hz Hnodup].
    apply elem_of_cons in Hx as [->|Hx], Hy as [->|Hy]; [reflexivity | | |by apply IH].
    + exfalso. apply Hz. rewrite Heq.
      apply list_elem_of_In, in_map, list_elem_of_In, Hy.
    + exfalso. apply Hz. rewrite <- Heq.
      apply list_elem_of_In, in_map, list_elem_of_In, Hx.
Qed.

(** X3. For a selected region other than the National Capital Region,
    the provinces offered are the entries of the province lookup whose
    region code is that of the region: with distinct region names in the
    region lookup, the code of the entry of that name; and when the
    region lookup has no entry of that name, or the entry has no code,
    only the provinces without a region code. *)
Theorem provinceOptions_by_region_code
    (regionData provinceData : list LookupData.Item)
    (filters : FilterState) (region : string) :
  filters !! "Region" = Some region → nonEmpty region = true →
  region ≠ "National Capital Region" →
  sublist (provinceOptions regionData provinceData filters) provinceData
  ∧ (region ∉ map LookupData.value regionData →
     ∀ item, item ∈ provinceOptions regionData provinceData filters
             ↔ item ∈ provinceData ∧ LookupData.regCode item = None)
  ∧ (NoDup (map LookupData.value regionData) →
     ∀ entry, entry ∈ regionData → LookupData.value entry = region →
     ∀ item, item ∈ provinceOptions regionData provinceData filters
             ↔ item ∈ provinceData
               ∧ LookupData.regCode item = LookupData.regCode entry).
Proof.
  intros Hregion Hnonempty Hncr. unfold provinceOptions.
  rewrite Hregion. rewrite bool_decide_eq_false_2 by congruence.
  simpl. rewrite Hnonempty. unfold arrayFind.
  split; [apply sublist_filter|]. split.
  - intros Hunknown item.
    destruct (find _ regionData) as [entry|] eqn:Hfind.
    + exfalso. apply find_some in Hfind as [Hin Hvalue].
      apply bool_decide_eq_true_1 in Hvalue. injection Hvalue as <-.
      apply Hunknown. by apply list_elem_of_In, in_map.
    + rewrite list_elem_of_filter. tauto.
  - intros Hnodup entry Hentry Hvalue item.
    destruct (find _ regionData) as [entry'|] eqn:Hfind.
    + apply find_some in Hfind as [Hin Hvalue'].
      apply bool_decide_eq_true_1 in Hvalue'. injection Hvalue' as Hvalue'.
      assert (entry' = entry) as ->.
      { apply (NoDup_map_inj LookupData.value regionData); [done| |done|congruence].
        by apply list_elem_of_In. }
      rewrite list_elem_of_filter. tauto.
    + exfalso. pose proof (find_none _ _ Hfind entry) as Hnone.
      simpl in Hnone. rewrite bool_decide_eq_true_2 in Hnone by (by rewrite Hvalue).
      specialize (Hnone ltac:(by apply list_elem_of_In)). discriminate.
Qed.

(** Region VII selected: Cebu (code 07) is offered. *)
Lemma provinceOptions_by_region_code_witness :
  {| LookupData.value := "Cebu"; LookupData.count := 5;
     LookupData.regCode := Some "07" |}
  ∈ provinceOptions
      [{| LookupData.value := "Region VII"; LookupData.count := 7;
          LookupData.regCode := Some "07" |}]
      [{| LookupData.value := "Metro Manila"; LookupData.count := 3;
          LookupData.regCode := Some "13" |};
       {| LookupData.value := "Cebu"; LookupData.count := 5;
          LookupData.regCode := Some "07" |}]
      (Table.handleFilterChange initialFilters "Region" "Region VII").
Proof.
  eapply (proj2 (proj2 (provinceOptions_by_region_code _ _ _ "Region VII" _ _ _))).
  - repeat constructor. apply not_elem_of_nil.
  - repeat constructor.
  - reflexivity.
  - split; [repeat constructor | reflexivity].
  Unshelve.
  + reflexivity.
  + reflexivity.
  + discriminate.
Defined.

(** ** The sidebar keeps the selection within the options *)

Section SidebarInvariant.
Variables infraYearData regionData provinceData : list LookupData.Item.
Variables typeOfWorkData deoData legislativeDistrictData : list LookupData.Item.

Local Abbreviation dropdownOf :=
  (Table.dropdown infraYearData regionData provinceData
     typeOfWorkData deoData legislativeDistrictData).

Lemma dropdown_facet (filters : FilterState) (filterName : string)
    (searchable : bool) (options : list LookupData.Item) :
  dropdownOf filters filterName = Some (searchable, options) →
  filterName ∈ Spec.facets.
Proof.
  unfold Table.dropdown, Spec.facets.
  repeat match goal with
         | |- context [String.eqb filterName ?facet] =>
             destruct (String.eqb_spec filterName facet) as [->|_];
             [intros _; repeat constructor|]
         end.
  discriminate.
Qed.

Lemma dropdown_same_region (filters filters' : FilterState) (filterName : string) :
  filters !! "Region" = filters' !! "Region" →
  dropdownOf filters filterName = dropdownOf filters' filterName.
Proof.
  intros H. unfold Table.dropdown.
  by rewrite (provinceOptions_region _ _ _ _ H).
Qed.

Lemma dropdown_not_province (filters filters' : FilterState) (filterName : string) :
  filterName ≠ "Province" →
  dropdownOf filters filterName = dropdownOf filters' filterName.
Proof.
  intros H. unfold Table.dropdown.
  apply String.eqb_neq in H. by rewrite H.
Qed.

Lemma dropdownChoice_listed (searchable : bool) (options : list LookupData.Item)
    (value : string) :
  Table.dropdownChoice searchable options value →
  value = EmptyString ∨ value ∈ map LookupData.value options.
Proof.
  intros [|searchTerm option Hin]; [by left | right].
  apply list_elem_of_In, in_map, list_elem_of_In.
  eapply elem_of_sublist; [exact Hin|].
  apply filteredOptions_sublist.
Qed.

(** X4. Whatever sequence of choices is made in the six dropdowns of the
    sidebar, every facet keeps a value, and that value is the empty
    string or the value of an option its dropdown is given now; so the
    selected province is always unset or a province offered for the
    region that is selected. *)
Theorem sidebar_selection_within_options (filters : FilterState) :
  Table.reachableFilters infraYearData regionData provinceData
    typeOfWorkData deoData legislativeDistrictData filters →
  ∀ (filterName : string) (searchable : bool) (options : list LookupData.Item),
    dropdownOf filters filterName = Some (searchable, options) →
    ∃ value, filters !! filterName = Some value
             ∧ (value = EmptyString ∨ value ∈ map LookupData.value options).
Proof.
  induction 1 as [|filters changed value searchable' options' _ IH Hdropdown Hchoice];
    intros filterName searchable options Hname.
  - exists EmptyString. split; [|by left].
    apply dropdown_facet in Hname. unfold Spec.facets in Hname.
    repeat (apply elem_of_cons in Hname as [->|Hname]; [reflexivity|]).
    by apply not_elem_of_nil in Hname.
  - apply dropdownChoice_listed in Hchoice.
    destruct (decide (changed = "Region")) as [->|Hchanged].
    + destruct (table_handleFilterChange_region filters value) as [Hprovince Hregion].
      destruct (decide (filterName = "Province")) as [->|Hnotprovince].
      { exists EmptyString. split; [exact Hprovince | by left]. }
      rewrite (dropdown_not_province _ filters) in Hname by done.
      destruct (decide (filterName = "Region")) as [->|Hnotregion].
      { exists value. split; [exact Hregion|]. congruence. }
      destruct (IH _ _ _ Hname) as (old & Hold & Hlisted).
      exists old. split; [|exact Hlisted].
      unfold Table.handleFilterChange. simpl.
      by rewrite !lookup_insert_ne.
    + destruct (table_handleFilterChange_other filters changed value "Region" Hchanged)
        as [_ Hregion].
      rewrite (dropdown_same_region _ filters) in Hname
        by (apply Hregion; congruence).
      destruct (decide (filterName = changed)) as [->|Hother].
      { exists value. split.
        - apply (table_handleFilterChange_other filters changed value changed Hchanged).
        - congruence. }
      destruct (IH _ _ _ Hname) as (old & Hold & Hlisted).
      exists old. split; [|exact Hlisted].
      by rewrite (proj2 (table_handleFilterChange_other filters changed value
                           filterName Hchanged)).
Qed.
End SidebarInvariant.

(** Region VII is chosen on the page just loaded: no province is
    selected any more. *)
Lemma sidebar_selection_within_options_witness :
  let regionVII := {| LookupData.value := "Region VII"; LookupData.count := 7;
                      LookupData.regCode := Some "07" |} in
  let cebu := {| LookupData.value := "Cebu"; LookupData.count := 5;
                 LookupData.regCode := Some "07" |} in
  ∃ value,
    Table.handleFilterChange initialFilters "Region" "Region VII" !! "Province"
      = Some value
    ∧ (value = EmptyString ∨ value ∈ map LookupData.value [cebu]).
Proof.
  intros regionVII cebu.
  eapply (sidebar_selection_within_options [] [regionVII] [cebu] [] [] []
            _ _ "Province" true).
  Unshelve.
  - reflexivity.
  - eapply (Table.filters_choice [] [regionVII] [cebu] [] [] []
              initialFilters "Region" "Region VII" true [regionVII]).
    + apply Table.filters_initial.
    + reflexivity.
    + apply (Table.choose_option true [regionVII] EmptyString regionVII).
      repeat constructor.
Defined.

End DropdownOptions.

(* ===================================================================== *)
(** * Filter changes, the predicate and the title together *)
(* ===================================================================== *)

Section FilterComposition.
Import JS.

Local Ltac by_key facet other k :=
  apply map_eq; intros k; unfold Table.handleFilterChange;
  repeat match goal with
         | |- context [String.eqb ?a ?b] => destruct (String.eqb_spec a b)
         end;
  destruct (decide (k = "Province")); destruct (decide (k = "Region"));
  destruct (decide (k = facet)); destruct (decide (k = other));
  simplify_map_eq; try done.

(** X5. Two changes of the same facet leave what the second alone
    leaves; changes of two different facets can be made in either
    order, unless one is Region and the other Province; and a province
    chosen after the region stays selected with the region. *)
Theorem handleFilterChange_composition (filters : FilterState)
    (facet other value value' : string) :
  Table.handleFilterChange (Table.handleFilterChange filters facet value) facet value'
  = Table.handleFilterChange filters facet value'
  ∧ (facet ≠ other →
     ¬ (facet = "Region" ∧ other = "Province") →
     ¬ (facet = "Province" ∧ other = "Region") →
     Table.handleFilterChange (Table.handleFilterChange filters facet value) other value'
     = Table.handleFilterChange (Table.handleFilterChange filters other value') facet value)
  ∧ Table.handleFilterChange (Table.handleFilterChange filters "Region" value)
      "Province" value' !! "Province" = Some value'
  ∧ Table.handleFilterChange (Table.handleFilterChange filters "Region" value)
      "Province" value' !! "Region" = Some value.
Proof.
  split; [|split; [|split]].
  - by_key facet other k.
  - intros Hne Hrp Hpr. by_key facet other k; try (exfalso; tauto).
  - unfold Table.handleFilterChange. simpl. by simplify_map_eq.
  - unfold Table.handleFilterChange. simpl. by simplify_map_eq.
Qed.

(** The year and the type of work, chosen in either order. *)
Lemma handleFilterChange_composition_witness :
  Table.handleFilterChange
    (Table.handleFilterChange initialFilters "InfraYear" "2023")
    "TypeofWork" "Construction of Dike"
  = Table.handleFilterChange
      (Table.handleFilterChange initialFilters "TypeofWork" "Construction of Dike")
      "InfraYear" "2023".
Proof.
  apply (proj1 (proj2 (handleFilterChange_composition initialFilters
                         "InfraYear" "TypeofWork" "2023" "Construction of Dike"))).
  - discriminate.
  - intros [H _]. discriminate H.
  - intros [H _]. discriminate H.
Defined.
End FilterComposition.

Section PredicateShape.
Import JS.

Lemma string_length_append (s t : string) :
  String.length (s +:+ t) = (String.length s + String.length t)%nat.
Proof. induction s as [|c s IH]; simpl; [reflexivity | by rewrite IH]. Qed.

Lemma prefix_append (s t : string) : String.prefix s (s +:+ t) = true.
Proof.
  induction s as [|c s IH]; simpl; [by destruct t|].
  by destruct (ascii_dec c c).
Qed.

Lemma buildFilterString_join (filters : FilterState) :
  Table.buildFilterString filters
  = join " AND " (Spec.typeClause :: Spec.facetClauses filters).
Proof.
  unfold Table.buildFilterString, Spec.facetClauses.
  rewrite !pushIfSet_spec. unfold Table.push, Spec.facets.
  cbn [filter list_filter].
  repeat match goal with
         | |- context [Spec.facetIsSet filters ?f] =>
             destruct (Spec.facetIsSet filters f)
         end; reflexivity.
Qed.

Lemma filter_none {A : Type} (P : A → Prop) `{∀ x, Decision (P x)} (xs : list A) :
  (∀ x, x ∈ xs → ¬ P x) → filter P xs = [].
Proof.
  intros Hnone. induction xs as [|x xs IH]; [reflexivity|].
  cbn [filter list_filter]. rewrite decide_False by (apply Hnone; left).
  apply IH. intros y Hy. apply Hnone. by right.
Qed.

Lemma facetClauses_nil (filters : FilterState) :
  Spec.facetClauses filters = []
  ↔ ∀ facet, facet ∈ Spec.facets → Spec.facetIsSet filters facet = false.
Proof.
  unfold Spec.facetClauses. split.
  - intros Hnil facet Hin.
    destruct (Spec.facetIsSet filters facet) eqn:Hset; [|reflexivity].
    apply fmap_nil_inv in Hnil.
    assert (facet ∈ filter (λ facet, Spec.facetIsSet filters facet = true) Spec.facets)
      as Hfilter by (by apply list_elem_of_filter).
    rewrite Hnil in Hfilter. by apply not_elem_of_nil in Hfilter.
  - intros Hunset.
    assert (filter (λ facet, Spec.facetIsSet filters facet = true) Spec.facets = [])
      as ->; [|reflexivity].
    apply filter_none.
    intros facet Hin. rewrite (Hunset facet Hin). discriminate.
Qed.

(** X6. The filter sent to the search service is never the empty
    string, so the fallback to it is dead code; it always starts with
    the record-type clause, and is that clause alone exactly when no
    facet is set; and it depends on the six facets only. *)
Theorem buildFilterString_shape (filters : FilterState) :
  Table.buildFilterString filters ≠ EmptyString
  ∧ String.prefix Spec.typeClause (Table.buildFilterString filters) = true
  ∧ (Table.buildFilterString filters = Spec.typeClause
     ↔ ∀ facet, facet ∈ Spec.facets → Spec.facetIsSet filters facet = false)
  ∧ (∀ filters' : FilterState,
       (∀ facet, facet ∈ Spec.facets → filters' !! facet = filters !! facet) →
       Table.buildFilterString filters' = Table.buildFilterString filters).
Proof.
  rewrite buildFilterString_join. rewrite <- facetClauses_nil.
  split; [|split; [|split]].
  - destruct (Spec.facetClauses filters); discriminate.
  - destruct (Spec.facetClauses filters) as [|clause clauses];
      [reflexivity | apply prefix_append].
  - split; [|by intros ->].
    destruct (Spec.facetClauses filters) as [|clause clauses]; [reflexivity|].
    intros Heq. apply (f_equal String.length) in Heq.
    unfold join in Heq.
    change (String.concat " AND " (Spec.typeClause :: clause :: clauses))
      with (Spec.typeClause +:+ " AND " +:+ String.concat " AND " (clause :: clauses))
      in Heq.
    rewrite string_length_append in Heq. simpl in Heq. lia.
  - intros filters' Hsame. rewrite <- buildFilterString_join.
    unfold Table.buildFilterString.
    by rewrite !Hsame by (unfold Spec.facets; repeat constructor).
Qed.

(** A key the page does not know changes nothing in the predicate. *)
Lemma buildFilterString_shape_witness :
  Table.buildFilterString (<["Barangay" := "Poblacion"]> initialFilters)
  = Table.buildFilterString initialFilters.
Proof.
  apply (proj2 (proj2 (proj2 (buildFilterString_shape initialFilters)))).
  intros facet Hin. unfold Spec.facets in Hin.
  repeat (apply elem_of_cons in Hin as [->|Hin]; [reflexivity|]).
  by apply not_elem_of_nil in Hin.
Defined.
End PredicateShape.

(** ** FilterTitle *)

Section Title.
Import JS.

Lemma pushIfTruthy_spec (activeFilters : list string) (v : option string)
    (label : string → string) :
  Table.pushIfTruthy activeFilters v label
  = activeFilters ++ (if truthy v then [label (default EmptyString v)] else []).
Proof.
  unfold Table.pushIfTruthy, truthy.
  destruct v as [s|]; simpl; [|by rewrite app_nil_r].
  destruct (nonEmpty s); [reflexivity | by rewrite app_nil_r].
Qed.

Lemma facetIsSet_truthy (filters : FilterState) (facet : string) :
  Spec.facetIsSet filters facet = true → truthy (filters !! facet) = true.
Proof.
  unfold Spec.facetIsSet, truthy.
  destruct (filters !! facet) as [[|c s]|]; simpl; done.
Qed.

Lemma length_filter_mono {A : Type} (P Q : A → Prop)
    `{∀ x, Decision (P x)} `{∀ x, Decision (Q x)} (xs : list A) :
  (∀ x, P x → Q x) →
  (length (filter P xs) ≤ length (filter Q xs))%nat.
Proof.
  intros Himpl. induction xs as [|x xs IH]; [reflexivity|].
  cbn [filter list_filter].
  destruct (decide (P x)) as [HP|HP]; destruct (decide (Q x)) as [HQ|HQ]; simpl.
  - by apply le_n_S.
  - exfalso. by apply HQ, Himpl.
  - by apply le_S.
  - exact IH.
Qed.

Lemma activeFilters_length (filters : FilterState) (searchTerm : string) :
  length (Table.activeFilters filters searchTerm)
  = ((if nonEmpty searchTerm then 1 else 0)
     + length (filter (λ facet, truthy (filters !! facet) = true) Spec.facets))%nat.
Proof.
  unfold Table.activeFilters. rewrite !pushIfTruthy_spec.
  unfold Spec.facets. cbn [filter list_filter truthy].
  destruct (nonEmpty searchTerm);
    repeat match goal with
           | |- context [truthy (filters !! ?f)] =>
               destruct (truthy (filters !! f))
           end; reflexivity.
Qed.

Lemma activeFilters_badges (filters : FilterState) (searchTerm : string) :
  Table.activeFilters filters searchTerm = Spec.badges filters searchTerm.
Proof.
  unfold Table.activeFilters, Spec.badges, Spec.badgeLabels, Spec.badgeOf.
  rewrite !pushIfTruthy_spec. unfold Table.push.
  cbn [filter list_filter fst snd truthy].
  destruct (nonEmpty searchTerm);
    repeat match goal with
           | |- context [truthy (filters !! ?f)] =>
               destruct (truthy (filters !! f))
           end; reflexivity.
Qed.

(** X7. The badges of the heading are, in this order, the search term
    in double quotes when it is not empty and, for each facet that is
    not the empty string, its label followed by the value as it is
    stored; the title is the default title when there is no badge, which
    is exactly when the search term is empty and every facet is the
    empty string, and otherwise lists the badges after the words Flood
    Control Projects; and every facet with a clause in the predicate has
    its badge. *)
Theorem filterTitle_badges (filters : FilterState) (searchTerm : string) :
  length (Table.activeFilters filters searchTerm)
  = ((if nonEmpty searchTerm then 1 else 0)
     + length (filter (λ facet, truthy (filters !! facet) = true) Spec.facets))%nat
  ∧ (Table.filterTitle filters searchTerm = "All Flood Control Projects"
     ↔ searchTerm = EmptyString
       ∧ ∀ facet, facet ∈ Spec.facets → truthy (filters !! facet) = false)
  ∧ (length (Spec.facetClauses filters)
     ≤ length (Table.activeFilters filters searchTerm))%nat
  ∧ Table.activeFilters filters searchTerm = Spec.badges filters searchTerm
  ∧ map fst Spec.badgeLabels = Spec.facets
  ∧ (∀ badge, badge ∈ Spec.badgeLabels →
       (Spec.badgeOf filters badge ∈ Table.activeFilters filters searchTerm
        ↔ truthy (filters !! badge.1) = true))
  ∧ (∀ badge, badge ∈ Spec.badgeLabels →
       Spec.facetIsSet filters badge.1 = true →
       Spec.badgeOf filters badge ∈ Table.activeFilters filters searchTerm)
  ∧ Table.filterTitle filters searchTerm
    = match Spec.badges filters searchTerm with
      | [] => "All Flood Control Projects"
      | shown => "Flood Control Projects | " +:+ join " | " shown
      end.
Proof.
  pose proof (activeFilters_length filters searchTerm) as Hlength.
  assert (∀ badge, badge ∈ Spec.badgeLabels →
            (Spec.badgeOf filters badge ∈ Table.activeFilters filters searchTerm
             ↔ truthy (filters !! badge.1) = true)) as Hshown.
  { intros badge Hbadge. rewrite activeFilters_badges. unfold Spec.badges.
    rewrite elem_of_app. split.
    - intros [Hsearch|Hfacet].
      + exfalso. destruct (nonEmpty searchTerm); [|by apply not_elem_of_nil in Hsearch].
        apply list_elem_of_singleton in Hsearch.
        unfold Spec.badgeLabels in Hbadge. unfold Spec.badgeOf in Hsearch.
        repeat (apply elem_of_cons in Hbadge as [->|Hbadge]; [discriminate Hsearch|]).
        by apply not_elem_of_nil in Hbadge.
      + apply list_elem_of_In, in_map_iff in Hfacet as (other & Heq & Hother).
        apply list_elem_of_In, list_elem_of_filter in Hother as [Htruthy Hother].
        assert (other = badge) as <-; [|exact Htruthy].
        unfold Spec.badgeLabels in Hbadge, Hother. unfold Spec.badgeOf in Heq.
        repeat (apply elem_of_cons in Hbadge as [->|Hbadge];
                [repeat (apply elem_of_cons in Hother as [->|Hother];
                         [first [reflexivity | discriminate Heq]|]);
                 by apply not_elem_of_nil in Hother|]).
        by apply not_elem_of_nil in Hbadge.
    - intros Htruthy. right.
      apply list_elem_of_In, in_map, list_elem_of_In, list_elem_of_filter.
      by split. }
  split; [exact Hlength|]. split; [|split; [|split; [|split; [|split; [|split]]]]].
  - unfold Table.filterTitle.
    destruct (Table.activeFilters filters searchTerm) as [|badge shown] eqn:Hbadges.
    + simpl in Hlength. split; [intros _|reflexivity]. split.
      * destruct searchTerm; [reflexivity | simpl in Hlength; lia].
      * intros facet Hin.
        destruct (truthy (filters !! facet)) eqn:Htruthy; [|reflexivity].
        assert (facet ∈ filter (λ facet, truthy (filters !! facet) = true) Spec.facets)
          as Hfilter by (by apply list_elem_of_filter).
        destruct (filter _ Spec.facets); [by apply not_elem_of_nil in Hfilter|].
        simpl in Hlength. lia.
    + simpl. split; [discriminate|]. intros [-> Hnone].
      simpl in Hlength.
      assert (filter (λ facet, truthy (filters !! facet) = true) Spec.facets = [])
        as Hnil.
      { apply filter_none.
        intros facet Hin. rewrite (Hnone facet Hin). discriminate. }
      rewrite Hnil in Hlength. discriminate.
  - rewrite Hlength. unfold Spec.facetClauses. rewrite length_map.
    etransitivity; [apply (length_filter_mono _ (λ facet, truthy (filters !! facet) = true))|lia].
    apply facetIsSet_truthy.
  - apply activeFilters_badges.
  - reflexivity.
  - exact Hshown.
  - intros badge Hbadge Hset. apply (Hshown badge Hbadge).
    by apply facetIsSet_truthy.
  - unfold Table.filterTitle. rewrite activeFilters_badges.
    by destruct (Spec.badges filters searchTerm).
Qed.
End Title.

(** ** The live statistics are mounted exactly while a filter is active *)

Section FiltersApplied.
Import JS.

(** X8. After any sequence of filter and search changes, the page holds
    that filters are applied exactly when the search term is not blank
    or some filter value is not blank. *)
Theorem filtersApplied_iff_some_filter (events : list Dashboard.Event) :
  Dashboard.filtersApplied (Dashboard.run events) = true
  ↔ nonEmpty (trim (Dashboard.searchTerm (Dashboard.run events))) = true
    ∨ ∃ facet value,
        Dashboard.filters (Dashboard.run events) !! facet = Some value
        ∧ nonEmpty (trim value) = true.
Proof.
  rewrite filtersApplied_invariant. unfold Dashboard.checkIfFiltersApplied.
  rewrite nonEmpty_trim_guard.
  destruct (nonEmpty (trim (Dashboard.searchTerm (Dashboard.run events))));
    [split; [by left | reflexivity]|].
  rewrite existsb_exists. split.
  - intros (value & Hin & Hvalue). right.
    apply in_map_iff in Hin as ([facet value'] & Heq & Hin). simpl in Heq. subst value'.
    apply list_elem_of_In, elem_of_map_to_list in Hin.
    exists facet, value. split; [exact Hin|].
    by rewrite nonEmpty_trim_guard in Hvalue.
  - intros [Hterm | (facet & value & Hlookup & Hvalue)]; [discriminate|].
    exists value. split.
    + apply in_map_iff. exists (facet, value). split; [reflexivity|].
      by apply list_elem_of_In, elem_of_map_to_list.
    + by rewrite nonEmpty_trim_guard.
Qed.
End FiltersApplied.

(* ===================================================================== *)
(** * The table: column headers, pages and the page window *)
(* ===================================================================== *)

Section TableControls.
Import JS Spec.

(** X9. A click on a column header makes that column the sort column
    and leaves the page index as it is; a column that was not the sort
    column is sorted ascending; a second click on the sort column gives
    back the state before the first, and a third click does what the
    first did. *)
Theorem handleSort_clicks (field : string) (st : Table.TableState) :
  Table.sortField (Table.handleSort field st) = field
  ∧ Table.currentPage (Table.handleSort field st) = Table.currentPage st
  ∧ (Table.sortField st ≠ field →
     Table.sortDirection (Table.handleSort field st) = Table.asc)
  ∧ (Table.sortField st = field →
     Table.handleSort field (Table.handleSort field st) = st)
  ∧ Table.handleSort field (Table.handleSort field (Table.handleSort field st))
    = Table.handleSort field st.
Proof.
  destruct st as [current direction page]. unfold Table.handleSort. simpl.
  destruct (String.eqb_spec current field) as [->|Hne]; simpl;
    rewrite ?String.eqb_refl; simpl; rewrite ?String.eqb_refl; simpl.
  - repeat split; try done; by destruct direction.
  - repeat split; done.
Qed.

(** Two clicks on the description header of the table just loaded. *)
Lemma handleSort_clicks_witness :
  Table.handleSort "ProjectDescription"
    (Table.handleSort "ProjectDescription" Table.initialState)
  = Table.initialState.
Proof.
  apply (proj1 (proj2 (proj2 (proj2
           (handleSort_clicks "ProjectDescription" Table.initialState))))).
  reflexivity.
Defined.

(** ** Every record is on exactly one page *)

Lemma slices_concat {A : Type} (xs : list A) (n : nat) :
  concat (map (λ p, sliceOf (p * 20) (p * 20 + 20) xs) (seq 0 n))
  = take (n * 20) xs.
Proof.
  induction n as [|n IH]; [reflexivity|].
  rewrite seq_S, map_app, concat_app, IH. simpl.
  unfold sliceOf. rewrite app_nil_r.
  replace (n * 20 + 20 - n * 20)%nat with 20%nat by lia.
  rewrite take_take_drop. f_equal. lia.
Qed.

Lemma totalPages_covers (length : nat) :
  0 ≤ Table.totalPages length
  ∧ Z.of_nat length ≤ Table.totalPages length * 20
  ∧ Table.totalPages length * 20 < Z.of_nat length + 20.
Proof.
  unfold Table.totalPages, Table.hitsPerPage.
  pose proof (Z.div_mod (Z.of_nat length + 20 - 1) 20 ltac:(lia)) as Hdiv.
  pose proof (Z.mod_pos_bound (Z.of_nat length + 20 - 1) 20 ltac:(lia)) as Hmod.
  lia.
Qed.

Lemma pages_concat {A : Type} (xs : list A) :
  concat (map (λ p, Table.paginatedHits p xs)
              (seqZ 0 (Table.totalPages (length xs))))
  = xs.
Proof.
  destruct (totalPages_covers (length xs)) as (Hpos & Hcover & _).
  unfold seqZ. rewrite <- list_fmap_compose.
  erewrite (list_fmap_ext _ (λ p, sliceOf (p * 20) (p * 20 + 20) xs)).
  - change (fmap ?f ?l) with (map f l). rewrite slices_concat.
    apply take_ge. lia.
  - intros i p _. simpl. rewrite Z.add_0_r. apply paginatedHits_sliceOf.
Qed.

(** X10. Whatever the sort column and direction, also when costs do not
    parse, the pages 0 to totalPages - 1 of the sorted batch, one after
    the other, hold every record of the batch exactly once; and every
    page but the last holds twenty records. *)
Theorem pages_partition_batch (st : Table.TableState)
    (hits : list FloodControlHit) :
  concat (map (λ p, Table.paginatedHits p (Table.sortedHits st hits))
              (seqZ 0 (Table.totalPages (length hits))))
  ≡ₚ hits
  ∧ ∀ p : nat,
      Z.of_nat p < Table.totalPages (length hits) - 1 →
      length (Table.paginatedHits (Z.of_nat p) (Table.sortedHits st hits)) = 20%nat.
Proof.
  pose proof (sort_length (Table.compareHits (Table.sortField st)
                             (Table.sortDirection st)) hits) as Hlength.
  fold (Table.sortedHits st hits) in Hlength.
  split.
  - rewrite <- Hlength, pages_concat. apply sort_perm.
  - intros p Hp. rewrite paginatedHits_sliceOf. unfold sliceOf.
    destruct (totalPages_covers (length hits)) as (_ & _ & Hcover).
    rewrite length_take, length_drop, Hlength. lia.
Qed.

(** Forty-five records: the second page holds twenty of them. *)
Lemma pages_partition_batch_witness :
  length (Table.paginatedHits 1
            (Table.sortedHits Table.initialState
               (replicate 45 (hitWithContractor "A")))) = 20%nat.
Proof.
  apply (proj2 (pages_partition_batch Table.initialState
                  (replicate 45 (hitWithContractor "A"))) 1%nat).
  vm_compute. reflexivity.
Defined.

(** ** The window of numbered buttons *)

Lemma pageToShow_window (total current i : Z) :
  Table.pageToShow total current i = windowStart total current + i.
Proof. unfold Table.pageToShow, windowStart. case_conditionals; lia. Qed.

Lemma filter_all {A : Type} (P : A → Prop) `{∀ x, Decision (P x)} (xs : list A) :
  (∀ x, x ∈ xs → P x) → filter P xs = xs.
Proof.
  intros Hall. induction xs as [|x xs IH]; [reflexivity|].
  cbn [filter list_filter]. rewrite decide_True by (apply Hall; left).
  f_equal. apply IH. intros y Hy. apply Hall. by right.
Qed.

Lemma pageButtons_window (total current : Z) :
  Table.pageButtons total current
  = seqZ (windowStart total current) (Z.min 5 total).
Proof.
  unfold Table.pageButtons.
  rewrite (map_ext _ (Z.add (windowStart total current)))
    by (intros i; apply pageToShow_window).
  change (map ?f ?l) with (f <$> l). rewrite fmap_add_seqZ, Z.add_0_r.
  apply filter_all. intros p Hp. apply elem_of_seqZ in Hp.
  unfold windowStart in Hp. destruct (total <=? 5) eqn:Htotal; lia.
Qed.

(** X11. The numbered buttons are the consecutive pages of a window of
    five, or of all pages when there are fewer: it starts two pages
    before the current page, kept within the pages there are, so no
    button is ever left out and the current page is among them; and for
    a current page within the pages, Previous and Next lead to the
    pages just before and after it. *)
Theorem page_window (length : nat) (total currentPage : Z) :
  Table.pageButtons total currentPage
  = seqZ (windowStart total currentPage) (Z.min 5 total)
  ∧ (0 ≤ currentPage < total →
     currentPage ∈ Table.pageButtons total currentPage)
  ∧ (1 < Table.totalPages length →
     0 ≤ currentPage < Table.totalPages length →
     Table.paginationTargets length currentPage
     = (if currentPage =? 0 then [] else [currentPage - 1])
         ++ seqZ (windowStart (Table.totalPages length) currentPage)
                 (Z.min 5 (Table.totalPages length))
         ++ (if currentPage =? Table.totalPages length - 1 then []
             else [currentPage + 1])).
Proof.
  split; [apply pageButtons_window|]. split.
  - intros Hin. rewrite pageButtons_window. apply elem_of_seqZ.
    unfold windowStart. destruct (total <=? 5) eqn:Htotal; lia.
  - intros Hpages Hin. unfold Table.paginationTargets.
    rewrite pageButtons_window.
    destruct (Z.gtb_spec (Table.totalPages length) 1) as [_|?]; [|lia].
    f_equal; [|f_equal].
    + destruct (Z.eqb_spec currentPage 0); [reflexivity|]. f_equal. lia.
    + destruct (Z.geb_spec currentPage (Table.totalPages length - 1)),
        (Z.eqb_spec currentPage (Table.totalPages length - 1));
        try lia; [reflexivity|]. f_equal. lia.
Qed.

(** Page 7 of 12: the buttons are pages 5 to 9, Previous leads to page 6
    and Next to page 8. *)
Lemma page_window_witness :
  Table.paginationTargets 240 7 = [6] ++ seqZ 5 5 ++ [8].
Proof.
  apply (proj2 (proj2 (page_window 240 12 7))).
  - vm_compute. reflexivity.
  - vm_compute. split; [discriminate | reflexivity].
Defined.

(** ** The page index outlives the batch *)

Lemma paginatedHits_beyond {A : Type} (currentPage : Z) (sorted : list A) :
  Table.totalPages (length sorted) ≤ currentPage →
  Table.paginatedHits currentPage sorted = [].
Proof.
  intros Hbeyond.
  destruct (totalPages_covers (length sorted)) as (Hpos & Hcover & _).
  unfold Table.paginatedHits, Table.endIndex, Table.startIndex,
    Table.hitsPerPage, slice.
  destruct (Z.ltb_spec (currentPage * 20) 0) as [?|_]; [lia|].
  destruct (Z.ltb_spec (Z.min (currentPage * 20 + 20) (Z.of_nat (length sorted))) 0)
    as [?|_]; [lia|].
  replace (Z.to_nat _) with 0%nat by lia. reflexivity.
Qed.

(** X12. Nothing resets the page index when the batch changes or a
    column header is clicked: with a page index at or past the number
    of pages of the batch, the table shows no row; when the batch fits
    on one page there is no pagination control to leave that page; and
    a click on a column header keeps the page index. *)
Theorem page_index_outlives_batch (st : Table.TableState)
    (hits : list FloodControlHit) :
  Table.totalPages (length hits) ≤ Table.currentPage st →
  Table.paginatedHits (Table.currentPage st) (Table.sortedHits st hits) = []
  ∧ ((length hits ≤ 20)%nat →
     Table.paginationTargets (length hits) (Table.currentPage st) = [])
  ∧ ∀ field,
      Table.paginatedHits (Table.currentPage (Table.handleSort field st))
        (Table.sortedHits (Table.handleSort field st) hits) = [].
Proof.
  intros Hbeyond.
  assert (∀ st', Table.currentPage st' = Table.currentPage st →
                 Table.paginatedHits (Table.currentPage st')
                   (Table.sortedHits st' hits) = []) as Hempty.
  { intros st' Hpage. apply paginatedHits_beyond.
    unfold Table.sortedHits. rewrite sort_length, Hpage. exact Hbeyond. }
  split; [by apply Hempty|]. split.
  - intros Hsmall. unfold Table.paginationTargets.
    destruct (totalPages_covers (length hits)) as (_ & _ & Hcover).
    destruct (Z.gtb_spec (Table.totalPages (length hits)) 1) as [?|_];
      [lia | reflexivity].
  - intros field. apply Hempty.
    unfold Table.handleSort. by destruct (String.eqb _ _).
Qed.

(** The second page is reached on a batch of 25 records with the Next
    button; when a batch of 3 records replaces it, no row is shown. *)
Lemma page_index_outlives_batch_witness :
  let st := Table.handlePageChange 1 Table.initialState in
  let hits := replicate 3 (hitWithContractor "A") in
  Table.reachable 25 st
  ∧ Table.paginatedHits (Table.currentPage st) (Table.sortedHits st hits) = []
  ∧ Table.paginationTargets (length hits) (Table.currentPage st) = [].
Proof.
  intros st hits. split.
  - apply (Table.reach_page 25 Table.initialState 1 (Table.reach_initial 25)).
    vm_compute. repeat constructor.
  - assert (Table.totalPages (length hits) ≤ Table.currentPage st) as Hbeyond
      by (vm_compute; discriminate).
    split.
    + exact (proj1 (page_index_outlives_batch st hits Hbeyond)).
    + apply (proj1 (proj2 (page_index_outlives_batch st hits Hbeyond))).
      vm_compute. lia.
Defined.

(** ** The range line *)

(** X13. On every page that can be reached on a batch that is not
    empty, the line "Showing a to b of n" has 1 ≤ a ≤ b ≤ n, n is the
    number of records of the batch, and the page shows b - a + 1 rows. *)
Theorem showingRange_counts_rows {A : Type} (sorted : list A)
    (st : Table.TableState) :
  Table.reachable (length sorted) st → sorted ≠ [] →
  let range := Table.showingRange (Table.currentPage st) sorted in
  1 ≤ range.1.1 ≤ range.1.2
  ∧ range.1.2 ≤ range.2
  ∧ range.2 = Z.of_nat (length sorted)
  ∧ Z.of_nat (length (Table.paginatedHits (Table.currentPage st) sorted))
    = range.1.2 - range.1.1 + 1.
Proof.
  intros Hreach Hne range. subst range.
  apply reachable_in_range in Hreach as [Hpos Hpage].
  destruct (totalPages_covers (length sorted)) as (_ & _ & Hcover).
  assert (0 < length sorted)%nat as Hlen by (destruct sorted; [done | simpl; lia]).
  assert (Table.currentPage st * 20 < Z.of_nat (length sorted)) as Hstart by lia.
  destruct (Z_of_nat_complete _ Hpos) as [p Hp]. rewrite Hp in *.
  rewrite paginatedHits_sliceOf.
  unfold Table.showingRange, Table.endIndex, Table.startIndex, Table.hitsPerPage,
    sliceOf. simpl.
  rewrite length_take, length_drop. lia.
Qed.

(** Forty-five records, third page: 41 to 45 of 45, five rows. *)
Lemma showingRange_counts_rows_witness :
  let sorted := replicate 45 (hitWithContractor "A") in
  let st := Table.handlePageChange 2 Table.initialState in
  Table.showingRange (Table.currentPage st) sorted = (41, 45, 45)
  ∧ Z.of_nat (length (Table.paginatedHits (Table.currentPage st) sorted)) = 5.
Proof.
  intros sorted st.
  assert (Table.reachable (length sorted) st) as Hreach.
  { apply (Table.reach_page _ Table.initialState 2 (Table.reach_initial _)).
    vm_compute. repeat constructor. }
  assert (sorted ≠ []) as Hne by discriminate.
  split; [reflexivity|].
  exact (proj2 (proj2 (proj2 (showingRange_counts_rows sorted st Hreach Hne)))).
Defined.

(** ** Sorting by a text column *)

Lemma distinctKeys_comparable (field : string) (direction : Table.SortDirection)
    (hits : list FloodControlHit) :
  field ≠ "ContractCost" → distinctKeys field hits →
  StronglySorted (comparable (Table.compareHits field direction)) hits.
Proof.
  intros Hfield. unfold distinctKeys.
  induction hits as [|x hits IH]; simpl; intros Hnodup; constructor.
  - apply IH. by apply NoDup_cons in Hnodup as [_ ?].
  - apply NoDup_cons in Hnodup as [Hx _].
    apply Forall_forall. intros y Hy. unfold comparable.
    destruct (text_after field x y Hfield) as [Hasc Hdesc].
    destruct (text_after field y x Hfield) as [Hasc' Hdesc'].
    assert (textKey field x ≠ textKey field y) as Hne.
    { intros Heq. apply Hx. rewrite Heq.
      by apply list_elem_of_In, in_map, list_elem_of_In. }
    destruct (String.ltb (textKey field x) (textKey field y)) eqn:Hxy,
             (String.ltb (textKey field y) (textKey field x)) eqn:Hyx;
      destruct direction; rewrite ?Hasc, ?Hdesc, ?Hasc', ?Hdesc'; auto.
    all: exfalso; apply Hne; by apply ltb_total.
Qed.

(** X14. Sorted by a column other than the cost, in either direction,
    the batch keeps all its records, they are in the order of their
    lower-cased text, and records with the same text keep their
    relative order; when no two records have the same text, a click on
    the header of the sort column reverses the table. *)
Theorem text_sort_toggle (st : Table.TableState) (hits : list FloodControlHit) :
  Table.sortField st ≠ "ContractCost" →
  Table.sortedHits st hits ≡ₚ hits
  ∧ StronglySorted
      (λ a b, match Table.sortDirection st with
              | Table.asc => String.ltb (textKey (Table.sortField st) b)
                                        (textKey (Table.sortField st) a) = false
              | Table.desc => String.ltb (textKey (Table.sortField st) a)
                                         (textKey (Table.sortField st) b) = false
              end)
      (Table.sortedHits st hits)
  ∧ (∀ key,
       filter (λ hit, String.eqb (textKey (Table.sortField st) hit) key = true)
              (Table.sortedHits st hits)
       = filter (λ hit, String.eqb (textKey (Table.sortField st) hit) key = true) hits)
  ∧ (distinctKeys (Table.sortField st) hits →
     Table.sortedHits (Table.handleSort (Table.sortField st) st) hits
     = rev (Table.sortedHits st hits)).
Proof.
  intros Hfield. split; [apply sort_perm|].
  split; [by apply sortedHits_text_order|].
  split; [intros key; by apply sortedHits_stable_text|].
  intros Hdistinct. unfold Table.sortedHits, Table.handleSort.
  rewrite String.eqb_refl. simpl.
  apply sort_flip_reverse.
  - intros a b.
    destruct (text_after _ a b Hfield) as [Hasc Hdesc].
    destruct (text_after _ b a Hfield) as [Hasc' Hdesc'].
    destruct (Table.sortDirection st); congruence.
  - intros a b.
    destruct (text_after _ a b Hfield) as [Hasc Hdesc].
    destruct (text_after _ b a Hfield) as [Hasc' Hdesc'].
    destruct (Table.sortDirection st);
      rewrite ?Hasc, ?Hdesc, ?Hasc', ?Hdesc'; apply ltb_asym.
  - intros a b c.
    destruct (text_after _ a b Hfield) as [Hab Hab'].
    destruct (text_after _ b c Hfield) as [Hbc Hbc'].
    destruct (text_after _ a c Hfield) as [Hac Hac'].
    destruct (Table.sortDirection st);
      rewrite ?Hab, ?Hab', ?Hbc, ?Hbc', ?Hac, ?Hac'; intros H1 H2;
      eauto using ltb_trans.
  - by apply distinctKeys_comparable.
Qed.

(** Contractors B, a, C, sorted by contractor: a, B, C; after a click on
    the header: C, B, a. *)
Lemma text_sort_toggle_witness :
  let st := Table.handleSort "Contractor" Table.initialState in
  let hits := map hitWithContractor ["B"; "a"; "C"] in
  Table.sortedHits (Table.handleSort "Contractor" st) hits
  = rev (Table.sortedHits st hits).
Proof.
  intros st hits.
  apply (proj2 (proj2 (proj2 (text_sort_toggle st hits ltac:(discriminate))))).
  unfold distinctKeys. vm_compute.
  repeat (constructor; [by intros H; repeat (apply elem_of_cons in H as [H|H]; [discriminate H|]); apply not_elem_of_nil in H|]).
  constructor.
Defined.
End TableControls.

(* ===================================================================== *)
(** * The charts on live data *)
(* ===================================================================== *)

Section LiveCharts.
Import JS Spec.

(** ** Ten most frequent values, ties included *)

Lemma top10_of_list {B : Type} (cnt : B → nat) (xs : list B) :
  let chart := slice 0 10 (sort (λ a b, numSub (ofNat (cnt b)) (ofNat (cnt a))) xs) in
  length chart = Nat.min 10 (length xs)
  ∧ chart ⊆+ xs
  ∧ StronglySorted (λ a b, (cnt b ≤ cnt a)%nat) chart
  ∧ ∀ x, x ∈ xs → x ∉ chart → Forall (λ y, (cnt x ≤ cnt y)%nat) chart.
Proof.
  intros chart. subst chart. rewrite slice_0_10.
  set (order := λ a b : B, numSub (ofNat (cnt b)) (ofNat (cnt a))).
  assert (StronglySorted (λ a b, (cnt b ≤ cnt a)%nat) (sort order xs)) as Hsorted.
  { eapply StronglySorted_mono; [| apply (sort_sorted order (λ _, True))].
    - intros a b Hab. simpl in Hab.
      destruct (sortsAfter order a b) eqn:Hafter; [discriminate|].
      destruct (decide (cnt a < cnt b)%nat) as [Hlt|?]; [|lia].
      apply (count_after cnt) in Hlt. unfold order in Hafter. congruence.
    - intros a b _ _. unfold order. intros Hab.
      apply (count_after cnt) in Hab.
      destruct (sortsAfter _ b a) eqn:Hba; [|reflexivity].
      apply (count_after cnt) in Hba. lia.
    - intros a b c _ _ _ Hab Hbc. unfold order in *.
      destruct (sortsAfter _ a c) eqn:Hac; [|reflexivity].
      apply (count_after cnt) in Hac.
      destruct (decide (cnt a < cnt b)%nat) as [Hlt|?].
      { apply (count_after cnt) in Hlt. congruence. }
      destruct (decide (cnt b < cnt c)%nat) as [Hlt|?]; [|lia].
      apply (count_after cnt) in Hlt. congruence.
    - by apply Forall_forall. }
  rewrite <- (take_drop 10 (sort order xs)) in Hsorted.
  split; [|split; [|split]].
  - by rewrite length_take, sort_length.
  - etransitivity; [apply sublist_submseteq, sublist_take|].
    apply Permutation_submseteq, sort_perm.
  - by apply StronglySorted_app_1_l in Hsorted.
  - intros x Hx Hout. apply Forall_forall. intros y Hy.
    apply (StronglySorted_app_1_elem_of _ _ _ y x Hsorted Hy).
    rewrite <- (sort_perm order), <- (take_drop 10 (sort order xs)) in Hx.
    apply elem_of_app in Hx as [Hx|Hx]; [done | exact Hx].
Qed.

Lemma NoDup_of_submseteq {B : Type} (xs ys : list B) :
  xs ⊆+ ys → NoDup ys → NoDup xs.
Proof.
  intros Hsub Hnodup. apply submseteq_Permutation in Hsub as [rest Hperm].
  rewrite Hperm in Hnodup. by apply NoDup_app in Hnodup as [? _].
Qed.

Lemma top10_with_ties {B : Type} (item : string * nat → B)
    (key : B → string) (cnt : B → nat)
    (field : FloodControlHit → option string) (hits : list FloodControlHit) :
  (∀ e, key (item e) = e.1) → (∀ e, cnt (item e) = e.2) →
  mostFrequentOf key cnt field hits
    (slice 0 10
       (sort (λ a b, numSub (ofNat (cnt b)) (ofNat (cnt a)))
          (map item (entries (Dashboard.countNonBlank field hits))))).
Proof.
  intros Hkey Hcnt.
  pose proof (countNonBlank_counted field hits) as Hcounted.
  set (dict := Dashboard.countNonBlank field hits) in *.
  destruct (top10_of_list cnt (map item (entries dict)))
    as (Hlength & Hsub & Hsorted & Hrest).
  set (chart := slice 0 10 _) in *.
  assert (map key (map item (entries dict)) ≡ₚ map fst dict) as Hkeys.
  { rewrite map_map. erewrite map_ext; [|intros e; apply Hkey].
    apply Permutation_map, entries_perm. }
  assert (∀ x, x ∈ map item (entries dict) →
               key x ∈ facetValues field hits
               ∧ cnt x = frequency field hits (key x)) as Hitems.
  { intros x Hx. apply list_elem_of_In, in_map_iff in Hx as ([k c] & <- & Hin).
    apply list_elem_of_In in Hin. rewrite entries_perm in Hin.
    apply (counted_elem_of _ _ _ _ Hcounted) in Hin as [Hk ->].
    by rewrite Hkey, Hcnt. }
  split; [|split; [|split; [|split]]].
  - rewrite Hlength, length_map, (Permutation_length (entries_perm dict)).
    by rewrite (counted_length _ _ Hcounted).
  - eapply NoDup_of_submseteq; [apply (fmap_submseteq key), Hsub|].
    change (NoDup (map key (map item (entries dict)))).
    rewrite Hkeys. by destruct Hcounted.
  - apply Forall_forall. intros x Hx. apply Hitems.
    by apply (elem_of_submseteq _ _ _ Hx).
  - exact Hsorted.
  - intros v Hv Hout.
    assert (item (v, frequency field hits v) ∈ map item (entries dict)) as Hin.
    { apply list_elem_of_In, in_map, list_elem_of_In. rewrite entries_perm.
      by apply (counted_elem_of _ _ _ _ Hcounted). }
    assert (item (v, frequency field hits v) ∉ chart) as Hnot.
    { intros Hchart. apply Hout.
      apply list_elem_of_In, in_map_iff.
      exists (item (v, frequency field hits v)).
      split; [by rewrite Hkey | by apply list_elem_of_In]. }
    pose proof (Hrest _ Hin Hnot) as Hle.
    eapply Forall_impl; [exact Hle|].
    intros y Hy. simpl in Hy. by rewrite Hcnt in Hy.
Qed.

(** X15. Whenever the charts use live data, the region, type-of-work
    and contractor charts each show one entry for each of at most ten
    distinct non-blank values, each with the number of hits that have
    it, with counts that never increase along the chart; and no value
    left out of a chart is more frequent than a value shown; this
    holds also when values are equally frequent. *)
Theorem top10_shows_most_frequent
    (regionData typeOfWorkData contractorData : list Dashboard.DataItem)
    (results : option Z) (hits : list FloodControlHit) :
  Dashboard.isFiltered (Dashboard.totalHitsOf results) = true →
  mostFrequentOf Dashboard.Bar.name Dashboard.Bar.Projects Region hits
    (Dashboard.RegionChart regionData results hits)
  ∧ mostFrequentOf Dashboard.value Dashboard.count TypeofWork hits
      (Dashboard.TypeOfWorkChart typeOfWorkData results hits)
  ∧ mostFrequentOf Dashboard.ContractorBar.fullName
      Dashboard.ContractorBar.Projects Contractor hits
      (Dashboard.ContractorChart contractorData results hits).
Proof.
  intros Hlive.
  unfold Dashboard.RegionChart, Dashboard.TypeOfWorkChart, Dashboard.ContractorChart.
  rewrite Hlive.
  split; [|split].
  - apply (top10_with_ties
             (λ '(name, Projects),
                {| Dashboard.Bar.name := name; Dashboard.Bar.Projects := Projects |}));
      by intros [k c].
  - apply (top10_with_ties
             (λ '(value, count),
                {| Dashboard.value := value; Dashboard.count := count |}));
      by intros [k c].
  - apply (top10_with_ties
             (λ '(fullName, Projects),
                {| Dashboard.ContractorBar.name := Dashboard.shortName fullName;
                   Dashboard.ContractorBar.Projects := Projects;
                   Dashboard.ContractorBar.fullName := fullName |}));
      by intros [k c].
Qed.

(** Six hits in three regions, two of them equally frequent. *)
Lemma top10_shows_most_frequent_witness :
  mostFrequentOf Dashboard.Bar.name Dashboard.Bar.Projects Region
    (map hitInRegion ["NCR"; "Region I"; "NCR"; "Region II"; "Region I"; "Region II"])
    (Dashboard.RegionChart [] (Some 6)
       (map hitInRegion ["NCR"; "Region I"; "NCR"; "Region II"; "Region I"; "Region II"])).
Proof.
  exact (proj1 (top10_shows_most_frequent [] [] [] (Some 6)
    (map hitInRegion ["NCR"; "Region I"; "NCR"; "Region II"; "Region I"; "Region II"])
    eq_refl)).
Defined.

(** ** The charts on the lookup tables *)

Lemma top10_of_lookup {B : Type} (item : Dashboard.DataItem → B)
    (key : B → string) (cnt : B → nat) (data : list Dashboard.DataItem) :
  (∀ e, key (item e) = Dashboard.value e) →
  (∀ e, cnt (item e) = Dashboard.count e) →
  greatestOf key cnt data
    (map item
       (slice 0 10
          (sort (λ a b, numSub (ofNat (Dashboard.count b)) (ofNat (Dashboard.count a)))
                data))).
Proof.
  intros Hkey Hcnt.
  destruct (top10_of_list Dashboard.count data) as (Hlength & Hsub & Hsorted & Hrest).
  set (chart := slice 0 10 _) in *.
  assert (map (λ x, (key x, cnt x)) (map item chart)
          = map (λ e, (Dashboard.value e, Dashboard.count e)) chart) as Hpairs.
  { rewrite map_map. apply map_ext. intros e. by rewrite Hkey, Hcnt. }
  split; [|split; [|split]].
  - by rewrite length_map.
  - rewrite Hpairs. by apply (fmap_submseteq _).
  - clear -Hsorted Hcnt. induction Hsorted as [|x xs Hxs IH Hx]; simpl; constructor.
    + exact IH.
    + apply Forall_forall. intros y Hy.
      apply list_elem_of_In, in_map_iff in Hy as (e & <- & He).
      rewrite !Hcnt. rewrite Forall_forall in Hx. apply Hx. by apply list_elem_of_In.
  - intros e He Hout. rewrite Hpairs in Hout.
    assert (e ∉ chart) as Hnot.
    { intros Hin. apply Hout.
      apply list_elem_of_In, in_map_iff. exists e.
      split; [reflexivity | by apply list_elem_of_In]. }
    pose proof (Hrest e He Hnot) as Hle.
    apply Forall_forall. intros y Hy.
    apply list_elem_of_In, in_map_iff in Hy as (e' & <- & He').
    rewrite Hcnt. rewrite Forall_forall in Hle. apply Hle. by apply list_elem_of_In.
Qed.

(** X16. Whenever the charts use the lookup tables, the region,
    type-of-work and contractor charts each show at most ten entries of
    their table, with the counts of the table, in an order in which the
    counts never increase; and no entry left out has a greater count
    than an entry shown. *)
Theorem top10_of_lookup_tables
    (regionData typeOfWorkData contractorData : list Dashboard.DataItem)
    (results : option Z) (hits : list FloodControlHit) :
  Dashboard.isFiltered (Dashboard.totalHitsOf results) = false →
  greatestOf Dashboard.Bar.name Dashboard.Bar.Projects regionData
    (Dashboard.RegionChart regionData results hits)
  ∧ greatestOf Dashboard.value Dashboard.count typeOfWorkData
      (Dashboard.TypeOfWorkChart typeOfWorkData results hits)
  ∧ greatestOf Dashboard.ContractorBar.fullName Dashboard.ContractorBar.Projects
      contractorData
      (Dashboard.ContractorChart contractorData results hits).
Proof.
  intros Hstatic.
  unfold Dashboard.RegionChart, Dashboard.TypeOfWorkChart, Dashboard.ContractorChart.
  rewrite Hstatic.
  split; [|split].
  - by apply (top10_of_lookup
                (λ e, {| Dashboard.Bar.name := Dashboard.value e;
                         Dashboard.Bar.Projects := Dashboard.count e |})).
  - rewrite <- (map_id (slice 0 10 _)).
    by apply (top10_of_lookup (λ e, e)).
  - by apply (top10_of_lookup
                (λ e, {| Dashboard.ContractorBar.name :=
                           Dashboard.shortName (Dashboard.value e);
                         Dashboard.ContractorBar.Projects := Dashboard.count e;
                         Dashboard.ContractorBar.fullName := Dashboard.value e |})).
Qed.

(** The page just loaded, with three types of work in the table. *)
Lemma top10_of_lookup_tables_witness :
  greatestOf Dashboard.value Dashboard.count
    [{| Dashboard.value := "Dike"; Dashboard.count := 4 |};
     {| Dashboard.value := "Revetment"; Dashboard.count := 9 |};
     {| Dashboard.value := "Drainage"; Dashboard.count := 4 |}]
    (Dashboard.TypeOfWorkChart
       [{| Dashboard.value := "Dike"; Dashboard.count := 4 |};
        {| Dashboard.value := "Revetment"; Dashboard.count := 9 |};
        {| Dashboard.value := "Drainage"; Dashboard.count := 4 |}]
       None []).
Proof.
  exact (proj1 (proj2 (top10_of_lookup_tables []
    [{| Dashboard.value := "Dike"; Dashboard.count := 4 |};
     {| Dashboard.value := "Revetment"; Dashboard.count := 9 |};
     {| Dashboard.value := "Drainage"; Dashboard.count := 4 |}]
    [] None [] eq_refl))).
Defined.

(** ** The year chart *)

Lemma countTruthy_fold (field : FloodControlHit → option string)
    (hits : list FloodControlHit) :
  Dashboard.countTruthy field hits
  = fold_left Dashboard.increment (truthyValues field hits) [].
Proof.
  unfold Dashboard.countTruthy. generalize (@nil (string * nat)).
  induction hits as [|hit hits IH]; intros frequency; [reflexivity|].
  simpl. rewrite IH. unfold truthyValues. simpl.
  destruct (field hit) as [v|]; [|reflexivity].
  by destruct (nonEmpty v).
Qed.

Lemma countTruthy_counted (field : FloodControlHit → option string)
    (hits : list FloodControlHit) :
  counted (Dashboard.countTruthy field hits) (truthyValues field hits).
Proof.
  rewrite countTruthy_fold.
  apply (fold_increment_counted _ [] []). split; [constructor|].
  intros k. by rewrite decide_False by apply not_elem_of_nil.
Qed.

Lemma increment_total (frequency : Dict nat) (key : string) :
  sum_list (map snd (Dashboard.increment frequency key))
  = S (sum_list (map snd frequency)).
Proof.
  unfold Dashboard.increment.
  induction frequency as [|[k c] frequency IH]; simpl; [reflexivity|].
  destruct (String.eqb_spec key k) as [->|Hne]; simpl; [lia|].
  rewrite IH. lia.
Qed.

Lemma fold_increment_total (values : list string) (frequency : Dict nat) :
  sum_list (map snd (fold_left Dashboard.increment values frequency))
  = (sum_list (map snd frequency) + length values)%nat.
Proof.
  revert frequency. induction values as [|v values IH]; intros frequency; simpl.
  - lia.
  - rewrite IH, increment_total. lia.
Qed.

Lemma sum_list_perm (xs ys : list nat) : xs ≡ₚ ys → sum_list xs = sum_list ys.
Proof. induction 1; simpl; lia. Qed.

(** X17. Whenever the year chart uses live data it has one bar for each
    distinct year of the hits, none left out, each with the number of
    hits of that year, so that the bars add up to the number of hits
    that have a year; a year is any value that is not the empty string,
    and the collation decides the order of the bars only. *)
Theorem yearly_chart_counts_every_year
    (localeCompare : string → string → JSNum)
    (infraYearData : list Dashboard.DataItem)
    (results : option Z) (hits : list FloodControlHit) :
  Dashboard.isFiltered (Dashboard.totalHitsOf results) = true →
  let chart := Dashboard.YearlyChart localeCompare infraYearData results hits in
  NoDup (map Dashboard.Bar.name chart)
  ∧ (∀ bar, bar ∈ chart
            ↔ Dashboard.Bar.name bar ∈ truthyValues InfraYear hits
              ∧ Dashboard.Bar.Projects bar
                = occurrences (Dashboard.Bar.name bar) (truthyValues InfraYear hits))
  ∧ length chart = length (remove_dups (truthyValues InfraYear hits))
  ∧ sum_list (map Dashboard.Bar.Projects chart)
    = length (truthyValues InfraYear hits).
Proof.
  intros Hlive chart. subst chart. unfold Dashboard.YearlyChart. rewrite Hlive.
  pose proof (countTruthy_counted InfraYear hits) as Hcounted.
  set (order := λ a b : Dashboard.Bar.t, localeCompare _ _).
  set (toBar := λ '(name, Projects),
         {| Dashboard.Bar.name := name; Dashboard.Bar.Projects := Projects |}).
  set (dict := Dashboard.countTruthy InfraYear hits) in *.
  assert (sort order (map toBar (entries dict)) ≡ₚ map toBar dict) as Hperm.
  { rewrite sort_perm. apply Permutation_map, entries_perm. }
  assert (∀ d : Dict nat, map Dashboard.Bar.name (map toBar d) = map fst d) as Hnames.
  { intros d. rewrite map_map. apply map_ext. by intros [k c]. }
  assert (∀ d : Dict nat, map Dashboard.Bar.Projects (map toBar d) = map snd d)
    as Hcounts.
  { intros d. rewrite map_map. apply map_ext. by intros [k c]. }
  split; [|split; [|split]].
  - rewrite (Permutation_map Dashboard.Bar.name Hperm), Hnames.
    by destruct Hcounted.
  - intros [name Projects]. rewrite Hperm. simpl.
    rewrite <- (counted_elem_of _ _ name Projects Hcounted).
    split.
    + intros Hin. apply list_elem_of_In, in_map_iff in Hin as ([k c] & [= -> ->] & Hin).
      by apply list_elem_of_In.
    + intros Hin. apply list_elem_of_In, in_map_iff.
      exists (name, Projects). split; [reflexivity | by apply list_elem_of_In].
  - rewrite (Permutation_length Hperm), length_map.
    apply (counted_length _ _ Hcounted).
  - rewrite (sum_list_perm _ _ (Permutation_map Dashboard.Bar.Projects Hperm)), Hcounts.
    unfold dict. rewrite countTruthy_fold, fold_increment_total. reflexivity.
Qed.

(** Three hits of 2023 and one of 2021, and one hit without a year. *)
Lemma yearly_chart_counts_every_year_witness :
  let hit year :=
    {| GlobalID := None; objectID := None; ProjectDescription := None;
       InfraYear := year; Region := None; Province := None;
       Municipality := None; TypeofWork := None;
       Contractor := None; ContractCost := None |} in
  let hits := [hit (Some "2023"); hit (Some "2021"); hit None;
               hit (Some "2023"); hit (Some "2023")] in
  sum_list (map Dashboard.Bar.Projects
              (Dashboard.YearlyChart (λ _ _, ofZ 0) [] (Some 5) hits)) = 4%nat.
Proof.
  intros hit hits.
  exact (proj2 (proj2 (proj2
    (yearly_chart_counts_every_year (λ _ _, ofZ 0) [] (Some 5) hits eq_refl)))).
Defined.

(** ** The labels and tooltips of the contractor chart *)

Lemma substring_length (n : nat) (s : string) :
  String.length (String.substring 0 n s) = Nat.min n (String.length s).
Proof.
  revert s. induction n as [|n IH]; intros [|c s]; simpl; try reflexivity.
  by rewrite IH.
Qed.

Lemma shortName_length (fullName : string) :
  (String.length fullName ≤ 30 → Dashboard.shortName fullName = fullName)%nat
  ∧ (String.length (Dashboard.shortName fullName) ≤ 33)%nat.
Proof.
  unfold Dashboard.shortName.
  destruct (Nat.ltb_spec 30 (String.length fullName)) as [Hlong|Hshort].
  - split; [intros; lia|]. rewrite string_length_append, substring_length.
    change (String.length "...") with 3%nat. lia.
  - split; [done | lia].
Qed.

Lemma labelFormatter_found (chartData : list Dashboard.ContractorBar.t)
    (bar : Dashboard.ContractorBar.t) :
  NoDup (map Dashboard.ContractorBar.name chartData) → bar ∈ chartData →
  Dashboard.labelFormatter chartData (Dashboard.ContractorBar.name bar)
  = Dashboard.ContractorBar.fullName bar.
Proof.
  unfold Dashboard.labelFormatter, arrayFind.
  induction chartData as [|x xs IH]; simpl; intros Hnodup Hin.
  - by apply not_elem_of_nil in Hin.
  - apply NoDup_cons in Hnodup as [Hx Hnodup].
    apply elem_of_cons in Hin as [->|Hin]; [by rewrite String.eqb_refl|].
    destruct (String.eqb_spec (Dashboard.ContractorBar.name x)
                              (Dashboard.ContractorBar.name bar)) as [Heq|_].
    + exfalso. apply Hx. rewrite Heq.
      by apply list_elem_of_In, in_map, list_elem_of_In.
    + by apply IH.
Qed.

Lemma contractorChart_names (contractorData : list Dashboard.DataItem)
    (results : option Z) (hits : list FloodControlHit) :
  Forall (λ bar, Dashboard.ContractorBar.name bar
                 = Dashboard.shortName (Dashboard.ContractorBar.fullName bar))
    (Dashboard.ContractorChart contractorData results hits).
Proof.
  unfold Dashboard.ContractorChart.
  destruct (Dashboard.isFiltered _).
  - rewrite slice_0_10. apply Forall_take, Forall_forall. intros bar Hbar.
    rewrite sort_perm in Hbar.
    by apply list_elem_of_In, in_map_iff in Hbar as ([k c] & <- & _).
  - apply Forall_forall. intros bar Hbar.
    by apply list_elem_of_In, in_map_iff in Hbar as (e & <- & _).
Qed.

(** X18. Every label of the contractor chart is the contractor name cut
    to thirty characters and three dots, so at most 33 characters long;
    when the labels of the chart are pairwise different, the tooltip of
    every bar shows the full name of its contractor; and on live data
    that is so whenever no name shown is longer than thirty characters. *)
Theorem contractor_tooltip_full_name (contractorData : list Dashboard.DataItem)
    (results : option Z) (hits : list FloodControlHit) :
  let chart := Dashboard.ContractorChart contractorData results hits in
  Forall (λ bar, Dashboard.ContractorBar.name bar
                 = Dashboard.shortName (Dashboard.ContractorBar.fullName bar)
                 ∧ (String.length (Dashboard.ContractorBar.name bar) ≤ 33)%nat) chart
  ∧ (NoDup (map Dashboard.ContractorBar.name chart) →
     ∀ bar, bar ∈ chart →
            Dashboard.labelFormatter chart (Dashboard.ContractorBar.name bar)
            = Dashboard.ContractorBar.fullName bar)
  ∧ (Dashboard.isFiltered (Dashboard.totalHitsOf results) = true →
     Forall (λ bar, (String.length (Dashboard.ContractorBar.fullName bar) ≤ 30)%nat)
            chart →
     ∀ bar, bar ∈ chart →
            Dashboard.labelFormatter chart (Dashboard.ContractorBar.name bar)
            = Dashboard.ContractorBar.fullName bar).
Proof.
  intros chart. subst chart.
  pose proof (contractorChart_names contractorData results hits) as Hnames.
  split; [|split].
  - eapply Forall_impl; [exact Hnames|]. intros bar Hbar. simpl in Hbar.
    split; [exact Hbar|]. rewrite Hbar. apply shortName_length.
  - intros Hnodup bar Hbar. by apply labelFormatter_found.
  - intros Hlive Hshort bar Hbar. apply labelFormatter_found; [|exact Hbar].
    assert (map Dashboard.ContractorBar.name
              (Dashboard.ContractorChart contractorData results hits)
            = map Dashboard.ContractorBar.fullName
                (Dashboard.ContractorChart contractorData results hits)) as ->.
    { apply map_ext_in. intros x Hx. apply list_elem_of_In in Hx.
      rewrite Forall_forall in Hnames, Hshort.
      rewrite (Hnames x Hx). by apply shortName_length, Hshort. }
    unfold Dashboard.ContractorChart. rewrite Hlive.
    apply (top10_with_ties
             (λ '(fullName, Projects),
                {| Dashboard.ContractorBar.name := Dashboard.shortName fullName;
                   Dashboard.ContractorBar.Projects := Projects;
                   Dashboard.ContractorBar.fullName := fullName |}));
      by intros [k c].
Qed.

(** Two contractors with short names, on live data. *)
Lemma contractor_tooltip_full_name_witness :
  let hits := map hitWithContractor ["ABC Builders"; "XYZ Construction"; "ABC Builders"] in
  let chart := Dashboard.ContractorChart [] (Some 3) hits in
  Dashboard.labelFormatter chart "XYZ Construction" = "XYZ Construction".
Proof.
  intros hits chart.
  apply (proj2 (proj2 (contractor_tooltip_full_name [] (Some 3) hits))
           eq_refl ltac:(vm_compute; repeat constructor)
           {| Dashboard.ContractorBar.name := "XYZ Construction";
              Dashboard.ContractorBar.Projects := 1;
              Dashboard.ContractorBar.fullName := "XYZ Construction" |}).
  vm_compute. repeat constructor.
Defined.

(** ** The two counts of unique contractors *)

(** X19. On the same hits, when the dashboard computes its statistics,
    its count of unique contractors is never below that of the table
    view, and the two are equal whenever no contractor name consists of
    white space only. *)
Theorem unique_contractors_compared (results : option Z)
    (hits : list FloodControlHit) :
  Dashboard.statsIsFiltered (Dashboard.totalHitsOf results) = true →
  (Table.uniqueContractors hits
   ≤ Dashboard.uniqueContractors (Dashboard.DashboardStatistics results hits))%nat
  ∧ ((∀ hit c, hit ∈ hits → Contractor hit = Some c →
               nonEmpty c = true → nonEmpty (trim c) = true) →
     Table.uniqueContractors hits
     = Dashboard.uniqueContractors (Dashboard.DashboardStatistics results hits)).
Proof.
  intros Hlive. unfold Dashboard.DashboardStatistics. rewrite Hlive. simpl.
  unfold Table.uniqueContractors, setSize. split.
  - apply submseteq_length, NoDup_submseteq; [apply NoDup_remove_dups|].
    intros c. rewrite !elem_of_remove_dups. intros Hc.
    apply list_elem_of_In, in_map_iff in Hc as (hit & <- & Hhit).
    apply list_elem_of_In, list_elem_of_filter in Hhit as [Hkeep Hhit].
    apply list_elem_of_filter. split.
    + destruct (Contractor hit) as [c|]; [|discriminate]. simpl.
      by apply andb_true_iff in Hkeep as [? _].
    + by apply list_elem_of_In, in_map, list_elem_of_In.
  - intros Hclean. do 2 f_equal.
    induction hits as [|hit hits IH]; [reflexivity|].
    assert (map Contractor
              (filter (λ hit, match Contractor hit with
                              | Some c => nonEmpty c && nonEmpty (trim c)
                              | None => false
                              end = true) hits)
            = filter (λ c, truthy c = true) (map Contractor hits)) as IH'
      by (apply IH; intros h c Hh; apply Hclean; by right).
    cbn [map]. rewrite !filter_cons, <- IH'.
    pose proof (Hclean hit) as Hhit.
    destruct (Contractor hit) as [c|] eqn:Hc; simpl.
    + specialize (Hhit c ltac:(by left) eq_refl).
      destruct (nonEmpty c) eqn:Hne; simpl.
      * rewrite (Hhit eq_refl). simpl. by rewrite Hc.
      * reflexivity.
    + reflexivity.
Qed.

(** Three hits of two contractors, no blank name. *)
Lemma unique_contractors_compared_witness :
  Table.uniqueContractors (map hitWithContractor ["A"; "B"; "A"])
  = Dashboard.uniqueContractors
      (Dashboard.DashboardStatistics (Some 3) (map hitWithContractor ["A"; "B"; "A"])).
Proof.
  apply (proj2 (unique_contractors_compared (Some 3)
                  (map hitWithContractor ["A"; "B"; "A"]) eq_refl)).
  intros hit c Hhit Hc _.
  repeat (apply elem_of_cons in Hhit as [->|Hhit];
          [injection Hc as <-; reflexivity|]).
  by apply not_elem_of_nil in Hhit.
Defined.
End LiveCharts.

(* ===================================================================== *)
(** * Every page can be reached *)
(* ===================================================================== *)

Section PagesReached.
Import JS Spec.

Lemma next_page_offered (length : nat) (p : Z) :
  0 ≤ p → p + 1 < Table.totalPages length →
  p + 1 ∈ Table.paginationTargets length p.
Proof.
  intros Hpos Hnext. unfold Table.paginationTargets.
  destruct (Z.gtb_spec (Table.totalPages length) 1) as [_|?]; [|lia].
  apply elem_of_app. right. apply elem_of_app. right.
  destruct (Z.geb_spec p (Table.totalPages length - 1)) as [?|_]; [lia|].
  replace (Z.min (Table.totalPages length - 1) (p + 1)) with (p + 1) by lia.
  by left.
Qed.

(** X20. Every page of the batch, from the first to the last, can be
    reached from the table just loaded with the pagination controls,
    without a click on a column header. *)
Theorem every_page_reachable (length : nat) (p : Z) :
  0 ≤ p < Table.totalPages length →
  ∃ st, Table.reachable length st
        ∧ Table.currentPage st = p
        ∧ Table.sortField st = Table.sortField Table.initialState
        ∧ Table.sortDirection st = Table.sortDirection Table.initialState.
Proof.
  intros [Hpos Hpage]. destruct (Z_of_nat_complete _ Hpos) as [k ->]. clear Hpos.
  induction k as [|k IH].
  - exists Table.initialState. repeat split. constructor.
  - destruct IH as (st & Hreach & Hcurrent & Hfield & Hdirection); [lia|].
    exists (Table.handlePageChange (Z.of_nat (S k)) st).
    split; [|by repeat split].
    apply Table.reach_page; [exact Hreach|].
    rewrite Hcurrent. replace (Z.of_nat (S k)) with (Z.of_nat k + 1) by lia.
    apply next_page_offered; lia.
Qed.

(** The third and last page of 45 records. *)
Lemma every_page_reachable_witness :
  ∃ st, Table.reachable 45 st
        ∧ Table.currentPage st = 2
        ∧ Table.sortField st = Table.sortField Table.initialState
        ∧ Table.sortDirection st = Table.sortDirection Table.initialState.
Proof.
  apply (every_page_reachable 45 2). vm_compute. split; [discriminate | reflexivity].
Defined.
End PagesReached.

(* ===================================================================== *)
(** * Text beyond ASCII: the no-break space and accented letters *)
(* ===================================================================== *)

Section Latin1.
Import JS Spec.

(** A value that consists of a no-break space (U+00A0) is blank: it
    gives no clause in the predicate and does not count as a filter. *)
Lemma no_break_space_is_blank :
  let nbsp := String "160"%char EmptyString in
  trim nbsp = EmptyString
  ∧ Table.buildFilterString (Table.handleFilterChange initialFilters "Region" nbsp)
    = typeClause
  ∧ Dashboard.filtersApplied (Dashboard.run [Dashboard.SearchChange nbsp]) = false
  ∧ parseFloat (nbsp +:+ "12") = ofZ 12.
Proof. repeat split; vm_compute; reflexivity. Qed.

(** With the contractor values A, no-break space and B, the table view
    counts two contractors and the dashboard three; and a region that is
    a no-break space is not a bar of the region chart. *)
Lemma no_break_space_is_not_counted :
  let nbsp := String "160"%char EmptyString in
  Table.uniqueContractors (map hitWithContractor ["A"; nbsp; "B"]) = 2%nat
  ∧ Dashboard.uniqueContractors
      (Dashboard.DashboardStatistics (Some 3) (map hitWithContractor ["A"; nbsp; "B"]))
    = 3%nat
  ∧ Dashboard.RegionChart [] (Some 3) (map hitInRegion [nbsp; "NCR"; nbsp])
    = [{| Dashboard.Bar.name := "NCR"; Dashboard.Bar.Projects := 1 |}].
Proof. repeat split; vm_compute; reflexivity. Qed.

(** The letters U+00C0 to U+00DE have a lower-case form: the names PEÑA
    and peña (Ñ is U+00D1, ñ is U+00F1) have the same sort key, so they
    are a tie in a sort by contractor, and the search term ñ finds the
    option PEÑA; the multiplication sign U+00D7 is left as it is. *)
Lemma accented_letters_fold :
  let upper := "PE" +:+ String "209"%char "A" in
  let lower := "pe" +:+ String "241"%char "a" in
  toLowerCase upper = lower
  ∧ Table.compareHits "Contractor" Table.asc
      (hitWithContractor lower) (hitWithContractor upper) = ofZ 0
  ∧ Table.compareHits "Contractor" Table.asc
      (hitWithContractor upper) (hitWithContractor lower) = ofZ 0
  ∧ filteredOptions true (String "241"%char EmptyString)
      [{| LookupData.value := upper; LookupData.count := 1;
          LookupData.regCode := None |}]
    = [{| LookupData.value := upper; LookupData.count := 1;
          LookupData.regCode := None |}]
  ∧ toLowerCase (String "215"%char EmptyString) = String "215"%char EmptyString.
Proof. repeat split; vm_compute; reflexivity. Qed.
End Latin1.
